(** * Social Media API: a shallow embedding of the Express/MySQL server

    The server maps each HTTP verb and path to a few SQL statements, run one
    after the other on a connection pool, and a JSON response.  The embedding
    has three layers:

    - the schema of [initializeDatabase]: six tables of rows, each with its
      AUTO_INCREMENT counter, and the constraints the schema declares
      (PRIMARY and UNIQUE keys, FOREIGN KEYs, column lengths);
    - every SQL statement of the server as a function in a
      state-and-exception monad over the database.  Statements are
      autocommitted one by one, so what a handler wrote before a later
      statement throws stays written;
    - every route handler and the two middlewares, written in that monad in
      the order of the source, with the [try]/[catch] of each handler turning
      a thrown error into the 500 response.

    Modelling conventions.  Ids and timestamps are [Z]; CURRENT_TIMESTAMP is
    the time at which a statement runs and is an argument of each INSERT.
    The schema names no collation, so MySQL compares usernames and emails
    (the WHERE clause of the two lookups by email and the two UNIQUE keys of
    users) under the default collation of the server; that collation is a
    parameter of the embedding ([equal_under]), and the theorems hold for
    every collation, the case-insensitive default and a binary one alike.
    JavaScript compares strings as they are.  The type of a notification is
    one of the three words the server writes, which are compared as they
    are.  Strings count one character per [ascii].  AUTO_INCREMENT counters
    are not bounded by the INT range.  InnoDB hands out the id of a row
    before it checks the keys, so an INSERT that a UNIQUE or FOREIGN KEY
    constraint refuses leaves the rows as they were and still uses up an id;
    a value too long for its column is refused before that (strict SQL
    mode), and the theorems speak of values that fit.  A route parameter is
    the integer [parseInt] read from the path, and a field of the JSON body
    is absent or a string: the handlers are given the requests that
    [express.json()] hands on, and a body the parser refuses (one over its
    size limit) is answered before any route.  ORDER BY is a stable
    insertion sort; the theorems about ordered results use only that the
    result is a sorted permutation.  GET / serves a static page and is left
    out.  The collation, bcryptjs, jsonwebtoken and the JWT secret are
    parameters of the server. *)

From Stdlib Require Import ZArith List String Ascii Bool Lia.
From Stdlib Require Import Permutation Sorted.
Import ListNotations.

Local Open Scope string_scope.
Local Open Scope list_scope.
Local Open Scope Z_scope.

(** ** JavaScript values used by the handlers *)

(** [s.endsWith(suffix)] *)
Definition endsWith (s suffix : string) : bool :=
  let n := String.length s in
  let m := String.length suffix in
  (m <=? n)%nat && String.eqb (substring (n - m) m s) suffix.

(** [!!v] for a value that is [undefined] or a string: the empty string and
    [undefined] are falsy. *)
Definition truthy (v : option string) : bool :=
  match v with
  | Some s => negb (String.eqb s "")
  | None => false
  end.

(** [s.length] *)
Definition strlen (s : string) : Z := Z.of_nat (String.length s).

(** [s.split(sep)] for a one-character separator. *)
Fixpoint split (sep : ascii) (s : string) : list string :=
  match s with
  | EmptyString => [EmptyString]
  | String c rest =>
      if Ascii.eqb c sep then EmptyString :: split sep rest
      else match split sep rest with
           | [] => [String c EmptyString]
           | w :: ws => String c w :: ws
           end
  end.

(** ** Schema *)

Module Users.
Record row := mk
  { id : Z; username : string; email : string; password_hash : string;
    is_admin : bool; created_at : Z }.
End Users.

Module Posts.
Record row := mk
  { id : Z; user_id : Z; content : string; created_at : Z }.
End Posts.

Module Comments.
Record row := mk
  { id : Z; user_id : Z; post_id : Z; content : string; created_at : Z }.
End Comments.

Module Likes.
Record row := mk
  { id : Z; user_id : Z; post_id : Z; created_at : Z }.
End Likes.

Module Follows.
Record row := mk
  { id : Z; follower_id : Z; following_id : Z; created_at : Z }.
End Follows.

Module Notifications.
Record row := mk
  { id : Z; user_id : Z; type : string; source_user_id : Z;
    post_id : option Z; is_read : bool; created_at : Z }.

(** [UPDATE ... SET is_read = TRUE] on one row. *)
Definition mark_read (n : row) : row :=
  mk (id n) (user_id n) (type n) (source_user_id n) (post_id n) true
     (created_at n).
End Notifications.

(** A table: its rows in insertion order and the next AUTO_INCREMENT value. *)
Record Table (R : Type) := mkTable { rows : list R; next_id : Z }.
Arguments mkTable {R} _ _.
Arguments rows {R} _.
Arguments next_id {R} _.

Definition empty_table {R : Type} : Table R := mkTable [] 1.

(** An id handed out to an [INSERT] that a key then refused. *)
Definition skip_id {R : Type} (t : Table R) : Table R :=
  mkTable (rows t) (next_id t + 1).

(** [INSERT] of a row built from the id the table hands out. *)
Definition append_row {R : Type} (t : Table R) (mk_row : Z -> R) : Table R :=
  mkTable (rows t ++ [mk_row (next_id t)]) (next_id t + 1).

Record DB := mkDB
  { users : Table Users.row;
    posts : Table Posts.row;
    comments : Table Comments.row;
    likes : Table Likes.row;
    follows : Table Follows.row;
    notifications : Table Notifications.row }.

(** The database right after [initializeDatabase] on a fresh server. *)
Definition empty_db : DB :=
  mkDB empty_table empty_table empty_table empty_table empty_table empty_table.

Definition set_users (t : Table Users.row) (db : DB) : DB :=
  mkDB t (posts db) (comments db) (likes db) (follows db) (notifications db).
Definition set_posts (t : Table Posts.row) (db : DB) : DB :=
  mkDB (users db) t (comments db) (likes db) (follows db) (notifications db).
Definition set_comments (t : Table Comments.row) (db : DB) : DB :=
  mkDB (users db) (posts db) t (likes db) (follows db) (notifications db).
Definition set_likes (t : Table Likes.row) (db : DB) : DB :=
  mkDB (users db) (posts db) (comments db) t (follows db) (notifications db).
Definition set_follows (t : Table Follows.row) (db : DB) : DB :=
  mkDB (users db) (posts db) (comments db) (likes db) t (notifications db).
Definition set_notifications (t : Table Notifications.row) (db : DB) : DB :=
  mkDB (users db) (posts db) (comments db) (likes db) (follows db) t.

(** ** The query monad *)

(** What a statement or a line of JavaScript can throw inside a handler. *)
Inductive Error : Type :=
| ER_DUP_ENTRY            (* a UNIQUE key is violated *)
| ER_NO_REFERENCED_ROW    (* a FOREIGN KEY has no parent row *)
| ER_DATA_TOO_LONG        (* a value is longer than its column *)
| UndefinedBindParameter  (* mysql2 refuses [undefined] as a parameter *)
| TypeError               (* a property of [undefined] is read *)
| IllegalArguments.       (* bcryptjs is given something else than strings *)

Inductive Outcome (A : Type) : Type :=
| Ok (a : A)
| Thrown (e : Error).
Arguments Ok {A} _.
Arguments Thrown {A} _.

(** An awaited computation: it reads and writes the database and either
    returns or throws; the database it leaves is kept in both cases. *)
Definition Query (A : Type) : Type := DB -> Outcome A * DB.

Definition ret {A : Type} (a : A) : Query A := fun db => (Ok a, db).
Definition throw {A : Type} (e : Error) : Query A := fun db => (Thrown e, db).
Definition bind {A B : Type} (m : Query A) (k : A -> Query B) : Query B :=
  fun db =>
    match m db with
    | (Ok a, db') => k a db'
    | (Thrown e, db') => (Thrown e, db')
    end.

Notation "x <- m ;; k" := (bind m (fun x => k))
  (at level 61, m at next level, right associativity).
Notation "m ;;; k" := (bind m (fun _ => k))
  (at level 61, right associativity).

(** A read-only statement. *)
Definition query {A : Type} (f : DB -> A) : Query A := fun db => (Ok (f db), db).

(** [rows[0]] of a result set, then a property read on it. *)
Definition first_row {A : Type} (l : list A) : Query A :=
  match l with
  | [] => throw TypeError
  | r :: _ => ret r
  end.

(** ** SQL statements *)

Definition user_exists (uid : Z) (db : DB) : bool :=
  existsb (fun u => Users.id u =? uid) (rows (users db)).
Definition post_exists (pid : Z) (db : DB) : bool :=
  existsb (fun p => Posts.id p =? pid) (rows (posts db)).

Definition likes_match (uid pid : Z) (l : Likes.row) : bool :=
  (Likes.user_id l =? uid) && (Likes.post_id l =? pid).
Definition follows_match (follower following : Z) (f : Follows.row) : bool :=
  (Follows.follower_id f =? follower) && (Follows.following_id f =? following).

(** [a = b] on a column of a character type.  MySQL compares two such
    strings by the weights that the collation of the column gives them.  The
    schema names no collation, so [users.username] and [users.email] have the
    default one of the server: a case-insensitive one unless the server is
    set up otherwise.  [collation s] is the weight string of [s] under it:
    [s] itself for a binary collation, [s] with its letters folded to one
    case for a case-insensitive one. *)
Definition equal_under (collation : string -> string) (a b : string) : bool :=
  String.eqb (collation a) (collation b).

(** SELECT * FROM users WHERE email = ? *)
Definition select_users_by_email (collation : string -> string) (e : string)
  : Query (list Users.row) :=
  query (fun db => filter (fun u => equal_under collation (Users.email u) e)
                          (rows (users db))).

(** SELECT ... FROM users WHERE id = ? *)
Definition select_users_by_id (uid : Z) : Query (list Users.row) :=
  query (fun db => filter (fun u => Users.id u =? uid) (rows (users db))).

(** INSERT INTO users (username, email, password_hash, is_admin)
    VALUES (?, ?, ?, ?) *)
Definition insert_user (collation : string -> string) (now : Z)
    (name mail hash : string) (admin : bool)
  : Query Z :=
  fun db =>
    if (50 <? strlen name) || (100 <? strlen mail) || (255 <? strlen hash)
    then (Thrown ER_DATA_TOO_LONG, db)
    else if existsb (fun u => equal_under collation (Users.username u) name
                              || equal_under collation (Users.email u) mail)
                    (rows (users db))
    then (Thrown ER_DUP_ENTRY, set_users (skip_id (users db)) db)
    else (Ok (next_id (users db)),
          set_users (append_row (users db)
                       (fun i => Users.mk i name mail hash admin now)) db).

(** INSERT INTO posts (user_id, content) VALUES (?, ?) *)
Definition insert_post (now uid : Z) (text : string) : Query Z :=
  fun db =>
    if 65535 <? strlen text then (Thrown ER_DATA_TOO_LONG, db)
    else if negb (user_exists uid db)
    then (Thrown ER_NO_REFERENCED_ROW, set_posts (skip_id (posts db)) db)
    else (Ok (next_id (posts db)),
          set_posts (append_row (posts db)
                       (fun i => Posts.mk i uid text now)) db).

(** SELECT user_id FROM posts WHERE id = ?   (and SELECT p.* ... WHERE p.id = ?) *)
Definition select_posts_by_id (pid : Z) : Query (list Posts.row) :=
  query (fun db => filter (fun p => Posts.id p =? pid) (rows (posts db))).

(** INSERT INTO comments (user_id, post_id, content) VALUES (?, ?, ?) *)
Definition insert_comment (now uid pid : Z) (text : string) : Query Z :=
  fun db =>
    if 65535 <? strlen text then (Thrown ER_DATA_TOO_LONG, db)
    else if negb (user_exists uid db && post_exists pid db)
    then (Thrown ER_NO_REFERENCED_ROW, set_comments (skip_id (comments db)) db)
    else (Ok (next_id (comments db)),
          set_comments (append_row (comments db)
                          (fun i => Comments.mk i uid pid text now)) db).

(** SELECT * FROM likes WHERE user_id = ? AND post_id = ? *)
Definition select_likes (uid pid : Z) : Query (list Likes.row) :=
  query (fun db => filter (likes_match uid pid) (rows (likes db))).

(** DELETE FROM likes WHERE user_id = ? AND post_id = ? *)
Definition delete_likes (uid pid : Z) : Query unit :=
  fun db =>
    (Ok tt,
     set_likes (mkTable (filter (fun l => negb (likes_match uid pid l))
                                (rows (likes db)))
                        (next_id (likes db))) db).

(** INSERT INTO likes (user_id, post_id) VALUES (?, ?) *)
Definition insert_like (now uid pid : Z) : Query Z :=
  fun db =>
    if existsb (likes_match uid pid) (rows (likes db))
    then (Thrown ER_DUP_ENTRY, set_likes (skip_id (likes db)) db)
    else if negb (user_exists uid db && post_exists pid db)
    then (Thrown ER_NO_REFERENCED_ROW, set_likes (skip_id (likes db)) db)
    else (Ok (next_id (likes db)),
          set_likes (append_row (likes db)
                       (fun i => Likes.mk i uid pid now)) db).

(** SELECT * FROM follows WHERE follower_id = ? AND following_id = ? *)
Definition select_follows (follower following : Z) : Query (list Follows.row) :=
  query (fun db => filter (follows_match follower following) (rows (follows db))).

(** DELETE FROM follows WHERE follower_id = ? AND following_id = ? *)
Definition delete_follows (follower following : Z) : Query unit :=
  fun db =>
    (Ok tt,
     set_follows (mkTable (filter (fun f => negb (follows_match follower following f))
                                  (rows (follows db)))
                          (next_id (follows db))) db).

(** INSERT INTO follows (follower_id, following_id) VALUES (?, ?) *)
Definition insert_follow (now follower following : Z) : Query Z :=
  fun db =>
    if existsb (follows_match follower following) (rows (follows db))
    then (Thrown ER_DUP_ENTRY, set_follows (skip_id (follows db)) db)
    else if negb (user_exists follower db && user_exists following db)
    then (Thrown ER_NO_REFERENCED_ROW, set_follows (skip_id (follows db)) db)
    else (Ok (next_id (follows db)),
          set_follows (append_row (follows db)
                         (fun i => Follows.mk i follower following now)) db).

(** INSERT INTO notifications (user_id, type, source_user_id[, post_id])
    VALUES (?, ?, ?[, ?]); the three-column form leaves post_id NULL. *)
Definition insert_notification (now uid : Z) (ty : string) (source : Z)
    (pid : option Z) : Query Z :=
  fun db =>
    if negb (user_exists uid db && user_exists source db
             && match pid with Some p => post_exists p db | None => true end)
    then (Thrown ER_NO_REFERENCED_ROW,
          set_notifications (skip_id (notifications db)) db)
    else (Ok (next_id (notifications db)),
          set_notifications
            (append_row (notifications db)
               (fun i => Notifications.mk i uid ty source pid false now)) db).

(** SELECT * FROM notifications WHERE id = ? AND user_id = ? *)
Definition select_notification (nid uid : Z) : Query (list Notifications.row) :=
  query (fun db =>
           filter (fun n => (Notifications.id n =? nid)
                            && (Notifications.user_id n =? uid))
                  (rows (notifications db))).

(** UPDATE notifications SET is_read = TRUE WHERE id = ? *)
Definition update_notification_read (nid : Z) : Query unit :=
  fun db =>
    (Ok tt,
     set_notifications
       (mkTable (map (fun n => if Notifications.id n =? nid
                               then Notifications.mark_read n else n)
                     (rows (notifications db)))
                (next_id (notifications db))) db).

(** ** Joins and ORDER BY *)

(** FROM l JOIN r ON on *)
Definition inner_join {A B : Type} (on : A -> B -> bool) (l : list A) (r : list B)
  : list (A * B) :=
  flat_map (fun a => map (pair a) (filter (on a) r)) l.

(** FROM l LEFT JOIN r ON on *)
Definition left_join {A B : Type} (on : A -> B -> bool) (l : list A) (r : list B)
  : list (A * option B) :=
  flat_map (fun a => match filter (on a) r with
                     | [] => [(a, None)]
                     | ms => map (fun b => (a, Some b)) ms
                     end) l.

(** ORDER BY: [x] goes before the first row it may come before; rows with
    equal keys keep the order of the table. *)
Fixpoint insert_by {A : Type} (leb : A -> A -> bool) (x : A) (l : list A) : list A :=
  match l with
  | [] => [x]
  | y :: t => if leb x y then x :: l else y :: insert_by leb x t
  end.

Definition order_by {A : Type} (leb : A -> A -> bool) (l : list A) : list A :=
  fold_right (insert_by leb) [] l.

Definition desc {A : Type} (key : A -> Z) (a b : A) : bool := key b <=? key a.
Definition asc {A : Type} (key : A -> Z) (a b : A) : bool := key a <=? key b.

(** ** Requests and responses *)

(** The claims of a bearer token: [{ userId, email, isAdmin }]. *)
Record TokenPayload := mkPayload
  { tok_userId : Z; tok_email : string; tok_isAdmin : bool }.

(** What arrives over HTTP: the Authorization header, the numeric route
    parameter ([:postId], [:userId], [:notificationId]) and the fields of the
    JSON body the handlers read. *)
Record HttpRequest := mkHttp
  { authorization : option string;
    param : Z;
    body_username : option string;
    body_email : option string;
    body_password : option string;
    body_content : option string }.

(** Express's [req]: the HTTP request and the [user] property, which only
    [authenticateToken] assigns. *)
Record Request := mkRequest { http : HttpRequest; user : option TokenPayload }.

Definition incoming (h : HttpRequest) : Request := mkRequest h None.

(** Rows as the SELECT lists shape them. *)
Record UserView := mkUserView        (* id, username, email, is_admin, created_at *)
  { uv_id : Z; uv_username : string; uv_email : string; uv_is_admin : bool;
    uv_created_at : Z }.
Record UserInfo := mkUserInfo        (* id, username, email, created_at *)
  { ui_id : Z; ui_username : string; ui_email : string; ui_created_at : Z }.
Record PostView := mkPostView        (* p.*, u.username *)
  { pv_post : Posts.row; pv_username : string }.
Record FeedItem := mkFeedItem        (* p.*, u.username, u.email *)
  { fi_post : Posts.row; fi_username : string; fi_email : string }.
Record CommentView := mkCommentView  (* c.*, u.username *)
  { cv_comment : Comments.row; cv_username : string }.
Record NotificationView := mkNotificationView
  { nv_notification : Notifications.row;
    nv_source_username : option string;
    nv_source_email : option string;
    nv_post_content : option string;
    nv_post_id : option Z;
    nv_message : option string }.
Record Profile := mkProfile
  { pr_user : UserInfo;
    stats_posts : Z; stats_followers : Z; stats_following : Z;
    isFollowing : bool }.

Definition user_view (u : Users.row) : UserView :=
  mkUserView (Users.id u) (Users.username u) (Users.email u) (Users.is_admin u)
             (Users.created_at u).
Definition user_info (u : Users.row) : UserInfo :=
  mkUserInfo (Users.id u) (Users.username u) (Users.email u) (Users.created_at u).

(** The [data] member of a success response. *)
Inductive Data : Type :=
| DAuth (token : string) (u : UserView)          (* { token, user } *)
| DPost (p : option PostView)
| DPosts (l : list PostView)
| DLiked (liked : bool)                          (* { liked } *)
| DProfile (p : Profile)
| DFollowing (following : bool)                  (* { following } *)
| DFeed (l : list FeedItem)
| DComment (c : option CommentView)
| DComments (l : list CommentView)
| DNotifications (l : list NotificationView)
| DUsers (l : list UserInfo).

Inductive Body : Type :=
| Failure (error : string)                       (* { success: false, error } *)
| Success (data : Data)                          (* { success: true, data } *)
| SuccessMessage (message : string) (timestamp : option Z).

Record Response := mkResponse { status : Z; body : Body }.

(** [res.status(code).json(b)]; [res.json(b)] is [json 200 b]. *)
Definition json (code : Z) (b : Body) : Response := mkResponse code b.

Definition success (r : Response) : bool :=
  match body r with Failure _ => false | _ => true end.

Definition internal_server_error : Response :=
  json 500 (Failure "Internal server error").

(** A route handler: what it answers and the database it leaves. *)
Definition Handler : Type := Request -> DB -> Response * DB.

(** [try { ... } catch (error) { res.status(500).json(...) }] *)
Definition try_catch (m : Query Response) : DB -> Response * DB :=
  fun db =>
    match m db with
    | (Ok r, db') => (r, db')
    | (Thrown _, db') => (internal_server_error, db')
    end.

(** [req.user!.userId]: the [!] is erased by the compiler, so reading
    [userId] of an absent [user] throws. *)
Definition req_userId (req : Request) : Query Z :=
  match user req with
  | Some u => ret (tok_userId u)
  | None => throw TypeError
  end.

(** A body field passed as a statement parameter. *)
Definition bind_param (v : option string) : Query string :=
  match v with
  | Some s => ret s
  | None => throw UndefinedBindParameter
  end.

(** ** Route handlers that need no secret *)

(** SELECT p.*, u.username FROM posts p JOIN users u ON p.user_id = u.id *)
Definition posts_with_author (db : DB) : list (Posts.row * Users.row) :=
  inner_join (fun p u => Posts.user_id p =? Users.id u)
             (rows (posts db)) (rows (users db)).

Definition post_view (pu : Posts.row * Users.row) : PostView :=
  mkPostView (fst pu) (Users.username (snd pu)).

(** ... WHERE p.id = ? *)
Definition select_post_view (pid : Z) : Query (list PostView) :=
  query (fun db =>
           map post_view
               (filter (fun pu => Posts.id (fst pu) =? pid) (posts_with_author db))).

(** ... ORDER BY p.created_at DESC *)
Definition select_all_posts : Query (list PostView) :=
  query (fun db =>
           map post_view
               (order_by (desc (fun pu => Posts.created_at (fst pu)))
                         (posts_with_author db))).

(** POST /api/posts *)
Definition create_post (now : Z) : Handler := fun req =>
  try_catch
    (let content := body_content (http req) in
     userId <- req_userId req ;;
     if negb (truthy content)
     then ret (json 400 (Failure "Content is required"))
     else
       text <- bind_param content ;;
       insertId <- insert_post now userId text ;;
       posts <- select_post_view insertId ;;
       let newPost := hd_error posts in
       ret (json 201 (Success (DPost newPost)))).

(** GET /api/posts *)
Definition get_posts : Handler := fun req =>
  try_catch
    (posts <- select_all_posts ;;
     ret (json 200 (Success (DPosts posts)))).

(** POST /api/posts/:postId/like *)
Definition like_post (now later : Z) : Handler := fun req =>
  try_catch
    (let postId := param (http req) in
     userId <- req_userId req ;;
     existingLikes <- select_likes userId postId ;;
     if (0 <? Z.of_nat (List.length existingLikes))
     then
       delete_likes userId postId ;;;
       ret (json 200 (Success (DLiked false)))
     else
       insert_like now userId postId ;;;
       posts <- select_posts_by_id postId ;;
       post <- first_row posts ;;
       (if negb (Posts.user_id post =? userId)
        then insert_notification later (Posts.user_id post) "like" userId
                                 (Some postId) ;;; ret tt
        else ret tt) ;;;
       ret (json 200 (Success (DLiked true)))).

(** SELECT COUNT( * ) as count FROM posts WHERE user_id = ? *)
Definition count_posts (uid : Z) : Query Z :=
  query (fun db =>
           Z.of_nat (List.length (filter (fun p => Posts.user_id p =? uid)
                                    (rows (posts db))))).

(** SELECT COUNT( * ) as count FROM follows WHERE following_id = ? *)
Definition count_followers (uid : Z) : Query Z :=
  query (fun db =>
           Z.of_nat (List.length (filter (fun f => Follows.following_id f =? uid)
                                    (rows (follows db))))).

(** SELECT COUNT( * ) as count FROM follows WHERE follower_id = ? *)
Definition count_following (uid : Z) : Query Z :=
  query (fun db =>
           Z.of_nat (List.length (filter (fun f => Follows.follower_id f =? uid)
                                    (rows (follows db))))).

(** GET /api/users/:userId *)
Definition get_user : Handler := fun req =>
  try_catch
    (let req_user := user req in
     let userId := param (http req) in
     users <- select_users_by_id userId ;;
     match users with
     | [] => ret (json 404 (Failure "User not found"))
     | user :: _ =>
         postCount <- count_posts userId ;;
         followerCount <- count_followers userId ;;
         followingCount <- count_following userId ;;
         isFollowing <-
           match req_user with
           | Some me =>
               followStatus <- select_follows (tok_userId me) userId ;;
               ret (0 <? Z.of_nat (List.length followStatus))
           | None => ret false
           end ;;
         ret (json 200 (Success (DProfile
                (mkProfile (user_info user) postCount followerCount
                           followingCount isFollowing))))
     end).

(** POST /api/users/:userId/follow *)
Definition follow_user (now later : Z) : Handler := fun req =>
  try_catch
    (let targetUserId := param (http req) in
     followerId <- req_userId req ;;
     if targetUserId =? followerId
     then ret (json 400 (Failure "Cannot follow yourself"))
     else
       targetUsers <- select_users_by_id targetUserId ;;
       if Z.of_nat (List.length targetUsers) =? 0
       then ret (json 404 (Failure "User not found"))
       else
         existingFollows <- select_follows followerId targetUserId ;;
         if 0 <? Z.of_nat (List.length existingFollows)
         then
           delete_follows followerId targetUserId ;;;
           ret (json 200 (Success (DFollowing false)))
         else
           insert_follow now followerId targetUserId ;;;
           insert_notification later targetUserId "follow" followerId None ;;;
           ret (json 200 (Success (DFollowing true)))).

(** The WHERE clause of the feed:
    p.user_id IN (SELECT following_id FROM follows WHERE follower_id = ?)
    OR p.user_id = ? *)
Definition in_feed (db : DB) (uid : Z) (p : Posts.row) : bool :=
  existsb (fun following => Posts.user_id p =? following)
          (map Follows.following_id
               (filter (fun f => Follows.follower_id f =? uid) (rows (follows db))))
  || (Posts.user_id p =? uid).

Definition feed_item (pu : Posts.row * Users.row) : FeedItem :=
  mkFeedItem (fst pu) (Users.username (snd pu)) (Users.email (snd pu)).

(** SELECT p.*, u.username, u.email FROM posts p JOIN users u ON p.user_id = u.id
    WHERE ... ORDER BY p.created_at DESC *)
Definition select_feed (uid : Z) : Query (list FeedItem) :=
  query (fun db =>
           map feed_item
               (order_by (desc (fun pu => Posts.created_at (fst pu)))
                         (filter (fun pu => in_feed db uid (fst pu))
                                 (posts_with_author db)))).

(** GET /api/feed *)
Definition get_feed : Handler := fun req =>
  try_catch
    (userId <- req_userId req ;;
     posts <- select_feed userId ;;
     ret (json 200 (Success (DFeed posts)))).

(** SELECT c.*, u.username FROM comments c JOIN users u ON c.user_id = u.id *)
Definition comments_with_author (db : DB) : list (Comments.row * Users.row) :=
  inner_join (fun c u => Comments.user_id c =? Users.id u)
             (rows (comments db)) (rows (users db)).

Definition comment_view (cu : Comments.row * Users.row) : CommentView :=
  mkCommentView (fst cu) (Users.username (snd cu)).

(** ... WHERE c.id = ? *)
Definition select_comment_view (cid : Z) : Query (list CommentView) :=
  query (fun db =>
           map comment_view
               (filter (fun cu => Comments.id (fst cu) =? cid)
                       (comments_with_author db))).

(** ... WHERE c.post_id = ? ORDER BY c.created_at ASC *)
Definition select_post_comments (pid : Z) : Query (list CommentView) :=
  query (fun db =>
           map comment_view
               (order_by (asc (fun cu => Comments.created_at (fst cu)))
                         (filter (fun cu => Comments.post_id (fst cu) =? pid)
                                 (comments_with_author db)))).

(** POST /api/posts/:postId/comments *)
Definition add_comment (now later : Z) : Handler := fun req =>
  try_catch
    (let postId := param (http req) in
     let content := body_content (http req) in
     userId <- req_userId req ;;
     if negb (truthy content)
     then ret (json 400 (Failure "Content is required"))
     else
       text <- bind_param content ;;
       insertId <- insert_comment now userId postId text ;;
       comments <- select_comment_view insertId ;;
       let newComment := hd_error comments in
       posts <- select_posts_by_id postId ;;
       post <- first_row posts ;;
       (if negb (Posts.user_id post =? userId)
        then insert_notification later (Posts.user_id post) "comment" userId
                                 (Some postId) ;;; ret tt
        else ret tt) ;;;
       ret (json 201 (Success (DComment newComment)))).

(** GET /api/posts/:postId/comments *)
Definition get_comments : Handler := fun req =>
  try_catch
    (let postId := param (http req) in
     comments <- select_post_comments postId ;;
     ret (json 200 (Success (DComments comments)))).

(** CONCAT(u.username, suffix): NULL when the LEFT JOIN found no user. *)
Definition concat_username (u : option Users.row) (suffix : string) : option string :=
  option_map (fun r => Users.username r ++ suffix)%string u.

(** The CASE ... END as message column. *)
Definition notification_message (n : Notifications.row) (u : option Users.row)
  : option string :=
  if String.eqb (Notifications.type n) "follow"
  then concat_username u " started following you"
  else if String.eqb (Notifications.type n) "like"
  then concat_username u " liked your post"
  else if String.eqb (Notifications.type n) "comment"
  then concat_username u " commented on your post"
  else Some "New notification".

Definition notification_view
    (r : Notifications.row * option Users.row * option Posts.row)
  : NotificationView :=
  let '(n, u, p) := r in
  mkNotificationView n (option_map Users.username u) (option_map Users.email u)
                     (option_map Posts.content p) (option_map Posts.id p)
                     (notification_message n u).

(** SELECT n.*, ... FROM notifications n
    LEFT JOIN users u ON n.source_user_id = u.id
    LEFT JOIN posts p ON n.post_id = p.id
    WHERE n.user_id = ? ORDER BY n.created_at DESC LIMIT 50 *)
Definition select_notifications (uid : Z) : Query (list NotificationView) :=
  query (fun db =>
    let nu := left_join (fun n u => Notifications.source_user_id n =? Users.id u)
                        (rows (notifications db)) (rows (users db)) in
    let nup := left_join (fun (r : Notifications.row * option Users.row) p =>
                            match Notifications.post_id (fst r) with
                            | Some pid => pid =? Posts.id p
                            | None => false
                            end)
                         nu (rows (posts db)) in
    map notification_view
        (firstn 50
           (order_by (desc (fun r => Notifications.created_at (fst (fst r))))
                     (filter (fun r => Notifications.user_id (fst (fst r)) =? uid)
                             nup)))).

(** GET /api/notifications *)
Definition get_notifications : Handler := fun req =>
  try_catch
    (userId <- req_userId req ;;
     notifications <- select_notifications userId ;;
     ret (json 200 (Success (DNotifications notifications)))).

(** PATCH /api/notifications/:notificationId/read *)
Definition mark_notification_read : Handler := fun req =>
  try_catch
    (let notificationId := param (http req) in
     userId <- req_userId req ;;
     notifications <- select_notification notificationId userId ;;
     if Z.of_nat (List.length notifications) =? 0
     then ret (json 404 (Failure "Notification not found"))
     else
       update_notification_read notificationId ;;;
       ret (mkResponse 200 (SuccessMessage "Notification marked as read" None))).

(** SELECT id, username, email, created_at FROM users ORDER BY created_at DESC *)
Definition select_all_users : Query (list UserInfo) :=
  query (fun db => map user_info (order_by (desc Users.created_at) (rows (users db)))).

(** GET /api/admin/users *)
Definition admin_users : Handler := fun req =>
  try_catch
    (users <- select_all_users ;;
     ret (json 200 (Success (DUsers users)))).

(** GET /api *)
Definition api_status (now : Z) : Handler := fun req db =>
  (json 200 (SuccessMessage "Social Media API is running!" (Some now)), db).

(** ** Middleware *)

Inductive Passed : Type :=
| Respond (r : Response)      (* the middleware answered; the chain stops *)
| Next (req : Request).       (* [next()] *)

Definition Middleware : Type := Request -> Passed.

(** [app.METHOD(path, ...middlewares, handler)] *)
Fixpoint run_route (mws : list Middleware) (h : Handler) (req : Request) (db : DB)
  : Response * DB :=
  match mws with
  | [] => h req db
  | mw :: rest =>
      match mw req with
      | Respond r => (r, db)
      | Next req' => run_route rest h req' db
      end
  end.

(** requireAdmin *)
Definition requireAdmin : Middleware := fun req =>
  match user req with
  | None => Respond (json 401 (Failure "Authentication required"))
  | Some u =>
      if negb (tok_isAdmin u)
      then Respond (json 403 (Failure "Admin access required"))
      else Next req
  end.

(** [const isAdmin =
      email.endsWith('_admin@gmail.com') || email === 'admin@social.com'] *)
Definition isAdmin_of_email (email : string) : bool :=
  endsWith email "_admin@gmail.com" || String.eqb email "admin@social.com".

(** The routes of the file, in the order they are registered. *)
Inductive Route : Type :=
| POST_auth_register
| POST_auth_login
| POST_posts
| GET_posts
| POST_posts_like
| GET_users
| POST_users_follow
| GET_feed
| POST_posts_comments
| GET_posts_comments
| GET_notifications
| PATCH_notifications_read
| GET_admin_users
| GET_api.

(** What a request meets besides the database: the clock at the moment the
    token is verified, at the handler's first and second INSERT (or signing),
    and the salt bcrypt draws. *)
Record Env := mkEnv { t_auth : Z; t_first : Z; t_second : Z; salt : string }.

Section Server.

(** The collation of the character columns of the database the pool is
    connected to. *)
Variable collation : string -> string.

(** bcryptjs and jsonwebtoken, and the secret read from the environment. *)
Variable bcrypt_hash : string -> Z -> string -> string.  (* password, rounds, salt *)
Variable bcrypt_compare : string -> string -> bool.      (* password, hash *)
Variable jwt_sign : TokenPayload -> string -> Z -> Z -> string.
                                          (* payload, secret, now, expiresIn *)
Variable jwt_verify : string -> string -> Z -> option TokenPayload.
                                          (* token, secret, now *)
Variable JWT_SECRET : string.

Definition expires_24h : Z := 24 * 60 * 60.

(** A password handed to bcryptjs: anything but a string is refused. *)
Definition bcrypt_arg (v : option string) : Query string :=
  match v with
  | Some s => ret s
  | None => throw IllegalArguments
  end.

(** authenticateToken *)
Definition authenticateToken (now : Z) : Middleware := fun req =>
  let authHeader := authorization (http req) in
  let token := match authHeader with
               | Some h => if truthy (Some h) then nth_error (split " " h) 1
                           else Some h
               | None => None
               end in
  if negb (truthy token)
  then Respond (json 401 (Failure "Access token required"))
  else
    match token with
    | Some t =>
        match jwt_verify t JWT_SECRET now with
        | Some u => Next (mkRequest (http req) (Some u))
        | None => Respond (json 403 (Failure "Invalid token"))
        end
    | None => Respond (json 401 (Failure "Access token required"))
    end.

(** POST /api/auth/register *)
Definition register (now later : Z) (salt : string) : Handler := fun req =>
  try_catch
    (let username := body_username (http req) in
     let email := body_email (http req) in
     let password := body_password (http req) in
     if negb (truthy username) || negb (truthy email) || negb (truthy password)
     then ret (json 400 (Failure "All fields are required"))
     else
       mail <- bind_param email ;;
       existingUsers <- select_users_by_email collation mail ;;
       if 0 <? Z.of_nat (List.length existingUsers)
       then ret (json 400 (Failure "User already exists"))
       else
         pw <- bcrypt_arg password ;;
         let hashedPassword := bcrypt_hash pw 10 salt in
         let isAdmin := isAdmin_of_email mail in
         name <- bind_param username ;;
         userId <- insert_user collation now name mail hashedPassword isAdmin ;;
         users <- select_users_by_id userId ;;
         newUser <- first_row users ;;
         let token :=
           jwt_sign (mkPayload (Users.id newUser) (Users.email newUser)
                               (Users.is_admin newUser))
                    JWT_SECRET later expires_24h in
         ret (json 201 (Success (DAuth token (user_view newUser))))).

(** POST /api/auth/login *)
Definition login (now : Z) : Handler := fun req =>
  try_catch
    (let email := body_email (http req) in
     let password := body_password (http req) in
     mail <- bind_param email ;;
     users <- select_users_by_email collation mail ;;
     match users with
     | [] => ret (json 401 (Failure "Invalid credentials"))
     | user :: _ =>
         pw <- bcrypt_arg password ;;
         let isValidPassword := bcrypt_compare pw (Users.password_hash user) in
         if negb isValidPassword
         then ret (json 401 (Failure "Invalid credentials"))
         else
           let token :=
             jwt_sign (mkPayload (Users.id user) (Users.email user)
                                 (Users.is_admin user))
                      JWT_SECRET now expires_24h in
           ret (json 200 (Success (DAuth token (user_view user))))
     end).

(** The middlewares each route is registered with. *)
Definition middlewares (e : Env) (r : Route) : list Middleware :=
  match r with
  | POST_posts | POST_posts_like | POST_users_follow | GET_feed
  | POST_posts_comments | GET_notifications | PATCH_notifications_read =>
      [authenticateToken (t_auth e)]
  | GET_admin_users => [authenticateToken (t_auth e); requireAdmin]
  | POST_auth_register | POST_auth_login | GET_posts | GET_users
  | GET_posts_comments | GET_api => []
  end.

Definition handler (e : Env) (r : Route) : Handler :=
  match r with
  | POST_auth_register => register (t_first e) (t_second e) (salt e)
  | POST_auth_login => login (t_first e)
  | POST_posts => create_post (t_first e)
  | GET_posts => get_posts
  | POST_posts_like => like_post (t_first e) (t_second e)
  | GET_users => get_user
  | POST_users_follow => follow_user (t_first e) (t_second e)
  | GET_feed => get_feed
  | POST_posts_comments => add_comment (t_first e) (t_second e)
  | GET_posts_comments => get_comments
  | GET_notifications => get_notifications
  | PATCH_notifications_read => mark_notification_read
  | GET_admin_users => admin_users
  | GET_api => api_status (t_first e)
  end.

(** One request served by the application. *)
Definition app (e : Env) (r : Route) (h : HttpRequest) (db : DB) : Response * DB :=
  run_route (middlewares e r) (handler e r) (incoming h) db.

(** The databases the API can produce, starting from the empty schema. *)
Inductive reachable : DB -> Prop :=
| reachable_init : reachable empty_db
| reachable_step (e : Env) (r : Route) (h : HttpRequest) (db : DB) :
    reachable db -> reachable (snd (app e r h db)).

(** A sequence of requests served one after the other. *)
Definition replay (calls : list (Env * Route * HttpRequest)) (db : DB) : DB :=
  fold_left (fun d c => snd (app (fst (fst c)) (snd (fst c)) (snd c) d)) calls db.

End Server.

(** ** What the theorems speak about *)

(** The relations the tables hold. *)
Definition is_user (db : DB) (uid : Z) : Prop :=
  exists u, In u (rows (users db)) /\ Users.id u = uid.
Definition is_post (db : DB) (pid : Z) : Prop :=
  exists p, In p (rows (posts db)) /\ Posts.id p = pid.
Definition liked (db : DB) (uid pid : Z) : Prop :=
  exists l, In l (rows (likes db)) /\ Likes.user_id l = uid /\ Likes.post_id l = pid.
Definition following (db : DB) (follower followed : Z) : Prop :=
  exists f, In f (rows (follows db))
            /\ Follows.follower_id f = follower /\ Follows.following_id f = followed.

(** UNIQUE(user_id, post_id) and UNIQUE(follower_id, following_id): at most
    one row for each pair. *)
Definition likes_unique (db : DB) : Prop :=
  forall uid pid,
    (List.length (filter (likes_match uid pid) (rows (likes db))) <= 1)%nat.
Definition follows_unique (db : DB) : Prop :=
  forall a b,
    (List.length (filter (follows_match a b) (rows (follows db))) <= 1)%nat.
Definition unique_keys (db : DB) : Prop := likes_unique db /\ follows_unique db.

(** username VARCHAR(50) UNIQUE and email VARCHAR(100) UNIQUE: no two users
    have usernames, or emails, that the collation of the column equates. *)
Definition users_keys (collation : string -> string) (db : DB) : Prop :=
  NoDup (map (fun u => collation (Users.username u)) (rows (users db)))
  /\ NoDup (map (fun u => collation (Users.email u)) (rows (users db))).

(** id INT AUTO_INCREMENT PRIMARY KEY *)
Definition primary_key {R : Type} (id : R -> Z) (t : Table R) : Prop :=
  NoDup (map id (rows t)) /\ Forall (fun r => id r < next_id t) (rows t).

(** FOREIGN KEY (col) REFERENCES parent(id) *)
Definition references {R : Type} (col : R -> Z) (t : Table R) (parent : Z -> bool)
  : Prop :=
  Forall (fun r => parent (col r) = true) (rows t).

(** Every constraint [initializeDatabase] declares. *)
Record consistent (db : DB) : Prop := mkConsistent
  { users_pk : primary_key Users.id (users db);
    posts_pk : primary_key Posts.id (posts db);
    comments_pk : primary_key Comments.id (comments db);
    likes_pk : primary_key Likes.id (likes db);
    follows_pk : primary_key Follows.id (follows db);
    notifications_pk : primary_key Notifications.id (notifications db);
    users_username_key : NoDup (map Users.username (rows (users db)));
    users_email_key : NoDup (map Users.email (rows (users db)));
    likes_key : likes_unique db;
    follows_key : follows_unique db;
    posts_user_fk :
      references Posts.user_id (posts db) (fun i => user_exists i db);
    comments_user_fk :
      references Comments.user_id (comments db) (fun i => user_exists i db);
    comments_post_fk :
      references Comments.post_id (comments db) (fun i => post_exists i db);
    likes_user_fk :
      references Likes.user_id (likes db) (fun i => user_exists i db);
    likes_post_fk :
      references Likes.post_id (likes db) (fun i => post_exists i db);
    follows_follower_fk :
      references Follows.follower_id (follows db) (fun i => user_exists i db);
    follows_following_fk :
      references Follows.following_id (follows db) (fun i => user_exists i db);
    notifications_user_fk :
      references Notifications.user_id (notifications db)
                 (fun i => user_exists i db);
    notifications_source_fk :
      references Notifications.source_user_id (notifications db)
                 (fun i => user_exists i db);
    notifications_post_fk :
      Forall (fun n => match Notifications.post_id n with
                       | Some p => post_exists p db = true
                       | None => True
                       end) (rows (notifications db)) }.

(** [db'] is [db] with one more notification: for [owner], of type [ty],
    about what [source] did (to post [pid]) at time [at_time]. *)
Definition notification_added (db db' : DB) (at_time owner : Z) (ty : string)
    (source : Z) (pid : option Z) : Prop :=
  rows (notifications db')
  = rows (notifications db)
    ++ [Notifications.mk (next_id (notifications db)) owner ty source pid false
                         at_time].

(** The request carries [tok] as its bearer token: the second
    space-separated word of the Authorization header, not empty. *)
Definition bearer (h : HttpRequest) (tok : string) : Prop :=
  exists header,
    authorization h = Some header
    /\ nth_error (split " " header) 1 = Some tok
    /\ tok <> "".

(** A property of the database that a computation keeps, whether it returns
    or throws. *)
Definition preserves {A : Type} (P : DB -> Prop) (m : Query A) : Prop :=
  forall db, P db -> P (snd (m db)).

(** The routes registered with [authenticateToken] alone. *)
Definition behind_token (r : Route) : bool :=
  match r with
  | POST_posts | POST_posts_like | POST_users_follow | GET_feed
  | POST_posts_comments | GET_notifications | PATCH_notifications_read => true
  | _ => false
  end.

(** A request as [authenticateToken] hands it on for the user of a token. *)
Definition authenticated (u : TokenPayload) (h : HttpRequest) : Request :=
  mkRequest h (Some u).

(** A request for route parameter [p] with an empty body and no header. *)
Definition on_param (p : Z) : HttpRequest := mkHttp None p None None None None.

(** ** A small database and stand-ins for the libraries

    Three users, one post each, alice following bob and bob liking alice's
    post, with the two notifications those actions wrote.  The examples and
    the instances of the theorems below are evaluated on it. *)

Module Sample.

Definition alice : Users.row := Users.mk 1 "alice" "alice@example.com" "s1$wonderland" false 100.
Definition bob : Users.row := Users.mk 2 "bob" "bob_admin@gmail.com" "s2$builder" true 110.
Definition carol : Users.row := Users.mk 3 "carol" "carol@example.com" "s3$singer" false 120.

Definition db : DB :=
  mkDB (mkTable [alice; bob; carol] 4)
       (mkTable [Posts.mk 1 1 "hello" 200; Posts.mk 2 2 "world" 210;
                 Posts.mk 3 3 "again" 220] 4)
       (mkTable [] 1)
       (mkTable [Likes.mk 1 2 1 300] 2)
       (mkTable [Follows.mk 1 1 2 310] 2)
       (mkTable [Notifications.mk 1 1 "like" 2 (Some 1) false 300;
                 Notifications.mk 2 2 "follow" 1 None false 310] 3).

Definition alice_token : TokenPayload := mkPayload 1 "alice@example.com" false.
Definition bob_token : TokenPayload := mkPayload 2 "bob_admin@gmail.com" true.
Definition carol_token : TokenPayload := mkPayload 3 "carol@example.com" false.

(** A stand-in for the default collation of the server: the weight of a
    string is the string with its capital letters A to Z in lower case. *)
Definition lower (c : ascii) : ascii :=
  let n := nat_of_ascii c in
  if ((65 <=? n) && (n <=? 90))%nat then ascii_of_nat (n + 32) else c.
Fixpoint collation (s : string) : string :=
  match s with
  | EmptyString => EmptyString
  | String c rest => String (lower c) (collation rest)
  end.

(** Stand-ins for bcryptjs and jsonwebtoken: a hash is the salt, a dollar
    sign and the password; a token is the email of its payload and verifies
    for the three users above. *)
Definition bcrypt_hash (password : string) (rounds : Z) (salt : string) : string :=
  (salt ++ "$" ++ password)%string.
Definition bcrypt_compare (password hash : string) : bool :=
  endsWith hash ("$" ++ password)%string.
Definition jwt_sign (p : TokenPayload) (secret : string) (now expiresIn : Z)
  : string := tok_email p.
Definition jwt_verify (token secret : string) (now : Z) : option TokenPayload :=
  if String.eqb token "alice@example.com" then Some alice_token
  else if String.eqb token "bob_admin@gmail.com" then Some bob_token
  else if String.eqb token "carol@example.com" then Some carol_token
  else None.
Definition secret : string := "test_123".

(** The requests that make [db] out of the empty database: three
    registrations, a post by each user, bob's like and alice's follow. *)
Definition signup (t : Z) (salt name mail pw : string) : Env * Route * HttpRequest :=
  (mkEnv t t t salt, POST_auth_register,
   mkHttp None 0 (Some name) (Some mail) (Some pw) None).
Definition as_user (t : Z) (token : string) (r : Route) (p : Z)
    (content : option string) : Env * Route * HttpRequest :=
  (mkEnv t t t "", r,
   mkHttp (Some ("Bearer " ++ token)%string) p None None None content).

Definition session : list (Env * Route * HttpRequest) :=
  [ signup 100 "s1" "alice" "alice@example.com" "wonderland";
    signup 110 "s2" "bob" "bob_admin@gmail.com" "builder";
    signup 120 "s3" "carol" "carol@example.com" "singer";
    as_user 200 "alice@example.com" POST_posts 0 (Some "hello");
    as_user 210 "bob_admin@gmail.com" POST_posts 0 (Some "world");
    as_user 220 "carol@example.com" POST_posts 0 (Some "again");
    as_user 300 "bob_admin@gmail.com" POST_posts_like 1 None;
    as_user 310 "alice@example.com" POST_users_follow 2 None ].

End Sample.

(** ** What the further properties speak about *)

(** [makeRequest] of the tester page: the Authorization header it sends for
    the token it holds, and none while the token is the empty string. *)
Definition makeRequest_authorization (token : string) : option string :=
  if truthy (Some token) then Some ("Bearer " ++ token)%string else None.

(** A field of the body that a handler's [!field] test refuses: absent, or
    the empty string. *)
Definition missing (v : option string) : Prop := v = None \/ v = Some "".

(** [s] has no space in it. *)
Fixpoint no_space (s : string) : bool :=
  match s with
  | EmptyString => true
  | String c rest => negb (Ascii.eqb c " ") && no_space rest
  end.

(** The routes whose handler only runs SELECTs (or no statement). *)
Definition reads_only (r : Route) : bool :=
  match r with
  | POST_auth_login | GET_posts | GET_users | GET_feed | GET_posts_comments
  | GET_notifications | GET_admin_users | GET_api => true
  | _ => false
  end.

(** The routes registered with [authenticateToken]. *)
Definition requires_token (r : Route) : bool :=
  match r with
  | GET_admin_users => true
  | _ => behind_token r
  end.

(** [db] holds what [db0] held in the tables no route deletes from: the rows
    of users, posts and comments of [db0] come first and unchanged, those of
    notifications too but for is_read, and no AUTO_INCREMENT counter is
    lower. *)
Definition extends (db0 db : DB) : Prop :=
  (exists more, rows (users db) = rows (users db0) ++ more)
  /\ (exists more, rows (posts db) = rows (posts db0) ++ more)
  /\ (exists more, rows (comments db) = rows (comments db0) ++ more)
  /\ (exists more,
        map Notifications.mark_read (rows (notifications db))
        = map Notifications.mark_read (rows (notifications db0)) ++ more)
  /\ next_id (users db0) <= next_id (users db)
  /\ next_id (posts db0) <= next_id (posts db)
  /\ next_id (comments db0) <= next_id (comments db)
  /\ next_id (likes db0) <= next_id (likes db)
  /\ next_id (follows db0) <= next_id (follows db)
  /\ next_id (notifications db0) <= next_id (notifications db).


(** A computation that leaves every database as it finds it. *)
Definition read_only {A : Type} (m : Query A) : Prop :=
  forall db, snd (m db) = db.

(** The sample database after two comments on alice's post, bob's and then
    carol's. *)
Definition commented : DB :=
  replay Sample.collation
      Sample.bcrypt_hash Sample.bcrypt_compare Sample.jwt_sign
         Sample.jwt_verify Sample.secret
         [ Sample.as_user 400 "bob_admin@gmail.com" POST_posts_comments 1
                          (Some "nice");
           Sample.as_user 410 "carol@example.com" POST_posts_comments 1
                          (Some "welcome") ]
         Sample.db.

(** * Basic facts *)

Lemma equal_under_true (collation : string -> string) (a b : string) :
  equal_under collation a b = true <-> collation a = collation b.
Proof. apply String.eqb_eq. Qed.

Lemma equal_under_false (collation : string -> string) (a b : string) :
  equal_under collation a b = false <-> collation a <> collation b.
Proof. apply String.eqb_neq. Qed.

Lemma equal_under_refl (collation : string -> string) (a : string) :
  equal_under collation a a = true.
Proof. apply String.eqb_refl. Qed.

Lemma is_user_exists (db : DB) (uid : Z) :
  is_user db uid <-> user_exists uid db = true.
Proof.
  unfold is_user, user_exists. rewrite existsb_exists.
  split; intros [u [Hin Hid]]; exists u; split; auto; lia.
Qed.

Lemma is_post_exists (db : DB) (pid : Z) :
  is_post db pid <-> post_exists pid db = true.
Proof.
  unfold is_post, post_exists. rewrite existsb_exists.
  split; intros [p [Hin Hid]]; exists p; split; auto; lia.
Qed.

Lemma likes_match_true (uid pid : Z) (l : Likes.row) :
  likes_match uid pid l = true <-> Likes.user_id l = uid /\ Likes.post_id l = pid.
Proof. unfold likes_match. rewrite andb_true_iff. lia. Qed.

Lemma follows_match_true (a b : Z) (f : Follows.row) :
  follows_match a b f = true
  <-> Follows.follower_id f = a /\ Follows.following_id f = b.
Proof. unfold follows_match. rewrite andb_true_iff. lia. Qed.

Lemma liked_exists (db : DB) (uid pid : Z) :
  liked db uid pid <-> existsb (likes_match uid pid) (rows (likes db)) = true.
Proof.
  unfold liked. rewrite existsb_exists.
  split; intros [l [Hin H]]; exists l; split; auto; now apply likes_match_true.
Qed.

Lemma following_exists (db : DB) (a b : Z) :
  following db a b <-> existsb (follows_match a b) (rows (follows db)) = true.
Proof.
  unfold following. rewrite existsb_exists.
  split; intros [f [Hin H]]; exists f; split; auto; now apply follows_match_true.
Qed.

Lemma filter_nil_existsb {A : Type} (f : A -> bool) (l : list A) :
  filter f l = [] <-> existsb f l = false.
Proof.
  induction l as [|a l IH]; simpl; [tauto|].
  destruct (f a); simpl; [split; discriminate | exact IH].
Qed.

Lemma length_pos_existsb {A : Type} (f : A -> bool) (l : list A) :
  (0 <? Z.of_nat (List.length (filter f l))) = existsb f l.
Proof.
  induction l as [|a l IH]; simpl; [reflexivity|].
  destruct (f a); simpl; [|exact IH].
  apply Z.ltb_lt. lia.
Qed.

Lemma length_zero_existsb {A : Type} (f : A -> bool) (l : list A) :
  (Z.of_nat (List.length (filter f l)) =? 0) = negb (existsb f l).
Proof.
  induction l as [|a l IH]; simpl; [reflexivity|].
  destruct (f a); simpl; [reflexivity | exact IH].
Qed.

Lemma filter_negb_absent {A : Type} (f : A -> bool) (l : list A) :
  existsb f l = false -> filter (fun x => negb (f x)) l = l.
Proof.
  induction l as [|a l IH]; simpl; [reflexivity|].
  intros H. apply orb_false_iff in H as [Ha Hl].
  rewrite Ha. simpl. now rewrite IH.
Qed.

Lemma existsb_filter_cons {A : Type} (f : A -> bool) (l : list A) :
  existsb f l = true ->
  exists a t, filter f l = a :: t /\ In a l /\ f a = true.
Proof.
  induction l as [|x l IH]; simpl; [discriminate|].
  destruct (f x) eqn:E; simpl.
  - intros _. exists x, (filter f l). auto.
  - intros H. destruct (IH H) as [a [t [H1 [H2 H3]]]]. exists a, t. auto.
Qed.

Lemma references_In {R : Type} (col : R -> Z) (t : Table R) (parent : Z -> bool)
    (r : R) :
  references col t parent -> In r (rows t) -> parent (col r) = true.
Proof. unfold references. rewrite Forall_forall. auto. Qed.

(** A SELECT on a column that is a key finds the row and nothing else. *)
Lemma select_unique {R K : Type} (key : R -> K) (eqb : K -> K -> bool)
    (l : list R) (r : R) :
  (forall a b, eqb a b = true <-> a = b) ->
  NoDup (map key l) -> In r l ->
  filter (fun x => eqb (key x) (key r)) l = [r].
Proof.
  intros Heqb.
  assert (Hrefl : eqb (key r) (key r) = true) by now apply Heqb.
  induction l as [|x l IH]; simpl; [tauto|].
  intros Hnd Hin. inversion Hnd as [|? ? Hx Hl]; subst.
  assert (Hnone : forall y, ~ In (key y) (map key l) ->
                            filter (fun x => eqb (key x) (key y)) l = []).
  { intros y Hy. apply filter_nil_existsb.
    destruct (existsb (fun x0 => eqb (key x0) (key y)) l) eqn:E; [|reflexivity].
    apply existsb_exists in E as [z [Hz Hzy]]. apply Heqb in Hzy.
    elim Hy. rewrite <- Hzy. now apply in_map. }
  destruct Hin as [->|Hin].
  - rewrite Hrefl. now rewrite Hnone.
  - destruct (eqb (key x) (key r)) eqn:E.
    + apply Heqb in E. elim Hx. rewrite E. now apply in_map.
    + now apply IH.
Qed.

Lemma select_by_key {R : Type} (id : R -> Z) (l : list R) (r : R) :
  NoDup (map id l) -> In r l ->
  filter (fun x => id x =? id r) l = [r].
Proof. apply select_unique. apply Z.eqb_eq. Qed.

(** ** The sample database satisfies the schema *)

Ltac concrete_nodup :=
  repeat (constructor; [simpl; intuition (discriminate || lia)|]); constructor.

Lemma sample_consistent : consistent Sample.db.
Proof.
  constructor; unfold primary_key, references; simpl.
  1-6: split; [concrete_nodup | repeat constructor].
  1-2: concrete_nodup.
  - intros uid pid. simpl. destruct (likes_match uid pid _); simpl; lia.
  - intros a b. simpl. destruct (follows_match a b _); simpl; lia.
  - repeat constructor.
  - repeat constructor.
  - repeat constructor.
  - repeat constructor.
  - repeat constructor.
  - repeat constructor.
  - repeat constructor.
  - repeat constructor.
  - repeat constructor.
  - repeat constructor.
Qed.

(** ** Strings *)

Lemma length_append (a b : string) :
  String.length (a ++ b) = (String.length a + String.length b)%nat.
Proof. induction a as [|c a IH]; simpl; [reflexivity | now rewrite IH]. Qed.

Lemma substring_all (s : string) : substring 0 (String.length s) s = s.
Proof. induction s as [|c s IH]; simpl; [reflexivity | now rewrite IH]. Qed.

Lemma substring_suffix (pre suf : string) :
  substring (String.length pre) (String.length suf) (pre ++ suf) = suf.
Proof. induction pre as [|c pre IH]; simpl; [apply substring_all | exact IH]. Qed.

Lemma substring_split (s : string) (k : nat) :
  (k <= String.length s)%nat ->
  s = (substring 0 k s ++ substring k (String.length s - k) s)%string.
Proof.
  revert k. induction s as [|c s IH]; intros k Hk; simpl in *.
  - destruct k; reflexivity.
  - destruct k as [|k]; simpl.
    + now rewrite substring_all.
    + rewrite <- IH; [reflexivity | lia].
Qed.

(** [s.endsWith(suffix)] holds exactly of the strings that are something
    followed by [suffix]. *)
Lemma endsWith_suffix (s suffix : string) :
  endsWith s suffix = true <-> exists pre, s = (pre ++ suffix)%string.
Proof.
  unfold endsWith. rewrite andb_true_iff, Nat.leb_le, String.eqb_eq. split.
  - intros [Hle Hsub].
    exists (substring 0 (String.length s - String.length suffix) s).
    pose proof (substring_split s (String.length s - String.length suffix)) as H.
    replace (String.length s - (String.length s - String.length suffix))%nat
      with (String.length suffix) in H by lia.
    rewrite Hsub in H. apply H. lia.
  - intros [pre ->]. rewrite length_append. split; [lia|].
    replace (String.length pre + String.length suffix - String.length suffix)%nat
      with (String.length pre) by lia.
    apply substring_suffix.
Qed.

Example split_bearer : split " " "Bearer abc.def" = ["Bearer"; "abc.def"].
Proof. reflexivity. Qed.

Example split_no_token : split " " "Bearer" = ["Bearer"].
Proof. reflexivity. Qed.

Example split_empty_token : split " " "Bearer " = ["Bearer"; ""].
Proof. reflexivity. Qed.

(** * Follow and unfollow *)

(** C4. POST /api/users/:userId/follow by an authenticated user answers 400
    and changes nothing when the target is the user itself, answers 404 and
    changes nothing when no user has the target id, and otherwise toggles the
    follows row (user, target): absent, the row is inserted and the answer is
    [{following: true}]; present, it is deleted and the answer is
    [{following: false}]. *)
Theorem follow_user_toggle (now later : Z) (u : TokenPayload) (h : HttpRequest)
    (db : DB) :
  is_user db (tok_userId u) ->
  let me := tok_userId u in
  let target := param h in
  let result := follow_user now later (authenticated u h) db in
  (target = me -> result = (json 400 (Failure "Cannot follow yourself"), db))
  /\ (target <> me -> ~ is_user db target ->
      result = (json 404 (Failure "User not found"), db))
  /\ (target <> me -> is_user db target -> ~ following db me target ->
      fst result = json 200 (Success (DFollowing true))
      /\ rows (follows (snd result))
         = rows (follows db) ++ [Follows.mk (next_id (follows db)) me target now])
  /\ (target <> me -> is_user db target -> following db me target ->
      fst result = json 200 (Success (DFollowing false))
      /\ rows (follows (snd result))
         = filter (fun f => negb (follows_match me target f)) (rows (follows db))
      /\ ~ following (snd result) me target).
Proof.
  intros Hme me target result.
  unfold result, follow_user, try_catch, bind, req_userId, authenticated. simpl.
  fold me. fold target.
  apply is_user_exists in Hme. fold me in Hme.
  rewrite (is_user_exists db target), (following_exists db me target).
  destruct (target =? me) eqn:E; simpl.
  { apply Z.eqb_eq in E. repeat split; intros; try reflexivity; contradiction. }
  apply Z.eqb_neq in E.
  rewrite length_zero_existsb.
  change (existsb (fun u0 => Users.id u0 =? target) (rows (users db)))
    with (user_exists target db).
  destruct (user_exists target db) eqn:Eu; simpl.
  2:{ repeat split; intros; try reflexivity; try contradiction; discriminate. }
  rewrite length_pos_existsb.
  destruct (existsb (follows_match me target) (rows (follows db))) eqn:Ef; simpl.
  - repeat split; intros; try contradiction; try discriminate; try tauto.
    intros [f [Hin Hm]]. simpl in Hin. apply filter_In in Hin as [_ Hn].
    apply follows_match_true in Hm. rewrite Hm in Hn. discriminate.
  - unfold insert_follow. rewrite Ef, Hme, Eu. simpl.
    unfold insert_notification, user_exists in *. simpl. rewrite Hme, Eu. simpl.
    repeat split; intros; try contradiction; try discriminate; try tauto.
Qed.

(** * Like and unlike *)

(** The database a like leaves: the likes row, and the notification unless
    the owner likes a post of their own. *)
Lemma like_post_absent (now later : Z) (u : TokenPayload) (h : HttpRequest)
    (db : DB) (post : Posts.row) :
  primary_key Posts.id (posts db) ->
  references Posts.user_id (posts db) (fun i => user_exists i db) ->
  is_user db (tok_userId u) ->
  In post (rows (posts db)) -> Posts.id post = param h ->
  ~ liked db (tok_userId u) (param h) ->
  like_post now later (authenticated u h) db
  = (json 200 (Success (DLiked true)),
     let db1 := set_likes (append_row (likes db)
                             (fun i => Likes.mk i (tok_userId u) (param h) now)) db in
     if Posts.user_id post =? tok_userId u then db1
     else set_notifications
            (append_row (notifications db)
               (fun i => Notifications.mk i (Posts.user_id post) "like"
                           (tok_userId u) (Some (param h)) false later)) db1).
Proof.
  intros Hpk Hfk Hme Hin Hid Hl.
  assert (Hp : post_exists (param h) db = true).
  { apply is_post_exists. now exists post. }
  assert (Ho : user_exists (Posts.user_id post) db = true).
  { exact (references_In _ _ _ _ Hfk Hin). }
  apply is_user_exists in Hme.
  rewrite liked_exists in Hl. apply not_true_is_false in Hl.
  unfold like_post, try_catch, bind, req_userId, authenticated. simpl.
  rewrite length_pos_existsb, Hl.
  unfold insert_like. rewrite Hl, Hme, Hp. simpl.
  rewrite <- Hid. rewrite (select_by_key Posts.id _ post); auto.
  2:{ apply Hpk. }
  simpl. destruct (Posts.user_id post =? tok_userId u); simpl; [reflexivity|].
  unfold insert_notification, user_exists, post_exists in *. simpl.
  rewrite Ho, Hme. rewrite Hid, Hp. reflexivity.
Qed.

(** The database an unlike leaves. *)
Lemma like_post_present (now later : Z) (u : TokenPayload) (h : HttpRequest)
    (db : DB) :
  liked db (tok_userId u) (param h) ->
  like_post now later (authenticated u h) db
  = (json 200 (Success (DLiked false)),
     set_likes (mkTable (filter (fun l => negb (likes_match (tok_userId u) (param h) l))
                                (rows (likes db)))
                        (next_id (likes db))) db).
Proof.
  intros Hl. apply liked_exists in Hl.
  unfold like_post, try_catch, bind, req_userId, authenticated. simpl.
  now rewrite length_pos_existsb, Hl.
Qed.

Lemma not_liked_after_delete (uid pid : Z) (l : list Likes.row) :
  existsb (likes_match uid pid) (filter (fun x => negb (likes_match uid pid x)) l)
  = false.
Proof.
  apply not_true_is_false. intros H.
  apply existsb_exists in H as [x [Hin Hm]].
  apply filter_In in Hin as [_ Hn]. rewrite Hm in Hn. discriminate.
Qed.

(** C2, as the code has it.  For an authenticated user and the id of an
    existing post: when the user has no likes row for the post, the request
    inserts exactly one and answers [{liked: true}]; when the user has one,
    the request deletes it and answers [{liked: false}]. *)
Theorem like_post_toggle (now later : Z) (u : TokenPayload) (h : HttpRequest)
    (db : DB) :
  consistent db -> is_user db (tok_userId u) ->
  let me := tok_userId u in
  let postId := param h in
  let result := like_post now later (authenticated u h) db in
  (is_post db postId -> ~ liked db me postId ->
     fst result = json 200 (Success (DLiked true))
     /\ rows (likes (snd result))
        = rows (likes db) ++ [Likes.mk (next_id (likes db)) me postId now])
  /\ (liked db me postId ->
     fst result = json 200 (Success (DLiked false))
     /\ rows (likes (snd result))
        = filter (fun l => negb (likes_match me postId l)) (rows (likes db))
     /\ ~ liked (snd result) me postId).
Proof.
  intros Hc Hme me postId result. split.
  - intros [post [Hin Hid]] Hl. unfold result.
    rewrite (like_post_absent now later u h db post (posts_pk db Hc)
               (posts_user_fk db Hc) Hme Hin Hid Hl).
    simpl. destruct (Posts.user_id post =? tok_userId u); auto.
  - intros Hl. unfold result. rewrite (like_post_present now later u h db Hl).
    simpl. repeat split.
    rewrite liked_exists. simpl. unfold me, postId.
    rewrite not_liked_after_delete. discriminate.
Qed.

(** carol (who follows nobody) follows alice. *)
Lemma follow_user_toggle_witness :
  let result :=
    follow_user 400 401 (authenticated Sample.carol_token (on_param 1)) Sample.db in
  fst result = json 200 (Success (DFollowing true))
  /\ rows (follows (snd result)) = [Follows.mk 1 1 2 310; Follows.mk 2 3 1 400].
Proof.
  destruct (follow_user_toggle 400 401 Sample.carol_token (on_param 1) Sample.db)
    as [_ [_ [H _]]].
  - exists Sample.carol. simpl. auto.
  - apply H.
    + discriminate.
    + exists Sample.alice. simpl. auto.
    + rewrite following_exists. discriminate.
Defined.

(** carol likes bob's post, which she had not liked. *)
Lemma like_post_toggle_witness :
  let result :=
    like_post 400 401 (authenticated Sample.carol_token (on_param 2)) Sample.db in
  fst result = json 200 (Success (DLiked true))
  /\ rows (likes (snd result)) = [Likes.mk 1 2 1 300; Likes.mk 2 3 2 400].
Proof.
  destruct (like_post_toggle 400 401 Sample.carol_token (on_param 2) Sample.db)
    as [H _].
  - exact sample_consistent.
  - exists Sample.carol. simpl. auto.
  - apply H.
    + exists (Posts.mk 2 2 "world" 210). simpl. auto.
    + rewrite liked_exists. discriminate.
Defined.

(** C2 as stated fails for the id of no post: carol has no likes row for
    post 9, there is no post 9, and the request answers 500 and inserts
    nothing (the FOREIGN KEY on likes.post_id refuses the row). *)
Lemma like_post_unknown_post :
  let result :=
    like_post 400 401 (authenticated Sample.carol_token (on_param 9)) Sample.db in
  existsb (likes_match 3 9) (rows (likes Sample.db)) = false
  /\ post_exists 9 Sample.db = false
  /\ fst result = json 500 (Failure "Internal server error")
  /\ rows (likes (snd result)) = rows (likes Sample.db).
Proof. repeat split. Qed.

(** C7, as the code has it.  Two successive like requests by the same user
    on an existing post leave the relation the likes table holds (who likes
    what) as it was.  When the user did not like the post, the rows of the
    table are the rows before the first request.  When the user did, the
    row of the pair is gone and a new row for the pair, with the next id and
    the time of the second request, is at the end of the table. *)
Theorem like_post_twice (t1 t2 t3 t4 : Z) (u : TokenPayload) (h : HttpRequest)
    (db : DB) :
  consistent db -> is_user db (tok_userId u) -> is_post db (param h) ->
  let me := tok_userId u in
  let postId := param h in
  let db1 := snd (like_post t1 t2 (authenticated u h) db) in
  let db2 := snd (like_post t3 t4 (authenticated u h) db1) in
  (forall uid pid, liked db2 uid pid <-> liked db uid pid)
  /\ (~ liked db me postId -> rows (likes db2) = rows (likes db))
  /\ (liked db me postId ->
      rows (likes db2)
      = filter (fun l => negb (likes_match me postId l)) (rows (likes db))
        ++ [Likes.mk (next_id (likes db)) me postId t3]).
Proof.
  intros Hc Hme [post [Hin Hid]] me postId db1 db2.
  assert (Hno : ~ liked db me postId -> rows (likes db2) = rows (likes db)).
  { intros Hl. unfold db2, db1.
    rewrite (like_post_absent t1 t2 u h db post (posts_pk db Hc)
               (posts_user_fk db Hc) Hme Hin Hid Hl).
    cbv zeta. unfold snd at 2.
    rewrite like_post_present.
    - rewrite liked_exists in Hl. apply not_true_is_false in Hl.
      destruct (Posts.user_id post =? tok_userId u); simpl;
        rewrite filter_app; simpl; unfold likes_match at 2; simpl;
        rewrite !Z.eqb_refl; simpl; rewrite app_nil_r;
        now apply filter_negb_absent.
    - exists (Likes.mk (next_id (likes db)) me postId t1).
      destruct (Posts.user_id post =? tok_userId u); simpl;
        (split; [apply in_or_app; right; left; reflexivity | auto]). }
  assert (Hyes : liked db me postId ->
                 rows (likes db2)
                 = filter (fun l => negb (likes_match me postId l)) (rows (likes db))
                   ++ [Likes.mk (next_id (likes db)) me postId t3]).
  { intros Hl. unfold db2, db1.
    rewrite (like_post_present t1 t2 u h db Hl). unfold snd at 2.
    rewrite (like_post_absent t3 t4 u h _ post).
    - simpl. destruct (Posts.user_id post =? tok_userId u); reflexivity.
    - exact (posts_pk db Hc).
    - exact (posts_user_fk db Hc).
    - exact Hme.
    - exact Hin.
    - exact Hid.
    - rewrite liked_exists. simpl. rewrite not_liked_after_delete. discriminate. }
  split; [|split; assumption].
  intros uid pid.
  destruct (existsb (likes_match me postId) (rows (likes db))) eqn:E.
  - apply liked_exists in E. unfold liked. rewrite (Hyes E). split.
    + intros [l [Hl [Hu Hp]]]. apply in_app_or in Hl as [Hl|[<-|[]]].
      * apply filter_In in Hl as [Hl _]. now exists l.
      * simpl in Hu, Hp. subst uid pid. exact E.
    + intros [l [Hl [Hu Hp]]].
      destruct (likes_match me postId l) eqn:Em.
      * apply likes_match_true in Em as [Em1 Em2].
        exists (Likes.mk (next_id (likes db)) me postId t3). simpl.
        split; [apply in_or_app; right; left; reflexivity | split; congruence].
      * exists l. split; [|auto]. apply in_or_app. left.
        apply filter_In. split; [assumption | now rewrite Em].
  - assert (Hl : ~ liked db me postId).
    { rewrite liked_exists, E. discriminate. }
    unfold liked. now rewrite (Hno Hl).
Qed.

(** bob, who likes alice's post, sends the request twice. *)
Lemma like_post_twice_witness :
  let req := authenticated Sample.bob_token (on_param 1) in
  let db1 := snd (like_post 400 401 req Sample.db) in
  let db2 := snd (like_post 500 501 req db1) in
  (forall uid pid, liked db2 uid pid <-> liked Sample.db uid pid)
  /\ rows (likes db2) = [Likes.mk 2 2 1 500].
Proof.
  destruct (like_post_twice 400 401 500 501 Sample.bob_token (on_param 1) Sample.db)
    as [H1 [_ H3]].
  - exact sample_consistent.
  - exists Sample.bob. simpl. auto.
  - exists (Posts.mk 1 1 "hello" 200). simpl. auto.
  - split; [exact H1|]. apply H3. rewrite liked_exists. reflexivity.
Defined.

(** C7 as stated fails when the user already likes the post: the table held
    the row with id 1 and holds, after the two requests, a row with id 2. *)
Lemma like_post_twice_new_row :
  let req := authenticated Sample.bob_token (on_param 1) in
  let db1 := snd (like_post 400 401 req Sample.db) in
  let db2 := snd (like_post 500 501 req db1) in
  rows (likes Sample.db) = [Likes.mk 1 2 1 300]
  /\ rows (likes db2) = [Likes.mk 2 2 1 500]
  /\ rows (likes db2) <> rows (likes Sample.db).
Proof. repeat split. discriminate. Qed.

(** * Notifications written by likes, comments and follows *)

(** The database a comment leaves: the comments row, and the notification
    unless the owner comments on a post of their own. *)
Lemma add_comment_run (now later : Z) (u : TokenPayload) (h : HttpRequest)
    (db : DB) (post : Posts.row) (text : string) :
  consistent db -> is_user db (tok_userId u) ->
  In post (rows (posts db)) -> Posts.id post = param h ->
  body_content h = Some text -> text <> "" -> strlen text <= 65535 ->
  let result := add_comment now later (authenticated u h) db in
  status (fst result) = 201
  /\ snd result
     = let db1 := set_comments
                    (append_row (comments db)
                       (fun i => Comments.mk i (tok_userId u) (param h) text now))
                    db in
       if Posts.user_id post =? tok_userId u then db1
       else set_notifications
              (append_row (notifications db)
                 (fun i => Notifications.mk i (Posts.user_id post) "comment"
                             (tok_userId u) (Some (param h)) false later)) db1.
Proof.
  intros Hc Hme Hin Hid Hbody Htext Hlen.
  assert (Hp : post_exists (param h) db = true).
  { apply is_post_exists. now exists post. }
  assert (Ho : user_exists (Posts.user_id post) db = true).
  { exact (references_In _ _ _ _ (posts_user_fk db Hc) Hin). }
  apply is_user_exists in Hme.
  apply String.eqb_neq in Htext. apply Z.ltb_ge in Hlen.
  unfold add_comment, try_catch, bind, req_userId, authenticated. simpl.
  rewrite Hbody. simpl. rewrite Htext. simpl.
  unfold insert_comment. rewrite Hlen, Hme, Hp. simpl.
  rewrite <- Hid. rewrite (select_by_key Posts.id _ post); auto.
  2:{ apply (posts_pk db Hc). }
  simpl. destruct (Posts.user_id post =? tok_userId u); simpl; [auto|].
  unfold insert_notification, user_exists, post_exists in *. simpl.
  rewrite Ho, Hme. rewrite Hid, Hp. auto.
Qed.

(** C3, as the code has it.  A like and a comment write a notification of
    type 'like' and 'comment' for the owner of the post, from the acting user
    and about the post, when the owner is another user, and write none when
    the acting user owns the post; a follow writes a notification of type
    'follow' for the followed user, from the acting user and about no post. *)
Theorem notifications_written (now later : Z) (u : TokenPayload) (h : HttpRequest)
    (db : DB) :
  consistent db -> is_user db (tok_userId u) ->
  let me := tok_userId u in
  let target := param h in
  let req := authenticated u h in
  (forall post,
      In post (rows (posts db)) -> Posts.id post = target ->
      ~ liked db me target ->
      let result := like_post now later req db in
      fst result = json 200 (Success (DLiked true))
      /\ (Posts.user_id post <> me ->
          notification_added db (snd result) later (Posts.user_id post) "like" me
                             (Some target))
      /\ (Posts.user_id post = me ->
          rows (notifications (snd result)) = rows (notifications db)))
  /\ (forall post text,
      In post (rows (posts db)) -> Posts.id post = target ->
      body_content h = Some text -> text <> "" -> strlen text <= 65535 ->
      let result := add_comment now later req db in
      status (fst result) = 201
      /\ (Posts.user_id post <> me ->
          notification_added db (snd result) later (Posts.user_id post) "comment"
                             me (Some target))
      /\ (Posts.user_id post = me ->
          rows (notifications (snd result)) = rows (notifications db)))
  /\ (target <> me -> is_user db target -> ~ following db me target ->
      let result := follow_user now later req db in
      fst result = json 200 (Success (DFollowing true))
      /\ notification_added db (snd result) later target "follow" me None).
Proof.
  intros Hc Hme me target req. subst req. unfold notification_added.
  split; [|split].
  - intros post Hin Hid Hl.
    rewrite (like_post_absent now later u h db post (posts_pk db Hc)
               (posts_user_fk db Hc) Hme Hin Hid Hl).
    simpl. fold me. split; [reflexivity|split].
    + intros Ho. apply Z.eqb_neq in Ho. now rewrite Ho.
    + intros Ho. apply Z.eqb_eq in Ho. now rewrite Ho.
  - intros post text Hin Hid Hbody Htext Hlen.
    destruct (add_comment_run now later u h db post text Hc Hme Hin Hid Hbody
                Htext Hlen) as [Hst ->].
    simpl. fold me. split; [assumption|split].
    + intros Ho. apply Z.eqb_neq in Ho. now rewrite Ho.
    + intros Ho. apply Z.eqb_eq in Ho. now rewrite Ho.
  - intros Hne Htarget Hf.
    apply Z.eqb_neq in Hne. apply is_user_exists in Htarget, Hme.
    rewrite following_exists in Hf. apply not_true_is_false in Hf.
    unfold follow_user, try_catch, bind, req_userId, authenticated. simpl.
    fold me. fold target. fold me in Hme. rewrite Hne. simpl.
    rewrite length_zero_existsb.
    change (existsb (fun u0 => Users.id u0 =? target) (rows (users db)))
      with (user_exists target db).
    rewrite Htarget. simpl. rewrite length_pos_existsb, Hf.
    unfold insert_follow. rewrite Hf, Hme, Htarget. simpl.
    unfold insert_notification, user_exists in *. simpl. rewrite Hme, Htarget.
    split; reflexivity.
Qed.

(** carol likes alice's post: alice is notified. *)
Lemma notifications_written_witness :
  let result :=
    like_post 400 401 (authenticated Sample.carol_token (on_param 1)) Sample.db in
  fst result = json 200 (Success (DLiked true))
  /\ rows (notifications (snd result))
     = rows (notifications Sample.db)
       ++ [Notifications.mk 3 1 "like" 3 (Some 1) false 401].
Proof.
  destruct (notifications_written 400 401 Sample.carol_token (on_param 1) Sample.db)
    as [H _].
  - exact sample_consistent.
  - exists Sample.carol. simpl. auto.
  - destruct (H (Posts.mk 1 1 "hello" 200)) as [H1 [H2 _]].
    + simpl. auto.
    + reflexivity.
    + rewrite liked_exists. discriminate.
    + split; [exact H1|]. apply H2. discriminate.
Defined.

(** C3 as stated fails for a like of one's own post: alice likes her post,
    the like is stored, and no notification is written. *)
Lemma like_own_post_not_notified :
  let result :=
    like_post 400 401 (authenticated Sample.alice_token (on_param 1)) Sample.db in
  fst result = json 200 (Success (DLiked true))
  /\ rows (likes (snd result)) = [Likes.mk 1 2 1 300; Likes.mk 2 1 1 400]
  /\ notifications (snd result) = notifications Sample.db.
Proof. repeat split. Qed.

(** * Marking a notification as read *)

Lemma update_by_key {R : Type} (id : R -> Z) (f : R -> R) (l : list R) (r : R) :
  NoDup (map id l) -> In r l ->
  exists before after,
    l = before ++ r :: after
    /\ map (fun x => if id x =? id r then f x else x) l = before ++ f r :: after.
Proof.
  intros Hnd Hin. destruct (in_split _ _ Hin) as [before [after ->]].
  exists before, after. split; [reflexivity|].
  rewrite map_app in Hnd. simpl in Hnd.
  assert (Hr : ~ In (id r) (map id before ++ map id after)).
  { now apply NoDup_remove_2. }
  assert (Hsame : forall part, (forall x, In x part -> id x <> id r) ->
                  map (fun x => if id x =? id r then f x else x) part = part).
  { induction part as [|x part IH]; simpl; [reflexivity|]. intros Hall.
    destruct (id x =? id r) eqn:E.
    - apply Z.eqb_eq in E. elim (Hall x); auto.
    - rewrite IH; auto. }
  rewrite map_app. simpl. rewrite Z.eqb_refl.
  rewrite !Hsame; [reflexivity| |].
  - intros x Hx E. apply Hr. apply in_or_app. right. rewrite <- E. now apply in_map.
  - intros x Hx E. apply Hr. apply in_or_app. left. rewrite <- E. now apply in_map.
Qed.

(** C10. PATCH /api/notifications/:notificationId/read answers 404 and
    changes nothing when no notification with that id belongs to the user;
    otherwise it sets is_read on that one notification and leaves its other
    columns, the other notifications and the other tables as they were. *)
Theorem mark_notification_read_effect (u : TokenPayload) (h : HttpRequest)
    (db : DB) :
  primary_key Notifications.id (notifications db) ->
  let me := tok_userId u in
  let nid := param h in
  let result := mark_notification_read (authenticated u h) db in
  ((forall n, In n (rows (notifications db)) ->
              ~ (Notifications.id n = nid /\ Notifications.user_id n = me)) ->
   result = (json 404 (Failure "Notification not found"), db))
  /\ (forall n, In n (rows (notifications db)) ->
                Notifications.id n = nid -> Notifications.user_id n = me ->
      exists before after,
        rows (notifications db) = before ++ n :: after
        /\ fst result
           = mkResponse 200 (SuccessMessage "Notification marked as read" None)
        /\ rows (notifications (snd result))
           = before
             ++ Notifications.mk (Notifications.id n) (Notifications.user_id n)
                  (Notifications.type n) (Notifications.source_user_id n)
                  (Notifications.post_id n) true (Notifications.created_at n)
             :: after
        /\ next_id (notifications (snd result)) = next_id (notifications db)
        /\ users (snd result) = users db
        /\ posts (snd result) = posts db
        /\ comments (snd result) = comments db
        /\ likes (snd result) = likes db
        /\ follows (snd result) = follows db).
Proof.
  intros [Hnd _] me nid result.
  unfold result, mark_notification_read, try_catch, bind, req_userId,
    authenticated.
  simpl. fold me. fold nid. rewrite length_zero_existsb. split.
  - intros Hnone.
    destruct (existsb _ (rows (notifications db))) eqn:E; [|reflexivity].
    apply existsb_exists in E as [n [Hin Hm]]. apply andb_true_iff in Hm.
    elim (Hnone n Hin). lia.
  - intros n Hin Hid Hown.
    destruct (update_by_key Notifications.id Notifications.mark_read _ n Hnd Hin)
      as [before [after [Hrows Hmap]]].
    exists before, after. split; [assumption|].
    assert (E : existsb (fun n0 => (Notifications.id n0 =? nid)
                                   && (Notifications.user_id n0 =? me))
                        (rows (notifications db)) = true).
    { apply existsb_exists. exists n. split; [assumption|].
      apply andb_true_iff. lia. }
    rewrite E. simpl. rewrite <- Hid, Hmap. repeat split.
Qed.

(** alice marks her notification 1 as read. *)
Lemma mark_notification_read_effect_witness :
  let result :=
    mark_notification_read (authenticated Sample.alice_token (on_param 1))
                           Sample.db in
  exists before after,
    rows (notifications Sample.db)
    = before ++ Notifications.mk 1 1 "like" 2 (Some 1) false 300 :: after
    /\ fst result
       = mkResponse 200 (SuccessMessage "Notification marked as read" None)
    /\ rows (notifications (snd result))
       = before ++ Notifications.mk 1 1 "like" 2 (Some 1) true 300 :: after.
Proof.
  destruct (mark_notification_read_effect Sample.alice_token (on_param 1)
              Sample.db (notifications_pk _ sample_consistent)) as [_ H].
  destruct (H (Notifications.mk 1 1 "like" 2 (Some 1) false 300))
    as [before [after [H1 [H2 [H3 _]]]]].
  - simpl. auto.
  - reflexivity.
  - reflexivity.
  - exists before, after. auto.
Defined.

(** * Joins and ordered results *)

Section OrderBy.

Context {A : Type}.
Variable leb : A -> A -> bool.

Lemma insert_by_perm (x : A) (l : list A) : Permutation (insert_by leb x l) (x :: l).
Proof.
  induction l as [|y t IH]; simpl; [reflexivity|].
  destruct (leb x y); [reflexivity|].
  rewrite IH. apply perm_swap.
Qed.

Lemma order_by_perm (l : list A) : Permutation (order_by leb l) l.
Proof.
  induction l as [|x l IH]; simpl; [reflexivity|].
  rewrite insert_by_perm. now constructor.
Qed.

Hypothesis leb_total : forall a b, leb a b = false -> leb b a = true.
Hypothesis leb_trans : forall a b c, leb a b = true -> leb b c = true -> leb a c = true.

Lemma insert_by_sorted (x : A) (l : list A) :
  StronglySorted (fun a b => leb a b = true) l ->
  StronglySorted (fun a b => leb a b = true) (insert_by leb x l).
Proof.
  induction 1 as [|y t Hs IH Hy]; simpl.
  - repeat constructor.
  - destruct (leb x y) eqn:E.
    + constructor; [now constructor|].
      constructor; [assumption|].
      rewrite Forall_forall in *. eauto.
    + apply leb_total in E. constructor; [assumption|].
      rewrite Forall_forall in *. intros z Hz.
      apply (Permutation_in _ (insert_by_perm x t)) in Hz as [<-|Hz]; auto.
Qed.

Lemma order_by_sorted (l : list A) :
  StronglySorted (fun a b => leb a b = true) (order_by leb l).
Proof.
  induction l as [|x l IH]; simpl; [constructor | now apply insert_by_sorted].
Qed.

End OrderBy.

Lemma StronglySorted_map {A B : Type} (R : B -> B -> Prop) (f : A -> B) (l : list A) :
  StronglySorted (fun a b => R (f a) (f b)) l -> StronglySorted R (map f l).
Proof.
  induction 1 as [|x l Hs IH Hx]; simpl; constructor; auto.
  rewrite Forall_forall in *. intros y Hy.
  apply in_map_iff in Hy as [z [<- Hz]]. auto.
Qed.

Lemma StronglySorted_weaken {A : Type} (R S : A -> A -> Prop) (l : list A) :
  (forall a b, R a b -> S a b) -> StronglySorted R l -> StronglySorted S l.
Proof.
  intros HRS. induction 1 as [|x l Hs IH Hx]; constructor; auto.
  rewrite Forall_forall in *. auto.
Qed.

(** ORDER BY key DESC gives the rows by decreasing key. *)
Lemma order_by_desc_sorted {A : Type} (key : A -> Z) (l : list A) :
  StronglySorted (fun a b => key a >= key b) (order_by (desc key) l).
Proof.
  apply (StronglySorted_weaken (fun a b => desc key a b = true));
    [|apply (order_by_sorted (desc key))]; unfold desc.
  - intros a b H. apply Z.leb_le in H. lia.
  - intros a b H. apply Z.leb_gt in H. apply Z.leb_le. lia.
  - intros a b c H1 H2. apply Z.leb_le in H1, H2. apply Z.leb_le. lia.
Qed.

Lemma in_inner_join {A B : Type} (on : A -> B -> bool) (l : list A) (r : list B)
    (a : A) (b : B) :
  In (a, b) (inner_join on l r) <-> In a l /\ In b r /\ on a b = true.
Proof.
  unfold inner_join. rewrite in_flat_map. split.
  - intros [x [Hx Hin]]. apply in_map_iff in Hin as [y [Heq Hy]].
    inversion Heq; subst. apply filter_In in Hy. tauto.
  - intros [Ha [Hb Hon]]. exists a. split; [assumption|].
    apply in_map_iff. exists b. split; [reflexivity|].
    apply filter_In. tauto.
Qed.

Lemma NoDup_map_filter {A B : Type} (f : A -> B) (g : A -> bool) (l : list A) :
  NoDup (map f l) -> NoDup (map f (filter g l)).
Proof.
  induction l as [|x l IH]; simpl; [auto|].
  intros H. inversion H as [|? ? Hx Hl]; subst.
  destruct (g x); simpl; [|auto].
  constructor; [|auto].
  intros Hin. apply Hx. apply in_map_iff in Hin as [y [Hy Hin]].
  apply filter_In in Hin as [Hin _]. rewrite <- Hy. now apply in_map.
Qed.

(** At most one row has a given primary key. *)
Lemma filter_key_once {R : Type} (id : R -> Z) (l : list R) (k : Z) :
  NoDup (map id l) ->
  filter (fun x => k =? id x) l = []
  \/ exists r, filter (fun x => k =? id x) l = [r].
Proof.
  intros Hnd.
  destruct (existsb (fun x => k =? id x) l) eqn:E.
  - right. apply existsb_exists in E as [r [Hin Hk]]. apply Z.eqb_eq in Hk.
    exists r. rewrite <- (select_by_key id l r Hnd Hin).
    apply filter_ext. intros x. rewrite Hk. apply Z.eqb_sym.
  - left. now apply filter_nil_existsb.
Qed.

(** Joining a child table to its parent on the parent's primary key keeps
    each child row at most once. *)
Lemma inner_join_key {C P : Type} (cid fk : C -> Z) (pid : P -> Z)
    (children : list C) (parents : list P) :
  NoDup (map pid parents) -> NoDup (map cid children) ->
  NoDup (map (fun cp => cid (fst cp))
             (inner_join (fun c p => fk c =? pid p) children parents)).
Proof.
  intros Hp. unfold inner_join.
  induction children as [|c cs IH]; simpl; [constructor|].
  intros Hc. inversion Hc as [|? ? Hx Hl]; subst.
  rewrite map_app, map_map. simpl.
  destruct (filter_key_once pid parents (fk c) Hp) as [->|[r ->]]; simpl; [auto|].
  constructor; [|auto].
  intros Hin. apply Hx. apply in_map_iff in Hin as [[c' p'] [Heq Hin]].
  simpl in Heq. rewrite <- Heq.
  apply in_flat_map in Hin as [c'' [Hc'' Hin]].
  apply in_map_iff in Hin as [p'' [Hpair _]]. inversion Hpair; subst.
  now apply in_map.
Qed.

Lemma in_feed_true (db : DB) (uid : Z) (p : Posts.row) :
  in_feed db uid p = true
  <-> Posts.user_id p = uid \/ following db uid (Posts.user_id p).
Proof.
  unfold in_feed, following. rewrite orb_true_iff, existsb_exists. split.
  - intros [[x [Hin Hx]]|H]; [right|left; lia].
    apply in_map_iff in Hin as [f [Hf Hin]]. apply filter_In in Hin as [Hin Hm].
    exists f. repeat split; [assumption|lia|lia].
  - intros [H|[f [Hin [Hf1 Hf2]]]]; [right; lia|left].
    exists (Follows.following_id f). split; [|lia].
    apply in_map. apply filter_In. split; [assumption|lia].
Qed.

(** * The feed *)

(** C1. GET /api/feed answers an authenticated user with the posts whose
    author is the user or somebody the user follows, each with the username
    and email of its author: every such post is there, once, nothing else
    is, and the posts come by decreasing created_at. *)
Theorem feed_contents (u : TokenPayload) (h : HttpRequest) (db : DB) :
  consistent db ->
  let me := tok_userId u in
  exists items,
    get_feed (authenticated u h) db = (json 200 (Success (DFeed items)), db)
    /\ (forall item,
          In item items <->
          exists post author,
            In post (rows (posts db)) /\ In author (rows (users db))
            /\ Users.id author = Posts.user_id post
            /\ (Posts.user_id post = me \/ following db me (Posts.user_id post))
            /\ item = mkFeedItem post (Users.username author) (Users.email author))
    /\ (forall post,
          In post (rows (posts db)) ->
          Posts.user_id post = me \/ following db me (Posts.user_id post) ->
          In post (map fi_post items))
    /\ NoDup (map (fun item => Posts.id (fi_post item)) items)
    /\ StronglySorted
         (fun a b => Posts.created_at (fi_post a) >= Posts.created_at (fi_post b))
         items.
Proof.
  intros Hc me.
  set (joined := filter (fun pu => in_feed db me (fst pu)) (posts_with_author db)).
  set (sorted := order_by (desc (fun pu : Posts.row * Users.row =>
                                   Posts.created_at (fst pu))) joined).
  assert (Hperm : Permutation sorted joined) by apply order_by_perm.
  assert (Hin : forall post author,
             In (post, author) sorted <->
             In post (rows (posts db)) /\ In author (rows (users db))
             /\ Users.id author = Posts.user_id post
             /\ (Posts.user_id post = me \/ following db me (Posts.user_id post))).
  { intros post author. split.
    - intros H. apply (Permutation_in _ Hperm) in H.
      apply filter_In in H as [H Hf]. apply in_inner_join in H as [Hp [Ha Hon]].
      apply in_feed_true in Hf. simpl in Hf. repeat split; auto. lia.
    - intros [Hp [Ha [Hid Hf]]].
      apply (Permutation_in _ (Permutation_sym Hperm)).
      apply filter_In. split.
      + apply in_inner_join. repeat split; auto. lia.
      + now apply in_feed_true. }
  assert (Hitems : forall item,
             In item (map feed_item sorted) <->
             exists post author,
               In post (rows (posts db)) /\ In author (rows (users db))
               /\ Users.id author = Posts.user_id post
               /\ (Posts.user_id post = me \/ following db me (Posts.user_id post))
               /\ item = mkFeedItem post (Users.username author)
                                    (Users.email author)).
  { intros item. rewrite in_map_iff. split.
    - intros [[post author] [<- H]]. apply Hin in H.
      exists post, author. unfold feed_item. simpl. tauto.
    - intros [post [author [Hp [Ha [Hid [Hf ->]]]]]].
      exists (post, author). split; [reflexivity|]. apply Hin. tauto. }
  exists (map feed_item sorted). split; [reflexivity|].
  split; [exact Hitems|]. split; [|split].
  - intros post Hp Hf.
    pose proof (references_In _ _ _ _ (posts_user_fk db Hc) Hp) as Hu.
    apply is_user_exists in Hu as [author [Ha Hid]].
    apply in_map_iff.
    exists (mkFeedItem post (Users.username author) (Users.email author)).
    split; [reflexivity|]. apply Hitems. exists post, author. tauto.
  - rewrite map_map.
    apply (Permutation_NoDup
             (Permutation_sym
                (Permutation_map (fun pu : Posts.row * Users.row => Posts.id (fst pu))
                                 Hperm))).
    unfold joined. apply NoDup_map_filter. unfold posts_with_author.
    apply (inner_join_key Posts.id Posts.user_id Users.id).
    + apply (users_pk db Hc).
    + apply (posts_pk db Hc).
  - apply StronglySorted_map.
    apply (order_by_desc_sorted
             (fun pu : Posts.row * Users.row => Posts.created_at (fst pu))).
Qed.

(** alice's feed: bob's post, then her own. *)
Lemma feed_contents_witness :
  exists items,
    get_feed (authenticated Sample.alice_token (on_param 0)) Sample.db
    = (json 200 (Success (DFeed items)), Sample.db)
    /\ map (fun item => Posts.id (fi_post item)) items = [2; 1].
Proof.
  destruct (feed_contents Sample.alice_token (on_param 0) Sample.db
              sample_consistent) as [items [H _]].
  exists items. split; [exact H|].
  inversion H. reflexivity.
Defined.

(** * Registration, login and the admin route *)

Section Authentication.

Variable collation : string -> string.
Variable bcrypt_hash : string -> Z -> string -> string.
Variable bcrypt_compare : string -> string -> bool.
Variable jwt_sign : TokenPayload -> string -> Z -> Z -> string.
Variable jwt_verify : string -> string -> Z -> option TokenPayload.
Variable JWT_SECRET : string.

(** The server of this section: the handlers with the libraries above. *)
Local Abbreviation Login :=
  (login collation bcrypt_compare jwt_sign JWT_SECRET).
Local Abbreviation Register :=
  (register collation bcrypt_hash jwt_sign JWT_SECRET).
Local Abbreviation AuthenticateToken := (authenticateToken jwt_verify JWT_SECRET).
Local Abbreviation Middlewares := (middlewares jwt_verify JWT_SECRET).
Local Abbreviation App :=
  (app collation bcrypt_hash bcrypt_compare jwt_sign jwt_verify JWT_SECRET).



(** ** The token middleware *)

Lemma bearer_unique (h : HttpRequest) (t1 t2 : string) :
  bearer h t1 -> bearer h t2 -> t1 = t2.
Proof. intros [h1 [H1 [N1 _]]] [h2 [H2 [N2 _]]]. congruence. Qed.

Lemma bearer_or_not (h : HttpRequest) :
  (exists tok, bearer h tok) \/ (forall tok, ~ bearer h tok).
Proof.
  unfold bearer. destruct (authorization h) as [header|].
  - destruct (nth_error (split " " header) 1) as [tok|] eqn:E.
    + destruct (String.eqb_spec tok "") as [->|Hne].
      * right. intros tok [header' [H1 [H2 H3]]]. congruence.
      * left. exists tok, header. auto.
    + right. intros tok [header' [H1 [H2 H3]]]. congruence.
  - right. intros tok [header' [H1 _]]. discriminate.
Qed.

(** With a bearer token the middleware hands the request on exactly when the
    token verifies, and then with the token's payload as [req.user]. *)
Lemma authenticate_bearer (now : Z) (req : Request) (tok : string) :
  bearer (http req) tok ->
  AuthenticateToken now req
  = match jwt_verify tok JWT_SECRET now with
    | Some u => Next (mkRequest (http req) (Some u))
    | None => Respond (json 403 (Failure "Invalid token"))
    end.
Proof.
  intros [header [Hh [Hn Hne]]]. unfold authenticateToken. rewrite Hh.
  assert (Hheader : truthy (Some header) = true).
  { simpl. destruct (String.eqb_spec header "") as [->|]; [discriminate|reflexivity]. }
  rewrite Hheader, Hn. simpl.
  apply String.eqb_neq in Hne. now rewrite Hne.
Qed.

Lemma authenticate_no_bearer (now : Z) (req : Request) :
  (forall tok, ~ bearer (http req) tok) ->
  AuthenticateToken now req = Respond (json 401 (Failure "Access token required")).
Proof.
  intros Hno. unfold authenticateToken.
  destruct (authorization (http req)) as [header|] eqn:Hh; [|reflexivity].
  destruct (truthy (Some header)) eqn:Hheader.
  - destruct (nth_error (split " " header) 1) as [tok|] eqn:Hn; [|reflexivity].
    simpl. destruct (String.eqb_spec tok "") as [->|Hne]; [reflexivity|].
    elim (Hno tok). exists header. auto.
  - rewrite Hheader. reflexivity.
Qed.

(** The theorems on likes, follows, comments, the feed and notifications
    are stated on the handler run on [authenticated u h].  That is the route
    itself on a request whose bearer token verifies for [u]; any other
    request is answered 401 or 403 by the middleware and changes nothing. *)
Lemma app_authenticated (e : Env) (r : Route) (h : HttpRequest) (db : DB)
    (tok : string) (u : TokenPayload) :
  behind_token r = true ->
  bearer h tok -> jwt_verify tok JWT_SECRET (t_auth e) = Some u ->
  App e r h db
  = handler collation
      bcrypt_hash bcrypt_compare jwt_sign JWT_SECRET e r (authenticated u h) db.
Proof.
  intros Hr Hb Hv. unfold app.
  destruct r; try discriminate; simpl;
    now rewrite (authenticate_bearer (t_auth e) (incoming h) tok Hb), Hv.
Qed.

Lemma app_rejected (e : Env) (r : Route) (h : HttpRequest) (db : DB) :
  behind_token r = true ->
  (forall tok, bearer h tok -> jwt_verify tok JWT_SECRET (t_auth e) = None) ->
  snd (App e r h db) = db
  /\ (fst (App e r h db) = json 401 (Failure "Access token required")
      \/ fst (App e r h db) = json 403 (Failure "Invalid token")).
Proof.
  intros Hr Hno. unfold app.
  destruct (bearer_or_not h) as [[tok Hb]|Hnone].
  - destruct r; try discriminate; simpl;
      rewrite (authenticate_bearer (t_auth e) (incoming h) tok Hb), (Hno tok Hb);
      auto.
  - destruct r; try discriminate; simpl;
      rewrite (authenticate_no_bearer (t_auth e) (incoming h) Hnone); auto.
Qed.

(** ** Registration and the admin route *)

(** What a registration does, by cases on the request. *)
Lemma register_run (now later : Z) (salt : string) (req : Request) (db : DB) :
  let result := Register now later salt req db in
  (status (fst result) <> 201 /\ rows (users (snd result)) = rows (users db))
  \/ (exists name mail pw,
        body_username (http req) = Some name
        /\ body_email (http req) = Some mail
        /\ body_password (http req) = Some pw
        /\ status (fst result) = 201
        /\ snd result
           = set_users (append_row (users db)
                          (fun i => Users.mk i name mail (bcrypt_hash pw 10 salt)
                                             (isAdmin_of_email mail) now)) db).
Proof.
  unfold register, try_catch, bind, bind_param, bcrypt_arg.
  destruct (body_username (http req)) as [name|]; simpl;
    [|left; split; [discriminate|reflexivity]].
  destruct (body_email (http req)) as [mail|]; simpl;
    [|left; rewrite orb_true_r; split; [discriminate|reflexivity]].
  destruct (body_password (http req)) as [pw|]; simpl;
    [|left; rewrite orb_true_r; split; [discriminate|reflexivity]].
  destruct (negb (negb (name =? "")%string) || negb (negb (mail =? "")%string)
            || negb (negb (pw =? "")%string)); simpl;
    [left; split; [discriminate|reflexivity]|].
  rewrite length_pos_existsb.
  destruct (existsb _ (rows (users db))); simpl;
    [left; split; [discriminate|reflexivity]|].
  unfold insert_user.
  destruct ((50 <? strlen name) || (100 <? strlen mail)
            || (255 <? strlen (bcrypt_hash pw 10 salt))); simpl;
    [left; split; [discriminate|reflexivity]|].
  destruct (existsb _ (rows (users db))); simpl;
    [left; split; [discriminate|reflexivity]|].
  right. exists name, mail, pw. repeat split; auto.
  all: rewrite filter_app; simpl; rewrite Z.eqb_refl;
    destruct (filter _ (rows (users db))); reflexivity.
Qed.

(** A registration goes through when the three fields are there, fit their
    columns, and neither the username nor the email is taken (as the
    collation of the columns compares them). *)
Lemma register_succeeds (now later : Z) (salt : string) (req : Request) (db : DB)
    (name mail pw : string) :
  body_username (http req) = Some name ->
  body_email (http req) = Some mail ->
  body_password (http req) = Some pw ->
  name <> "" -> mail <> "" -> pw <> "" ->
  strlen name <= 50 -> strlen mail <= 100 ->
  strlen (bcrypt_hash pw 10 salt) <= 255 ->
  (forall x, In x (rows (users db)) ->
             collation (Users.username x) <> collation name
             /\ collation (Users.email x) <> collation mail) ->
  status (fst (Register now later salt req db)) = 201.
Proof.
  intros Hn Hm Hp Hn0 Hm0 Hp0 Ln Lm Lh Hfree.
  apply String.eqb_neq in Hn0, Hm0, Hp0. apply Z.ltb_ge in Ln, Lm, Lh.
  assert (E1 : existsb (fun u => equal_under collation (Users.email u) mail)
                       (rows (users db))
               = false).
  { apply not_true_is_false. intros E.
    apply existsb_exists in E as [x [Hin Hx]]. apply equal_under_true in Hx.
    now apply (Hfree x Hin). }
  assert (E2 : existsb (fun u => equal_under collation (Users.username u) name
                                 || equal_under collation (Users.email u) mail)
                       (rows (users db)) = false).
  { apply not_true_is_false. intros E.
    apply existsb_exists in E as [x [Hin Hx]]. apply orb_true_iff in Hx.
    destruct (Hfree x Hin) as [H1 H2].
    destruct Hx as [Hx|Hx]; apply equal_under_true in Hx; auto. }
  unfold register, try_catch, bind, bind_param, bcrypt_arg.
  rewrite Hn, Hm, Hp. simpl. rewrite Hn0, Hm0, Hp0. simpl.
  rewrite length_pos_existsb, E1. simpl.
  unfold insert_user. rewrite Ln, Lm, Lh, E2. simpl.
  rewrite filter_app. simpl. rewrite Z.eqb_refl.
  destruct (filter _ (rows (users db))); reflexivity.
Qed.

Lemma isAdmin_of_email_true (mail : string) :
  isAdmin_of_email mail = true
  <-> (exists pre, mail = (pre ++ "_admin@gmail.com")%string)
      \/ mail = "admin@social.com".
Proof.
  unfold isAdmin_of_email.
  now rewrite orb_true_iff, endsWith_suffix, String.eqb_eq.
Qed.

(** What the admin route answers, by cases on the token. *)
Lemma admin_route (e : Env) (h : HttpRequest) (db : DB) :
  fst (App e GET_admin_users h db)
  = match AuthenticateToken (t_auth e) (incoming h) with
    | Respond r => r
    | Next req =>
        match user req with
        | None => json 401 (Failure "Authentication required")
        | Some u =>
            if tok_isAdmin u
            then json 200 (Success (DUsers (map user_info
                             (order_by (desc Users.created_at) (rows (users db))))))
            else json 403 (Failure "Admin access required")
        end
    end.
Proof.
  unfold app. simpl.
  destruct (authenticateToken _ _ _ _) as [r|req]; [reflexivity|].
  unfold requireAdmin. destruct (user req) as [u|]; [|reflexivity].
  destruct (tok_isAdmin u); reflexivity.
Qed.

(** C9. A registration that creates a user stores one new row, with
    is_admin true exactly when the submitted email ends with
    '_admin@gmail.com' or is 'admin@social.com' (and a registration that
    answers anything but 201 stores nothing).  GET /api/admin/users answers
    200 exactly for a request whose bearer token verifies with a true
    isAdmin claim, and answers 403 when the token verifies with a false
    one. *)
Theorem admin_flag_and_route (now later : Z) (salt : string) (req : Request)
    (e : Env) (h : HttpRequest) (db : DB) :
  let created := Register now later salt req db in
  let response := fst (App e GET_admin_users h db) in
  (status (fst created) = 201 ->
   exists stored,
     rows (users (snd created)) = rows (users db) ++ [stored]
     /\ body_email (http req) = Some (Users.email stored)
     /\ body_username (http req) = Some (Users.username stored)
     /\ (Users.is_admin stored = true
         <-> (exists pre, Users.email stored = (pre ++ "_admin@gmail.com")%string)
             \/ Users.email stored = "admin@social.com"))
  /\ (status (fst created) <> 201 ->
      rows (users (snd created)) = rows (users db))
  /\ (status response = 200
      <-> exists tok u,
            bearer h tok /\ jwt_verify tok JWT_SECRET (t_auth e) = Some u
            /\ tok_isAdmin u = true)
  /\ (forall tok u,
        bearer h tok -> jwt_verify tok JWT_SECRET (t_auth e) = Some u ->
        tok_isAdmin u = true ->
        response
        = json 200 (Success (DUsers (map user_info
                     (order_by (desc Users.created_at) (rows (users db)))))))
  /\ (forall tok u,
        bearer h tok -> jwt_verify tok JWT_SECRET (t_auth e) = Some u ->
        tok_isAdmin u = false ->
        response = json 403 (Failure "Admin access required")).
Proof.
  intros created response. split; [|split].
  - intros H201.
    destruct (register_run now later salt req db)
      as [[Hno _]|[name [mail [pw [Hn [Hm [Hp [_ Hdb]]]]]]]];
      [contradiction|].
    exists (Users.mk (next_id (users db)) name mail (bcrypt_hash pw 10 salt)
                     (isAdmin_of_email mail) now).
    unfold created. rewrite Hdb. simpl.
    repeat split; auto; apply isAdmin_of_email_true.
  - intros Hno.
    destruct (register_run now later salt req db)
      as [[_ Hdb]|[name [mail [pw [_ [_ [_ [H201 _]]]]]]]];
      [assumption|contradiction].
  - assert (Hvalid : forall tok u,
              bearer h tok -> jwt_verify tok JWT_SECRET (t_auth e) = Some u ->
              response
              = if tok_isAdmin u
                then json 200 (Success (DUsers (map user_info
                        (order_by (desc Users.created_at) (rows (users db))))))
                else json 403 (Failure "Admin access required")).
    { intros tok u Hb Hv. unfold response. rewrite admin_route.
      now rewrite (authenticate_bearer (t_auth e) (incoming h) tok Hb), Hv. }
    split; [split|split].
    + intros H200. destruct (bearer_or_not h) as [[tok Hb]|Hnone].
      * destruct (jwt_verify tok JWT_SECRET (t_auth e)) as [u|] eqn:Hv.
        -- exists tok, u. repeat split; auto.
           rewrite (Hvalid tok u Hb Hv) in H200.
           destruct (tok_isAdmin u); [reflexivity|discriminate].
        -- unfold response in H200. rewrite admin_route in H200.
           rewrite (authenticate_bearer (t_auth e) (incoming h) tok Hb), Hv in H200.
           discriminate.
      * unfold response in H200. rewrite admin_route in H200.
        rewrite (authenticate_no_bearer (t_auth e) (incoming h) Hnone) in H200.
        discriminate.
    + intros [tok [u [Hb [Hv Ha]]]]. now rewrite (Hvalid tok u Hb Hv), Ha.
    + intros tok u Hb Hv Ha. now rewrite (Hvalid tok u Hb Hv), Ha.
    + intros tok u Hb Hv Ha. now rewrite (Hvalid tok u Hb Hv), Ha.
Qed.

(** ** The profile route *)

(** C8. GET /api/users/:userId is registered with no middleware, so the
    handler runs with no [req.user]: it reads only, and the profile it
    answers with has isFollowing false for every request, also one whose
    bearer token verifies for a user who follows the profile. *)
Theorem profile_never_following (e : Env) (h : HttpRequest) (db : DB) :
  let response := fst (App e GET_users h db) in
  Middlewares e GET_users = []
  /\ snd (App e GET_users h db) = db
  /\ (~ is_user db (param h) -> response = json 404 (Failure "User not found"))
  /\ (is_user db (param h) ->
      exists profile,
        response = json 200 (Success (DProfile profile))
        /\ isFollowing profile = false)
  /\ (forall tok follower,
        bearer h tok -> jwt_verify tok JWT_SECRET (t_auth e) = Some follower ->
        following db (tok_userId follower) (param h) -> is_user db (param h) ->
        exists profile,
          response = json 200 (Success (DProfile profile))
          /\ isFollowing profile = false).
Proof.
  intros response.
  assert (Hrun : (~ is_user db (param h) ->
                  response = json 404 (Failure "User not found"))
                 /\ (is_user db (param h) ->
                     exists profile,
                       response = json 200 (Success (DProfile profile))
                       /\ isFollowing profile = false)).
  { unfold response, app. simpl. unfold get_user, try_catch, bind. simpl.
    rewrite (is_user_exists db (param h)). unfold user_exists.
    destruct (filter (fun u => Users.id u =? param h) (rows (users db)))
      as [|found rest] eqn:E; simpl.
    - apply filter_nil_existsb in E. rewrite E. split; [reflexivity|discriminate].
    - split; [|intros _; eexists; split; reflexivity].
      intros Hno. elim Hno. apply existsb_exists. exists found.
      assert (Hin : In found (filter (fun u => Users.id u =? param h)
                                     (rows (users db)))).
      { rewrite E. now left. }
      now apply filter_In in Hin. }
  split; [reflexivity|]. split.
  { unfold app. simpl. unfold get_user, try_catch, bind. simpl.
    destruct (filter _ (rows (users db))); reflexivity. }
  destruct Hrun as [H404 H200]. split; [assumption|]. split; [assumption|].
  intros tok follower _ _ _. exact H200.
Qed.

(** Behind [authenticateToken] the same handler does report a follower:
    the branch on [req.user] is live, the route just never reaches it. *)
Lemma profile_behind_authentication (now : Z) (h : HttpRequest) (db : DB)
    (tok : string) (follower : TokenPayload) :
  bearer h tok -> jwt_verify tok JWT_SECRET now = Some follower ->
  following db (tok_userId follower) (param h) -> is_user db (param h) ->
  exists profile,
    fst (run_route [AuthenticateToken now] get_user (incoming h) db)
    = json 200 (Success (DProfile profile))
    /\ isFollowing profile = true.
Proof.
  intros Hb Hv Hf Hu. simpl.
  rewrite (authenticate_bearer now (incoming h) tok Hb), Hv.
  unfold get_user, try_catch, bind. simpl.
  apply is_user_exists in Hu. unfold user_exists in Hu.
  destruct (existsb_filter_cons _ _ Hu) as [found [rest [E _]]].
  rewrite E. simpl. rewrite length_pos_existsb.
  apply following_exists in Hf. rewrite Hf.
  eexists. split; reflexivity.
Qed.

End Authentication.

(** * Invariants of the database *)

(** ** What every route keeps, given what every statement keeps *)

Section Preservation.

Variable collation : string -> string.
Variable P : DB -> Prop.

Lemma preserves_ret {A : Type} (a : A) : preserves P (ret a).
Proof. intros db H. exact H. Qed.

Lemma preserves_throw {A : Type} (e : Error) : preserves P (@throw A e).
Proof. intros db H. exact H. Qed.

Lemma preserves_query {A : Type} (f : DB -> A) : preserves P (query f).
Proof. intros db H. exact H. Qed.

Lemma preserves_bind {A B : Type} (m : Query A) (k : A -> Query B) :
  preserves P m -> (forall a, preserves P (k a)) -> preserves P (bind m k).
Proof.
  intros Hm Hk db H. unfold bind. specialize (Hm db H).
  destruct (m db) as [[a|e] db']; simpl in *; [now apply Hk | exact Hm].
Qed.

Lemma preserves_first_row {A : Type} (l : list A) : preserves P (first_row l).
Proof. destruct l; [apply preserves_throw | apply preserves_ret]. Qed.

Lemma preserves_req_userId (req : Request) : preserves P (req_userId req).
Proof.
  unfold req_userId. destruct (user req); [apply preserves_ret | apply preserves_throw].
Qed.

Lemma preserves_bind_param (v : option string) : preserves P (bind_param v).
Proof. destruct v; [apply preserves_ret | apply preserves_throw]. Qed.

Lemma preserves_bcrypt_arg (v : option string) : preserves P (bcrypt_arg v).
Proof. destruct v; [apply preserves_ret | apply preserves_throw]. Qed.

Lemma preserves_try_catch (m : Query Response) (db : DB) :
  preserves P m -> P db -> P (snd (try_catch m db)).
Proof.
  intros Hm H. unfold try_catch. specialize (Hm db H).
  destruct (m db) as [[r|e] db']; exact Hm.
Qed.

Lemma run_route_preserves (mws : list Middleware) (h : Handler) :
  (forall req db, P db -> P (snd (h req db))) ->
  forall req db, P db -> P (snd (run_route mws h req db)).
Proof.
  intros Hh. induction mws as [|mw rest IH]; simpl; intros req db H; [auto|].
  destruct (mw req); simpl; auto.
Qed.

(** The statements that write. *)
Hypothesis P_insert_user :
  forall now name mail hash admin,
    preserves P (insert_user collation now name mail hash admin).
Hypothesis P_insert_post : forall now uid text, preserves P (insert_post now uid text).
Hypothesis P_insert_comment :
  forall now uid pid text, preserves P (insert_comment now uid pid text).
Hypothesis P_insert_like : forall now uid pid, preserves P (insert_like now uid pid).
Hypothesis P_delete_likes : forall uid pid, preserves P (delete_likes uid pid).
Hypothesis P_insert_follow : forall now a b, preserves P (insert_follow now a b).
Hypothesis P_delete_follows : forall a b, preserves P (delete_follows a b).
Hypothesis P_insert_notification :
  forall now uid ty source pid, preserves P (insert_notification now uid ty source pid).
Hypothesis P_update_notification_read :
  forall nid, preserves P (update_notification_read nid).

Ltac preserve :=
  repeat first
    [ apply preserves_ret | apply preserves_throw | apply preserves_query
    | apply preserves_first_row | apply preserves_req_userId
    | apply preserves_bind_param | apply preserves_bcrypt_arg
    | apply P_insert_user | apply P_insert_post | apply P_insert_comment
    | apply P_insert_like | apply P_delete_likes | apply P_insert_follow
    | apply P_delete_follows | apply P_insert_notification
    | apply P_update_notification_read
    | apply preserves_bind; [|intros ?]
    | match goal with
      | |- preserves _ (if ?c then _ else _) => destruct c
      | |- preserves _ (match ?x with _ => _ end) => destruct x
      end ].

Variable bcrypt_hash : string -> Z -> string -> string.
Variable bcrypt_compare : string -> string -> bool.
Variable jwt_sign : TokenPayload -> string -> Z -> Z -> string.
Variable jwt_verify : string -> string -> Z -> option TokenPayload.
Variable JWT_SECRET : string.

Lemma handler_preserves (e : Env) (r : Route) (req : Request) (db : DB) :
  P db -> P (snd (handler collation
      bcrypt_hash bcrypt_compare jwt_sign JWT_SECRET e r req db)).
Proof.
  destruct r; simpl; try (intros H; exact H);
    apply preserves_try_catch;
    unfold select_users_by_email, select_users_by_id, select_posts_by_id,
      select_likes, select_follows, select_notification, select_post_view,
      select_all_posts, select_feed, select_comment_view, select_post_comments,
      select_notifications, select_all_users, count_posts, count_followers,
      count_following;
    preserve.
Qed.

Lemma app_preserves (e : Env) (r : Route) (h : HttpRequest) (db : DB) :
  P db ->
  P (snd (app collation
      bcrypt_hash bcrypt_compare jwt_sign jwt_verify JWT_SECRET e r h db)).
Proof.
  unfold app. apply run_route_preserves. intros req db'. apply handler_preserves.
Qed.

Lemma reachable_invariant (db : DB) :
  P empty_db ->
  reachable collation
      bcrypt_hash bcrypt_compare jwt_sign jwt_verify JWT_SECRET db -> P db.
Proof.
  intros H0. induction 1 as [|e r h db Hr IH]; [exact H0|].
  now apply app_preserves.
Qed.

End Preservation.

(** ** The UNIQUE keys of likes and follows *)

Lemma filter_filter_length {A : Type} (f g : A -> bool) (l : list A) :
  (List.length (filter f (filter g l)) <= List.length (filter f l))%nat.
Proof.
  induction l as [|x l IH]; simpl; [lia|].
  destruct (g x), (f x) eqn:E; simpl; rewrite ?E; simpl; lia.
Qed.

(** Appending a row for a key no row has keeps the key unique. *)
Lemma unique_append {A : Type} (matches : A -> bool) (fresh : A -> bool)
    (l : list A) (x : A) :
  (List.length (filter matches l) <= 1)%nat ->
  existsb fresh l = false ->
  (matches x = true -> forall y, matches y = fresh y) ->
  (List.length (filter matches (l ++ [x])) <= 1)%nat.
Proof.
  intros Hl Hfresh Hx. rewrite filter_app, length_app. simpl.
  destruct (matches x) eqn:E; simpl; [|lia].
  rewrite (filter_ext _ _ (Hx eq_refl)).
  apply filter_nil_existsb in Hfresh. rewrite Hfresh. simpl. lia.
Qed.

Lemma likes_match_same (uid pid : Z) (x : Likes.row) :
  likes_match uid pid x = true ->
  forall y, likes_match uid pid y
            = likes_match (Likes.user_id x) (Likes.post_id x) y.
Proof. intros H y. apply likes_match_true in H as [<- <-]. reflexivity. Qed.

Lemma follows_match_same (a b : Z) (x : Follows.row) :
  follows_match a b x = true ->
  forall y, follows_match a b y
            = follows_match (Follows.follower_id x) (Follows.following_id x) y.
Proof. intros H y. apply follows_match_true in H as [<- <-]. reflexivity. Qed.

Lemma insert_like_unique (now uid pid : Z) (db : DB) :
  likes_unique db -> likes_unique (snd (insert_like now uid pid db)).
Proof.
  intros H. unfold insert_like.
  destruct (existsb _ (rows (likes db))) eqn:E; [exact H|].
  destruct (negb _); [exact H|].
  intros u p. simpl. apply (unique_append _ (likes_match uid pid)); auto.
  apply likes_match_same.
Qed.

Lemma delete_likes_unique (uid pid : Z) (db : DB) :
  likes_unique db -> likes_unique (snd (delete_likes uid pid db)).
Proof.
  intros H u p. simpl.
  eapply Nat.le_trans; [apply filter_filter_length | apply H].
Qed.

Lemma insert_follow_unique (now a b : Z) (db : DB) :
  follows_unique db -> follows_unique (snd (insert_follow now a b db)).
Proof.
  intros H. unfold insert_follow.
  destruct (existsb _ (rows (follows db))) eqn:E; [exact H|].
  destruct (negb _); [exact H|].
  intros u p. simpl. apply (unique_append _ (follows_match a b)); auto.
  apply follows_match_same.
Qed.

Lemma delete_follows_unique (a b : Z) (db : DB) :
  follows_unique db -> follows_unique (snd (delete_follows a b db)).
Proof.
  intros H u p. simpl.
  eapply Nat.le_trans; [apply filter_filter_length | apply H].
Qed.

(** A statement that leaves likes and follows alone keeps their keys. *)
Lemma unique_keys_frame {A : Type} (m : Query A) :
  (forall db, likes (snd (m db)) = likes db /\ follows (snd (m db)) = follows db) ->
  preserves unique_keys m.
Proof.
  intros Hm db [Hl Hf]. destruct (Hm db) as [El Ef].
  unfold unique_keys, likes_unique, follows_unique. rewrite El, Ef. auto.
Qed.

Ltac frame stmt :=
  apply unique_keys_frame; intros db; unfold stmt;
  repeat match goal with |- context [if ?c then _ else _] => destruct c end;
  simpl; auto.

Lemma unique_keys_insert_user (collation : string -> string) (now : Z)
    (name mail hash : string) (admin : bool) :
  preserves unique_keys (insert_user collation now name mail hash admin).
Proof. frame insert_user. Qed.

Lemma unique_keys_insert_post (now uid : Z) (text : string) :
  preserves unique_keys (insert_post now uid text).
Proof. frame insert_post. Qed.

Lemma unique_keys_insert_comment (now uid pid : Z) (text : string) :
  preserves unique_keys (insert_comment now uid pid text).
Proof. frame insert_comment. Qed.

Lemma unique_keys_insert_notification (now uid : Z) (ty : string) (source : Z)
    (pid : option Z) :
  preserves unique_keys (insert_notification now uid ty source pid).
Proof. frame insert_notification. Qed.

Lemma unique_keys_update_notification_read (nid : Z) :
  preserves unique_keys (update_notification_read nid).
Proof. frame update_notification_read. Qed.

Lemma unique_keys_insert_like (now uid pid : Z) :
  preserves unique_keys (insert_like now uid pid).
Proof.
  intros db [Hl Hf]. split; [now apply insert_like_unique|].
  unfold insert_like.
  repeat match goal with |- context [if ?c then _ else _] => destruct c end;
    exact Hf.
Qed.

Lemma unique_keys_delete_likes (uid pid : Z) :
  preserves unique_keys (delete_likes uid pid).
Proof. intros db [Hl Hf]. split; [now apply delete_likes_unique | exact Hf]. Qed.

Lemma unique_keys_insert_follow (now a b : Z) :
  preserves unique_keys (insert_follow now a b).
Proof.
  intros db [Hl Hf]. split; [|now apply insert_follow_unique].
  unfold insert_follow.
  repeat match goal with |- context [if ?c then _ else _] => destruct c end;
    exact Hl.
Qed.

Lemma unique_keys_delete_follows (a b : Z) :
  preserves unique_keys (delete_follows a b).
Proof. intros db [Hl Hf]. split; [exact Hl | now apply delete_follows_unique]. Qed.

Lemma unique_keys_empty : unique_keys empty_db.
Proof. split; intros a b; simpl; lia. Qed.

(** C5. In every database the API reaches from the empty one, the likes
    table has at most one row for each (user_id, post_id) and the follows
    table at most one for each (follower_id, following_id); and every route,
    run on a database where that holds, leaves one where it holds. *)
Theorem unique_keys_invariant
    (collation : string -> string)
    (bcrypt_hash : string -> Z -> string -> string)
    (bcrypt_compare : string -> string -> bool)
    (jwt_sign : TokenPayload -> string -> Z -> Z -> string)
    (jwt_verify : string -> string -> Z -> option TokenPayload)
    (JWT_SECRET : string) :
  (forall db,
      reachable collation
          bcrypt_hash bcrypt_compare jwt_sign jwt_verify JWT_SECRET db ->
      likes_unique db /\ follows_unique db)
  /\ (forall e r h db,
        likes_unique db /\ follows_unique db ->
        let db' := snd (app collation
            bcrypt_hash bcrypt_compare jwt_sign jwt_verify
                            JWT_SECRET e r h db) in
        likes_unique db' /\ follows_unique db').
Proof.
  assert (Hstep : forall e r h db,
             unique_keys db ->
             unique_keys (snd (app collation
                 bcrypt_hash bcrypt_compare jwt_sign jwt_verify
                                   JWT_SECRET e r h db))).
  { intros e r h db. apply app_preserves.
    - apply unique_keys_insert_user.
    - apply unique_keys_insert_post.
    - apply unique_keys_insert_comment.
    - apply unique_keys_insert_like.
    - apply unique_keys_delete_likes.
    - apply unique_keys_insert_follow.
    - apply unique_keys_delete_follows.
    - apply unique_keys_insert_notification.
    - apply unique_keys_update_notification_read. }
  split.
  - intros db. induction 1 as [|e r h db Hr IH].
    + apply unique_keys_empty.
    + now apply Hstep.
  - intros e r h db H. now apply Hstep.
Qed.

(** ** The constraints of the schema *)

Lemma NoDup_snoc {K : Type} (l : list K) (k : K) :
  NoDup l -> ~ In k l -> NoDup (l ++ [k]).
Proof.
  intros Hl Hk. apply (Permutation_NoDup (Permutation_cons_append l k)).
  now constructor.
Qed.

Lemma primary_key_append {R : Type} (id : R -> Z) (t : Table R) (mk : Z -> R) :
  id (mk (next_id t)) = next_id t ->
  primary_key id t -> primary_key id (append_row t mk).
Proof.
  intros Hid [Hnd Hlt]. unfold primary_key, append_row. simpl. split.
  - rewrite map_app. simpl. apply NoDup_snoc; [assumption|].
    rewrite Hid. intros Hin. apply in_map_iff in Hin as [r [Hr Hin]].
    rewrite Forall_forall in Hlt. specialize (Hlt r Hin). lia.
  - apply Forall_app. split.
    + eapply Forall_impl; [|exact Hlt]. simpl. intros r Hr. lia.
    + constructor; [lia|constructor].
Qed.

Lemma primary_key_filter {R : Type} (id : R -> Z) (t : Table R) (keep : R -> bool) :
  primary_key id t -> primary_key id (mkTable (filter keep (rows t)) (next_id t)).
Proof.
  intros [Hnd Hlt]. split; simpl.
  - now apply NoDup_map_filter.
  - rewrite Forall_forall in *. intros r Hr. apply filter_In in Hr as [Hr _]. auto.
Qed.

Lemma primary_key_update {R : Type} (id : R -> Z) (t : Table R) (f : R -> R) :
  (forall r, id (f r) = id r) ->
  primary_key id t -> primary_key id (mkTable (map f (rows t)) (next_id t)).
Proof.
  intros Hf [Hnd Hlt]. split; simpl.
  - rewrite map_map. rewrite (map_ext _ id Hf). exact Hnd.
  - rewrite Forall_forall in *. intros r Hr.
    apply in_map_iff in Hr as [r0 [<- Hr]]. rewrite Hf. auto.
Qed.

Lemma Forall_filter_keep {A : Type} (Q : A -> Prop) (keep : A -> bool) (l : list A) :
  Forall Q l -> Forall Q (filter keep l).
Proof.
  rewrite !Forall_forall. intros H x Hx. apply filter_In in Hx as [Hx _]. auto.
Qed.

Lemma Forall_snoc {A : Type} (Q : A -> Prop) (l : list A) (x : A) :
  Forall Q l -> Q x -> Forall Q (l ++ [x]).
Proof. intros Hl Hx. apply Forall_app. split; [assumption|]. now constructor. Qed.

Lemma existsb_snoc {A : Type} (f : A -> bool) (l : list A) (x : A) :
  existsb f l = true -> existsb f (l ++ [x]) = true.
Proof. intros H. rewrite existsb_app, H. reflexivity. Qed.

Lemma consistent_empty : consistent empty_db.
Proof.
  constructor; unfold primary_key, references, likes_unique, follows_unique;
    simpl; try (split; constructor); try constructor; intros; simpl; lia.
Qed.

Lemma primary_key_skip {R : Type} (id : R -> Z) (t : Table R) :
  primary_key id t -> primary_key id (skip_id t).
Proof.
  intros [Hnd Hlt]. split; simpl; [assumption|].
  eapply Forall_impl; [|exact Hlt]. simpl. intros r Hr. lia.
Qed.

Ltac unchanged :=
  unfold references, user_exists, post_exists in *; simpl; assumption.

(** An INSERT that a key refused: one table lost an id, the rows stay. *)
Ltac refused Hc :=
  simpl; destruct Hc; constructor; try unchanged;
  apply primary_key_skip; assumption.

Lemma consistent_insert_like (now uid pid : Z) :
  preserves consistent (insert_like now uid pid).
Proof.
  intros db Hc. unfold insert_like.
  destruct (existsb _ (rows (likes db))) eqn:E; [refused Hc|].
  destruct (user_exists uid db && post_exists pid db) eqn:E2; simpl;
    [|refused Hc].
  apply andb_true_iff in E2 as [Hu Hp].
  destruct Hc. constructor; try unchanged.
  - apply primary_key_append; auto.
  - intros u p. simpl. apply (unique_append _ (likes_match uid pid)); auto.
    apply likes_match_same.
  - apply Forall_snoc; auto.
  - apply Forall_snoc; auto.
Qed.

(** A parent table that grew still has every row the children point to. *)
Ltac grown :=
  unfold references, user_exists, post_exists in *; simpl;
  match goal with
  | H : Forall _ ?l |- Forall _ ?l =>
      solve [ refine (Forall_impl _ _ H); simpl; intros;
              repeat match goal with
                     | |- match ?x with _ => _ end => destruct x
                     end;
              auto using existsb_snoc ]
  end.

Lemma consistent_insert_user (collation : string -> string) (now : Z)
    (name mail hash : string) (admin : bool) :
  preserves consistent (insert_user collation now name mail hash admin).
Proof.
  intros db Hc. unfold insert_user.
  destruct (_ || _ || _); [exact Hc|].
  destruct (existsb _ (rows (users db))) eqn:E; [refused Hc|]. simpl.
  assert (Hfree : forall u, In u (rows (users db)) ->
                            Users.username u <> name /\ Users.email u <> mail).
  { intros u Hin. split; intros Heq;
      (assert (Et : existsb (fun u0 => equal_under collation (Users.username u0) name
                                       || equal_under collation (Users.email u0) mail)
                            (rows (users db)) = true);
       [apply existsb_exists; exists u; split; [assumption|];
        apply orb_true_iff; rewrite !equal_under_true, Heq; auto
       | congruence]). }
  destruct Hc. constructor; try unchanged; try grown.
  - apply primary_key_append; auto.
  - simpl. rewrite map_app. apply NoDup_snoc; [assumption|].
    intros Hin. apply in_map_iff in Hin as [u [Hu Hin]].
    destruct (Hfree u Hin) as [H1 H2]. simpl in Hu. auto.
  - simpl. rewrite map_app. apply NoDup_snoc; [assumption|].
    intros Hin. apply in_map_iff in Hin as [u [Hu Hin]].
    destruct (Hfree u Hin) as [H1 H2]. simpl in Hu. auto.
Qed.

Lemma consistent_insert_post (now uid : Z) (text : string) :
  preserves consistent (insert_post now uid text).
Proof.
  intros db Hc. unfold insert_post.
  destruct (65535 <? strlen text); [exact Hc|].
  destruct (user_exists uid db) eqn:Hu; simpl; [|refused Hc].
  destruct Hc. constructor; try unchanged; try grown.
  - apply primary_key_append; auto.
  - apply Forall_snoc; auto.
Qed.

Lemma consistent_insert_comment (now uid pid : Z) (text : string) :
  preserves consistent (insert_comment now uid pid text).
Proof.
  intros db Hc. unfold insert_comment.
  destruct (65535 <? strlen text); [exact Hc|].
  destruct (user_exists uid db && post_exists pid db) eqn:E; simpl;
    [|refused Hc].
  apply andb_true_iff in E as [Hu Hp].
  destruct Hc. constructor; try unchanged.
  - apply primary_key_append; auto.
  - apply Forall_snoc; auto.
  - apply Forall_snoc; auto.
Qed.

Lemma consistent_delete_likes (uid pid : Z) :
  preserves consistent (delete_likes uid pid).
Proof.
  intros db Hc. unfold delete_likes. simpl.
  pose proof (likes_key db Hc) as Hkey.
  destruct Hc. constructor; try unchanged.
  - now apply primary_key_filter.
  - intros u p. simpl.
    eapply Nat.le_trans; [apply filter_filter_length | apply Hkey].
  - now apply Forall_filter_keep.
  - now apply Forall_filter_keep.
Qed.

Lemma consistent_insert_follow (now a b : Z) :
  preserves consistent (insert_follow now a b).
Proof.
  intros db Hc. unfold insert_follow.
  destruct (existsb _ (rows (follows db))) eqn:E; [refused Hc|].
  destruct (user_exists a db && user_exists b db) eqn:E2; simpl; [|refused Hc].
  apply andb_true_iff in E2 as [Ha Hb].
  destruct Hc. constructor; try unchanged.
  - apply primary_key_append; auto.
  - intros u p. simpl. apply (unique_append _ (follows_match a b)); auto.
    apply follows_match_same.
  - apply Forall_snoc; auto.
  - apply Forall_snoc; auto.
Qed.

Lemma consistent_delete_follows (a b : Z) :
  preserves consistent (delete_follows a b).
Proof.
  intros db Hc. unfold delete_follows. simpl.
  pose proof (follows_key db Hc) as Hkey.
  destruct Hc. constructor; try unchanged.
  - now apply primary_key_filter.
  - intros u p. simpl.
    eapply Nat.le_trans; [apply filter_filter_length | apply Hkey].
  - now apply Forall_filter_keep.
  - now apply Forall_filter_keep.
Qed.

Lemma consistent_insert_notification (now uid : Z) (ty : string) (source : Z)
    (pid : option Z) :
  preserves consistent (insert_notification now uid ty source pid).
Proof.
  intros db Hc. unfold insert_notification.
  destruct (user_exists uid db && user_exists source db
            && match pid with Some p => post_exists p db | None => true end)
    eqn:E; simpl; [|refused Hc].
  apply andb_true_iff in E as [E Hp]. apply andb_true_iff in E as [Hu Hs].
  destruct Hc. constructor; try unchanged.
  - apply primary_key_append; auto.
  - apply Forall_snoc; auto.
  - apply Forall_snoc; auto.
  - apply Forall_snoc; auto. simpl. destruct pid; auto.
Qed.

Lemma consistent_update_notification_read (nid : Z) :
  preserves consistent (update_notification_read nid).
Proof.
  intros db Hc. unfold update_notification_read. simpl.
  assert (Hsame : forall (Q : Notifications.row -> Prop),
             (forall n, Q n -> Q (Notifications.mark_read n)) ->
             Forall Q (rows (notifications db)) ->
             Forall Q (map (fun n => if Notifications.id n =? nid
                                     then Notifications.mark_read n else n)
                           (rows (notifications db)))).
  { intros Q HQ H. rewrite Forall_forall in *. intros n Hn.
    apply in_map_iff in Hn as [n0 [<- Hn]].
    destruct (Notifications.id n0 =? nid); auto. }
  destruct Hc. constructor; try unchanged.
  - apply (primary_key_update Notifications.id); [|assumption].
    intros n. destruct (Notifications.id n =? nid); reflexivity.
  - apply Hsame; auto.
  - apply Hsame; auto.
  - apply Hsame; auto.
Qed.

(** X22. Every route keeps the constraints of the schema that
    [initializeDatabase] declares (primary keys, UNIQUE keys, foreign keys),
    so they hold in every database the API reaches: the hypothesis
    [consistent db] of the theorems of this file is met wherever the server
    can be. *)
Lemma consistent_invariant
    (collation : string -> string)
    (bcrypt_hash : string -> Z -> string -> string)
    (bcrypt_compare : string -> string -> bool)
    (jwt_sign : TokenPayload -> string -> Z -> Z -> string)
    (jwt_verify : string -> string -> Z -> option TokenPayload)
    (JWT_SECRET : string) :
  (forall e r h db,
      consistent db ->
      consistent (snd (app collation
          bcrypt_hash bcrypt_compare jwt_sign jwt_verify
                           JWT_SECRET e r h db)))
  /\ (forall db,
        reachable collation
            bcrypt_hash bcrypt_compare jwt_sign jwt_verify JWT_SECRET db ->
        consistent db).
Proof.
  assert (Hstep : forall e r h db,
             consistent db ->
             consistent (snd (app collation
                 bcrypt_hash bcrypt_compare jwt_sign jwt_verify
                                  JWT_SECRET e r h db))).
  { intros e r h db. apply app_preserves.
    - apply consistent_insert_user.
    - apply consistent_insert_post.
    - apply consistent_insert_comment.
    - apply consistent_insert_like.
    - apply consistent_delete_likes.
    - apply consistent_insert_follow.
    - apply consistent_delete_follows.
    - apply consistent_insert_notification.
    - apply consistent_update_notification_read. }
  split; [exact Hstep|].
  intros db. induction 1 as [|e r h db Hr IH].
  - apply consistent_empty.
  - now apply Hstep.
Qed.

(** ** The UNIQUE keys of users under the collation *)

(** A statement that leaves the rows of users alone keeps their keys. *)
Lemma users_keys_frame (collation : string -> string) {A : Type} (m : Query A) :
  (forall db, rows (users (snd (m db))) = rows (users db)) ->
  preserves (users_keys collation) m.
Proof. intros Hm db H. unfold users_keys. now rewrite Hm. Qed.

Ltac users_kept stmt :=
  apply users_keys_frame; intros ?; unfold stmt;
  repeat match goal with |- context [if ?c then _ else _] => destruct c end;
  simpl; auto.

(** The INSERT goes through only when no user has the username or the
    email, as the collation compares them. *)
Lemma users_keys_insert_user (collation : string -> string) (now : Z)
    (name mail hash : string) (admin : bool) :
  preserves (users_keys collation) (insert_user collation now name mail hash admin).
Proof.
  intros db [Hname Hmail]. unfold insert_user.
  destruct (_ || _ || _); [now split|].
  destruct (existsb _ (rows (users db))) eqn:E; [now split|].
  assert (Hfree : forall u, In u (rows (users db)) ->
                            collation (Users.username u) <> collation name
                            /\ collation (Users.email u) <> collation mail).
  { intros u Hin. split; intros Heq;
      (assert (Et : existsb (fun u0 => equal_under collation (Users.username u0) name
                                       || equal_under collation (Users.email u0) mail)
                            (rows (users db)) = true);
       [apply existsb_exists; exists u; split; [assumption|];
        apply orb_true_iff; rewrite !equal_under_true; auto
       | congruence]). }
  split; simpl; rewrite map_app; (apply NoDup_snoc; [assumption|]);
    intros Hin; apply in_map_iff in Hin as [u [Hu Hin]];
    destruct (Hfree u Hin) as [H1 H2]; simpl in Hu; auto.
Qed.

(** In every database the API reaches, and after every request on a
    database where that holds, no two users have the same username or the
    same email as the columns compare them: the emails of two users differ by
    more than their capitals when the collation is a case-insensitive one. *)
Lemma users_keys_invariant
    (collation : string -> string)
    (bcrypt_hash : string -> Z -> string -> string)
    (bcrypt_compare : string -> string -> bool)
    (jwt_sign : TokenPayload -> string -> Z -> Z -> string)
    (jwt_verify : string -> string -> Z -> option TokenPayload)
    (JWT_SECRET : string) :
  (forall e r h db,
      users_keys collation db ->
      users_keys collation
        (snd (app collation bcrypt_hash bcrypt_compare jwt_sign jwt_verify
                  JWT_SECRET e r h db)))
  /\ (forall db,
        reachable collation bcrypt_hash bcrypt_compare jwt_sign jwt_verify
                  JWT_SECRET db ->
        users_keys collation db).
Proof.
  assert (Hstep : forall e r h db,
             users_keys collation db ->
             users_keys collation
               (snd (app collation
                   bcrypt_hash bcrypt_compare jwt_sign jwt_verify
                         JWT_SECRET e r h db))).
  { intros e r h db. apply app_preserves.
    - apply users_keys_insert_user.
    - intros; users_kept insert_post.
    - intros; users_kept insert_comment.
    - intros; users_kept insert_like.
    - intros; users_kept delete_likes.
    - intros; users_kept insert_follow.
    - intros; users_kept delete_follows.
    - intros; users_kept insert_notification.
    - intros; users_kept update_notification_read. }
  split; [exact Hstep|].
  intros db. induction 1 as [|e r h db Hr IH].
  - split; constructor.
  - now apply Hstep.
Qed.

(** * The sample database *)

Lemma reachable_replay
    (collation : string -> string)
    (bcrypt_hash : string -> Z -> string -> string)
    (bcrypt_compare : string -> string -> bool)
    (jwt_sign : TokenPayload -> string -> Z -> Z -> string)
    (jwt_verify : string -> string -> Z -> option TokenPayload)
    (JWT_SECRET : string) (calls : list (Env * Route * HttpRequest)) (db : DB) :
  reachable collation
      bcrypt_hash bcrypt_compare jwt_sign jwt_verify JWT_SECRET db ->
  reachable collation bcrypt_hash bcrypt_compare jwt_sign jwt_verify JWT_SECRET
            (replay collation
                bcrypt_hash bcrypt_compare jwt_sign jwt_verify JWT_SECRET
                    calls db).
Proof.
  revert db. induction calls as [|[[e r] h] calls IH]; simpl; intros db H.
  - exact H.
  - apply IH. now constructor.
Qed.

(** The sample database is what the API makes of the sample session. *)
Example sample_session :
  replay Sample.collation
      Sample.bcrypt_hash Sample.bcrypt_compare Sample.jwt_sign
         Sample.jwt_verify Sample.secret Sample.session empty_db
  = Sample.db.
Proof. reflexivity. Qed.

Example sample_reachable :
  reachable Sample.collation
      Sample.bcrypt_hash Sample.bcrypt_compare Sample.jwt_sign
            Sample.jwt_verify Sample.secret Sample.db.
Proof. rewrite <- sample_session. apply reachable_replay. constructor. Qed.

(** * Instances on the sample database *)



(** A wrong password, and an email nobody has: 401 both times. *)
Example login_wrong_password :
  login Sample.collation Sample.bcrypt_compare Sample.jwt_sign Sample.secret 500
    (incoming (mkHttp None 0 None (Some "alice@example.com") (Some "builder") None))
    Sample.db
  = (json 401 (Failure "Invalid credentials"), Sample.db).
Proof. reflexivity. Qed.

Example login_unknown_email :
  login Sample.collation Sample.bcrypt_compare Sample.jwt_sign Sample.secret 500
    (incoming (mkHttp None 0 None (Some "dave@example.com") (Some "builder") None))
    Sample.db
  = (json 401 (Failure "Invalid credentials"), Sample.db).
Proof. reflexivity. Qed.

(** alice follows bob and asks for bob's profile with her token. *)
Lemma profile_never_following_witness :
  let h := mkHttp (Some "Bearer alice@example.com") 2 None None None None in
  bearer h "alice@example.com"
  /\ Sample.jwt_verify "alice@example.com" Sample.secret 500
     = Some Sample.alice_token
  /\ following Sample.db 1 2
  /\ exists profile,
       fst (app Sample.collation
           Sample.bcrypt_hash Sample.bcrypt_compare Sample.jwt_sign
                Sample.jwt_verify Sample.secret (mkEnv 500 500 500 "") GET_users
                h Sample.db)
       = json 200 (Success (DProfile profile))
       /\ isFollowing profile = false.
Proof.
  intros h.
  assert (Hb : bearer h "alice@example.com").
  { exists "Bearer alice@example.com". repeat split. discriminate. }
  assert (Hf : following Sample.db 1 2).
  { exists (Follows.mk 1 1 2 310). simpl. auto. }
  assert (Hu : is_user Sample.db (param h)).
  { exists Sample.bob. simpl. auto. }
  repeat split; auto.
  destruct (profile_never_following Sample.collation
      Sample.bcrypt_hash Sample.bcrypt_compare
              Sample.jwt_sign Sample.jwt_verify Sample.secret
              (mkEnv 500 500 500 "") h Sample.db) as [_ [_ [_ [_ H]]]].
  exact (H "alice@example.com" Sample.alice_token Hb eq_refl Hf Hu).
Defined.

(** dave registers with an address ending in _admin@gmail.com; bob, whose
    token says isAdmin, lists the users. *)
Lemma admin_flag_and_route_witness :
  let req := incoming (mkHttp None 0 (Some "dave") (Some "dave_admin@gmail.com")
                              (Some "secret") None) in
  let h := mkHttp (Some "Bearer bob_admin@gmail.com") 0 None None None None in
  (exists stored,
      rows (users (snd (register Sample.collation
          Sample.bcrypt_hash Sample.jwt_sign Sample.secret
                                 500 501 "s4" req Sample.db)))
      = rows (users Sample.db) ++ [stored]
      /\ Users.is_admin stored = true)
  /\ status (fst (app Sample.collation
      Sample.bcrypt_hash Sample.bcrypt_compare Sample.jwt_sign
                      Sample.jwt_verify Sample.secret (mkEnv 500 500 500 "")
                      GET_admin_users h Sample.db)) = 200.
Proof.
  intros req h.
  destruct (admin_flag_and_route Sample.collation
      Sample.bcrypt_hash Sample.bcrypt_compare
              Sample.jwt_sign Sample.jwt_verify Sample.secret 500 501 "s4" req
              (mkEnv 500 500 500 "") h Sample.db) as [H1 [_ [H3 _]]].
  split.
  - destruct (H1 eq_refl) as [stored [Hrows [Hmail [_ Hadmin]]]].
    exists stored. split; [exact Hrows|].
    apply Hadmin. left. exists "dave". unfold req in Hmail. simpl in Hmail.
    injection Hmail as <-. reflexivity.
  - apply H3. exists "bob_admin@gmail.com", Sample.bob_token. repeat split.
    exists "Bearer bob_admin@gmail.com". repeat split. discriminate.
Defined.

(** alice's token has no isAdmin claim: 403; no token: 401. *)
Example admin_users_forbidden :
  fst (app Sample.collation
      Sample.bcrypt_hash Sample.bcrypt_compare Sample.jwt_sign
           Sample.jwt_verify Sample.secret (mkEnv 500 500 500 "") GET_admin_users
           (mkHttp (Some "Bearer alice@example.com") 0 None None None None)
           Sample.db)
  = json 403 (Failure "Admin access required").
Proof. reflexivity. Qed.

Example admin_users_no_token :
  fst (app Sample.collation
      Sample.bcrypt_hash Sample.bcrypt_compare Sample.jwt_sign
           Sample.jwt_verify Sample.secret (mkEnv 500 500 500 "") GET_admin_users
           (on_param 0) Sample.db)
  = json 401 (Failure "Access token required").
Proof. reflexivity. Qed.

(** The keys of likes and follows on the sample database and after one more
    request. *)
Lemma unique_keys_invariant_witness :
  (likes_unique Sample.db /\ follows_unique Sample.db)
  /\ (let db' := snd (app Sample.collation
      Sample.bcrypt_hash Sample.bcrypt_compare Sample.jwt_sign
                          Sample.jwt_verify Sample.secret (mkEnv 400 400 401 "")
                          POST_posts_like
                          (mkHttp (Some "Bearer carol@example.com") 1 None None
                                  None None)
                          Sample.db) in
      rows (likes db') = [Likes.mk 1 2 1 300; Likes.mk 2 3 1 400]
      /\ likes_unique db' /\ follows_unique db').
Proof.
  destruct (unique_keys_invariant Sample.collation
      Sample.bcrypt_hash Sample.bcrypt_compare
              Sample.jwt_sign Sample.jwt_verify Sample.secret) as [H1 H2].
  pose proof (H1 Sample.db sample_reachable) as H.
  split; [exact H|]. split; [reflexivity|].
  exact (H2 (mkEnv 400 400 401 "") POST_posts_like
            (mkHttp (Some "Bearer carol@example.com") 1 None None None None)
            Sample.db H).
Defined.

(** * Further properties of the routes *)

(** ** Routes that read *)

Lemma read_only_ret {A : Type} (a : A) : read_only (ret a).
Proof. intros db. reflexivity. Qed.

Lemma read_only_throw {A : Type} (e : Error) : read_only (@throw A e).
Proof. intros db. reflexivity. Qed.

Lemma read_only_query {A : Type} (f : DB -> A) : read_only (query f).
Proof. intros db. reflexivity. Qed.

Lemma read_only_bind {A B : Type} (m : Query A) (k : A -> Query B) :
  read_only m -> (forall a, read_only (k a)) -> read_only (bind m k).
Proof.
  intros Hm Hk db. unfold bind. specialize (Hm db).
  destruct (m db) as [[a|e] db']; simpl in *; subst; [apply Hk | reflexivity].
Qed.

Lemma read_only_try_catch (m : Query Response) (db : DB) :
  read_only m -> snd (try_catch m db) = db.
Proof.
  intros Hm. unfold try_catch. specialize (Hm db).
  destruct (m db) as [[r|e] db']; exact Hm.
Qed.

Ltac reads :=
  repeat first
    [ apply read_only_ret | apply read_only_throw | apply read_only_query
    | apply read_only_bind; [|intros ?]
    | match goal with
      | |- read_only (req_userId ?r) => unfold req_userId
      | |- read_only (bind_param ?v) => unfold bind_param
      | |- read_only (bcrypt_arg ?v) => unfold bcrypt_arg
      | |- read_only (first_row ?l) => unfold first_row
      | |- read_only (if ?c then _ else _) => destruct c
      | |- read_only (match ?x with _ => _ end) => destruct x
      end ].

Lemma run_route_answer (mws : list Middleware) (h : Handler) (req : Request)
    (db : DB) :
  (forall req', snd (h req' db) = db) -> snd (run_route mws h req db) = db.
Proof.
  intros Hh. revert req. induction mws as [|mw rest IH]; simpl; intros req; [auto|].
  destruct (mw req); simpl; auto.
Qed.

Section Routes.

Variable collation : string -> string.
Variable bcrypt_hash : string -> Z -> string -> string.
Variable bcrypt_compare : string -> string -> bool.
Variable jwt_sign : TokenPayload -> string -> Z -> Z -> string.
Variable jwt_verify : string -> string -> Z -> option TokenPayload.
Variable JWT_SECRET : string.

Local Abbreviation Login :=
  (login collation bcrypt_compare jwt_sign JWT_SECRET).
Local Abbreviation Register :=
  (register collation bcrypt_hash jwt_sign JWT_SECRET).
Local Abbreviation AuthenticateToken := (authenticateToken jwt_verify JWT_SECRET).
Local Abbreviation Handler_of :=
  (handler collation bcrypt_hash bcrypt_compare jwt_sign JWT_SECRET).
Local Abbreviation App :=
  (app collation bcrypt_hash bcrypt_compare jwt_sign jwt_verify JWT_SECRET).

(** X1. The routes that only read (login and every GET) leave the database
    exactly as it was, whatever the request and whatever they answer. *)
Theorem reading_routes_change_nothing (e : Env) (r : Route) (h : HttpRequest)
    (db : DB) :
  reads_only r = true -> snd (App e r h db) = db.
Proof.
  intros Hr. unfold app. apply run_route_answer. intros req.
  destruct r; try discriminate; simpl; try reflexivity;
    apply read_only_try_catch;
    unfold select_users_by_email, select_all_posts, select_users_by_id,
      count_posts, count_followers, count_following, select_follows, select_feed,
      select_post_comments, select_notifications, select_all_users;
    reads.
Qed.

(** X2. A route registered with [authenticateToken] answers 401 'Access
    token required' to a request with no bearer token and 403 'Invalid
    token' to one whose token does not verify, and changes nothing in either
    case: its handler does not run. *)
Theorem token_routes_reject (e : Env) (r : Route) (h : HttpRequest) (db : DB) :
  requires_token r = true ->
  ((forall tok, ~ bearer h tok) ->
   App e r h db = (json 401 (Failure "Access token required"), db))
  /\ (forall tok,
        bearer h tok -> jwt_verify tok JWT_SECRET (t_auth e) = None ->
        App e r h db = (json 403 (Failure "Invalid token"), db)).
Proof.
  intros Hr. unfold app. split.
  - intros Hnone.
    destruct r; try discriminate; simpl;
      now rewrite (authenticate_no_bearer jwt_verify JWT_SECRET (t_auth e)
                     (incoming h) Hnone).
  - intros tok Hb Hv.
    destruct r; try discriminate; simpl;
      now rewrite (authenticate_bearer jwt_verify JWT_SECRET (t_auth e)
                     (incoming h) tok Hb), Hv.
Qed.

(** X3. [requireAdmin] answers 401 'Authentication required' to a request
    without [req.user]; on GET /api/admin/users it runs behind
    [authenticateToken], so the route never gives that answer. *)
Theorem admin_route_never_unauthenticated (e : Env) (h : HttpRequest) (db : DB) :
  requireAdmin (incoming h)
  = Respond (json 401 (Failure "Authentication required"))
  /\ fst (App e GET_admin_users h db)
     <> json 401 (Failure "Authentication required").
Proof.
  split; [reflexivity|].
  unfold app. simpl.
  destruct (bearer_or_not h) as [[tok Hb]|Hnone].
  - rewrite (authenticate_bearer jwt_verify JWT_SECRET (t_auth e) (incoming h)
               tok Hb).
    destruct (jwt_verify tok JWT_SECRET (t_auth e)) as [u|]; simpl;
      [|discriminate].
    unfold requireAdmin. simpl. destruct (tok_isAdmin u); simpl; discriminate.
  - rewrite (authenticate_no_bearer jwt_verify JWT_SECRET (t_auth e)
               (incoming h) Hnone).
    simpl. discriminate.
Qed.

End Routes.

(** Alice's feed request leaves the sample database as it was. *)
Lemma reading_routes_change_nothing_witness :
  reads_only GET_feed = true
  /\ snd (app Sample.collation
      Sample.bcrypt_hash Sample.bcrypt_compare Sample.jwt_sign
              Sample.jwt_verify Sample.secret (mkEnv 500 500 500 "") GET_feed
              (mkHttp (Some "Bearer alice@example.com") 0 None None None None)
              Sample.db)
     = Sample.db.
Proof.
  split; [reflexivity|].
  apply (reading_routes_change_nothing Sample.collation
      Sample.bcrypt_hash Sample.bcrypt_compare
           Sample.jwt_sign Sample.jwt_verify Sample.secret).
  reflexivity.
Defined.

(** A post sent with a token that does not verify. *)
Lemma token_routes_reject_witness :
  requires_token POST_posts = true
  /\ app Sample.collation
      Sample.bcrypt_hash Sample.bcrypt_compare Sample.jwt_sign
         Sample.jwt_verify Sample.secret (mkEnv 500 500 500 "") POST_posts
         (mkHttp (Some "Bearer mallory") 0 None None None (Some "hi")) Sample.db
     = (json 403 (Failure "Invalid token"), Sample.db).
Proof.
  split; [reflexivity|].
  destruct (token_routes_reject Sample.collation
      Sample.bcrypt_hash Sample.bcrypt_compare
              Sample.jwt_sign Sample.jwt_verify Sample.secret
              (mkEnv 500 500 500 "") POST_posts
              (mkHttp (Some "Bearer mallory") 0 None None None (Some "hi"))
              Sample.db eq_refl) as [_ H].
  apply (H "mallory"); [|reflexivity].
  exists "Bearer mallory". repeat split. discriminate.
Defined.


(** ** The Authorization header *)

Lemma split_no_space (w : string) :
  no_space w = true -> split " " w = [w].
Proof.
  induction w as [|c w IH]; simpl; [reflexivity|].
  intros H. apply andb_true_iff in H as [Hc Hw]. apply negb_true_iff in Hc.
  rewrite Hc, (IH Hw). reflexivity.
Qed.

(** [split] cuts at the first space. *)
Lemma split_first_word (w rest : string) :
  no_space w = true ->
  split " " (w ++ String " " rest) = w :: split " " rest.
Proof.
  induction w as [|c w IH]; simpl; [reflexivity|].
  intros H. apply andb_true_iff in H as [Hc Hw]. apply negb_true_iff in Hc.
  rewrite Hc, (IH Hw). reflexivity.
Qed.

Section AuthorizationHeader.

Variable jwt_verify : string -> string -> Z -> option TokenPayload.
Variable JWT_SECRET : string.

Local Abbreviation AuthenticateToken := (authenticateToken jwt_verify JWT_SECRET).

Lemma authenticate_second_word (now : Z) (req : Request) (header scheme tok : string)
    (more : list string) :
  authorization (http req) = Some header ->
  split " " header = scheme :: tok :: more ->
  AuthenticateToken now req
  = if String.eqb tok ""
    then Respond (json 401 (Failure "Access token required"))
    else match jwt_verify tok JWT_SECRET now with
         | Some u => Next (mkRequest (http req) (Some u))
         | None => Respond (json 403 (Failure "Invalid token"))
         end.
Proof.
  intros Hh Hs. unfold authenticateToken. rewrite Hh.
  assert (Hne : truthy (Some header) = true).
  { simpl. destruct header; [discriminate|reflexivity]. }
  rewrite Hne, Hs. simpl.
  destruct (String.eqb tok ""); reflexivity.
Qed.

(** X4. The middleware reads the second space-separated word of the
    Authorization header and nothing else: the first word (the scheme) is not
    looked at and words after the token are dropped.  A header of one word,
    or with an empty second word (two spaces after the scheme), is answered
    401 'Access token required'; otherwise the request passes exactly when
    that word verifies, and is answered 403 'Invalid token' when it does
    not. *)
Theorem authorization_second_word (now : Z) (req : Request)
    (scheme tok rest : string) :
  no_space scheme = true -> no_space tok = true ->
  let answer :=
    if String.eqb tok ""
    then Respond (json 401 (Failure "Access token required"))
    else match jwt_verify tok JWT_SECRET now with
         | Some u => Next (mkRequest (http req) (Some u))
         | None => Respond (json 403 (Failure "Invalid token"))
         end in
  (authorization (http req) = Some (scheme ++ " " ++ tok)%string ->
   AuthenticateToken now req = answer)
  /\ (authorization (http req) = Some (scheme ++ " " ++ tok ++ " " ++ rest)%string ->
      AuthenticateToken now req = answer)
  /\ (authorization (http req) = Some scheme ->
      AuthenticateToken now req
      = Respond (json 401 (Failure "Access token required"))).
Proof.
  intros Hscheme Htok answer. repeat split.
  - intros Hh.
    apply (authenticate_second_word now req (scheme ++ " " ++ tok) scheme tok []);
      auto.
    change (scheme ++ " " ++ tok)%string with (scheme ++ String " " tok)%string.
    now rewrite split_first_word, split_no_space.
  - intros Hh.
    apply (authenticate_second_word now req (scheme ++ " " ++ tok ++ " " ++ rest)
             scheme tok (split " " rest)); auto.
    change (scheme ++ " " ++ tok ++ " " ++ rest)%string
      with (scheme ++ String " " (tok ++ String " " rest))%string.
    now rewrite !split_first_word.
  - intros Hh. unfold authenticateToken. rewrite Hh.
    destruct (truthy (Some scheme)) eqn:E.
    + now rewrite split_no_space.
    + rewrite E. reflexivity.
Qed.

(** X5. The tester page and the server agree on the header: for a token
    without spaces, the request [makeRequest] builds carries that token as
    its bearer token, so it passes the middleware exactly when the token
    verifies; while the page holds no token it sends no header and is
    answered 401. *)
Theorem makeRequest_token_round_trip (now : Z) (req : Request) (token : string) :
  no_space token = true ->
  authorization (http req) = makeRequest_authorization token ->
  (token = "" ->
   AuthenticateToken now req
   = Respond (json 401 (Failure "Access token required")))
  /\ (token <> "" ->
      bearer (http req) token
      /\ AuthenticateToken now req
         = match jwt_verify token JWT_SECRET now with
           | Some u => Next (mkRequest (http req) (Some u))
           | None => Respond (json 403 (Failure "Invalid token"))
           end).
Proof.
  intros Hsp Hh. unfold makeRequest_authorization in Hh. split.
  - intros ->. simpl in Hh. unfold authenticateToken. now rewrite Hh.
  - intros Hne. assert (Ht : truthy (Some token) = true).
    { simpl. apply String.eqb_neq in Hne. now rewrite Hne. }
    rewrite Ht in Hh.
    assert (Hs : split " " ("Bearer " ++ token) = ["Bearer"; token]).
    { change ("Bearer " ++ token)%string with ("Bearer" ++ String " " token)%string.
      rewrite split_first_word; [|reflexivity]. now rewrite split_no_space. }
    split.
    + exists ("Bearer " ++ token)%string. rewrite Hs. auto.
    + rewrite (authenticate_second_word now req ("Bearer " ++ token) "Bearer"
                 token [] Hh Hs).
      apply String.eqb_neq in Hne. now rewrite Hne.
Qed.

End AuthorizationHeader.

(** A header with another scheme and words after the token. *)
Lemma authorization_second_word_witness :
  authenticateToken Sample.jwt_verify Sample.secret 500
    (incoming (mkHttp (Some "Token alice@example.com and more") 0 None None None
                      None))
  = Next (authenticated Sample.alice_token
            (mkHttp (Some "Token alice@example.com and more") 0 None None None
                    None)).
Proof.
  destruct (authorization_second_word Sample.jwt_verify Sample.secret 500
              (incoming (mkHttp (Some "Token alice@example.com and more") 0 None
                                None None None))
              "Token" "alice@example.com" "and more" eq_refl eq_refl)
    as [_ [H _]].
  exact (H eq_refl).
Defined.

(** The header the page sends for carol's token. *)
Lemma makeRequest_token_round_trip_witness :
  bearer (mkHttp (makeRequest_authorization "carol@example.com") 0 None None None
                 None)
         "carol@example.com"
  /\ authenticateToken Sample.jwt_verify Sample.secret 500
       (incoming (mkHttp (makeRequest_authorization "carol@example.com") 0 None
                         None None None))
     = Next (authenticated Sample.carol_token
               (mkHttp (Some "Bearer carol@example.com") 0 None None None None)).
Proof.
  destruct (makeRequest_token_round_trip Sample.jwt_verify Sample.secret 500
              (incoming (mkHttp (makeRequest_authorization "carol@example.com") 0
                                None None None None))
              "carol@example.com" eq_refl eq_refl) as [_ H].
  apply H. discriminate.
Defined.


(** ** Registration *)

Lemma missing_truthy (v : option string) : missing v <-> truthy v = false.
Proof.
  unfold missing. destruct v as [s|]; simpl.
  - rewrite negb_false_iff, String.eqb_eq. split.
    + intros [H|H]; [discriminate | congruence].
    + intros ->. now right.
  - split; auto.
Qed.

Lemma present_truthy (s : string) : s <> "" -> truthy (Some s) = true.
Proof. intros H. simpl. apply String.eqb_neq in H. now rewrite H. Qed.

Lemma no_row_existsb {A : Type} (f : A -> bool) (l : list A) :
  (forall x, In x l -> f x = false) -> existsb f l = false.
Proof.
  intros H. apply not_true_is_false. intros E.
  apply existsb_exists in E as [x [Hin Hx]]. rewrite (H x Hin) in Hx. discriminate.
Qed.

Lemma existsb_pointwise {A : Type} (f g : A -> bool) (l : list A) :
  (forall x, f x = g x) -> existsb f l = existsb g l.
Proof.
  intros H. induction l as [|x l IH]; simpl; [reflexivity|].
  now rewrite H, IH.
Qed.

(** No row has the id the table will hand out next. *)
Lemma next_id_unused {R : Type} (id : R -> Z) (t : Table R) :
  primary_key id t -> filter (fun r => id r =? next_id t) (rows t) = [].
Proof.
  intros [_ Hlt]. apply filter_nil_existsb. apply no_row_existsb.
  rewrite Forall_forall in Hlt. intros x Hx. specialize (Hlt x Hx).
  apply Z.eqb_neq. lia.
Qed.

Section Registration.

Variable collation : string -> string.
Variable bcrypt_hash : string -> Z -> string -> string.
Variable bcrypt_compare : string -> string -> bool.
Variable jwt_sign : TokenPayload -> string -> Z -> Z -> string.
Variable JWT_SECRET : string.

Local Abbreviation Login :=
  (login collation bcrypt_compare jwt_sign JWT_SECRET).
Local Abbreviation Register :=
  (register collation bcrypt_hash jwt_sign JWT_SECRET).

(** X6. A registration with a field absent or empty is answered 400 'All
    fields are required', and one whose email a user already has (as the
    collation of the column compares emails) is answered 400 'User already
    exists'; both change nothing.  The username is not looked up: a
    registration with a new email and a username that is taken reaches the
    INSERT, which the UNIQUE key on username refuses, and is answered 500
    with no user stored. *)
Theorem register_rejections (now later : Z) (salt : string) (req : Request)
    (db : DB) :
  let result := Register now later salt req db in
  (missing (body_username (http req)) \/ missing (body_email (http req))
   \/ missing (body_password (http req)) ->
   result = (json 400 (Failure "All fields are required"), db))
  /\ (forall name mail pw,
        body_username (http req) = Some name -> name <> "" ->
        body_email (http req) = Some mail -> mail <> "" ->
        body_password (http req) = Some pw -> pw <> "" ->
        ((exists x, In x (rows (users db))
                    /\ collation (Users.email x) = collation mail) ->
         result = (json 400 (Failure "User already exists"), db))
        /\ ((forall x, In x (rows (users db)) ->
                       collation (Users.email x) <> collation mail) ->
            (exists x, In x (rows (users db))
                       /\ collation (Users.username x) = collation name) ->
            strlen name <= 50 -> strlen mail <= 100 ->
            strlen (bcrypt_hash pw 10 salt) <= 255 ->
            fst result = json 500 (Failure "Internal server error")
            /\ rows (users (snd result)) = rows (users db))).
Proof.
  intros result. split.
  - intros H.
    assert (E : negb (truthy (body_username (http req)))
                || negb (truthy (body_email (http req)))
                || negb (truthy (body_password (http req))) = true).
    { rewrite !missing_truthy in H.
      destruct H as [H|[H|H]]; rewrite H; simpl;
        rewrite ?orb_true_r; reflexivity. }
    unfold result, register, try_catch, bind. now rewrite E.
  - intros name mail pw Hn Hn0 Hm Hm0 Hp Hp0.
    apply present_truthy in Hn0, Hm0, Hp0.
    unfold result, register, try_catch, bind, bind_param, bcrypt_arg.
    rewrite Hn, Hm, Hp, Hn0, Hm0, Hp0. simpl. rewrite length_pos_existsb. split.
    + intros [x [Hin Hx]].
      assert (E : existsb (fun u => equal_under collation (Users.email u) mail)
                          (rows (users db)) = true).
      { apply existsb_exists. exists x. split; [assumption|].
        now apply equal_under_true. }
      now rewrite E.
    + intros Hfree [x [Hin Hx]] Ln Lm Lh.
      assert (E : existsb (fun u => equal_under collation (Users.email u) mail)
                          (rows (users db)) = false).
      { apply no_row_existsb. intros y Hy. apply equal_under_false. auto. }
      assert (E2 : existsb (fun u => equal_under collation (Users.username u) name
                                     || equal_under collation (Users.email u) mail)
                           (rows (users db)) = true).
      { apply existsb_exists. exists x. split; [assumption|].
        apply orb_true_iff. left. now apply equal_under_true. }
      apply Z.ltb_ge in Ln, Lm, Lh.
      rewrite E. simpl. unfold insert_user. rewrite Ln, Lm, Lh, E2. simpl. auto.
Qed.

(** A username and an email that the keys of users let in. *)
Lemma free_name_and_email (db : DB) (name mail : string) :
  (forall x, In x (rows (users db)) ->
             collation (Users.username x) <> collation name
             /\ collation (Users.email x) <> collation mail) ->
  existsb (fun u => equal_under collation (Users.email u) mail) (rows (users db))
  = false
  /\ existsb (fun u => equal_under collation (Users.username u) name
                       || equal_under collation (Users.email u) mail)
             (rows (users db))
     = false.
Proof.
  intros Hfree. split; apply no_row_existsb; intros y Hy;
    destruct (Hfree y Hy) as [H1 H2].
  - now apply equal_under_false.
  - apply orb_false_iff. now rewrite !equal_under_false.
Qed.

(** X7. A registration with the three fields present, fitting their
    columns, and a username and an email nobody has (as the collation of the
    columns compares them), is answered 201 with a 24-hour token signed for
    the new user's id, email and is_admin and with the new row but for its
    password_hash; it appends that one row, with the next id of the table,
    the bcrypt hash (10 rounds) of the password and the time of the INSERT,
    and changes nothing else. *)
Theorem register_creates (now later : Z) (salt : string) (req : Request) (db : DB)
    (name mail pw : string) :
  primary_key Users.id (users db) ->
  body_username (http req) = Some name -> name <> "" -> strlen name <= 50 ->
  body_email (http req) = Some mail -> mail <> "" -> strlen mail <= 100 ->
  body_password (http req) = Some pw -> pw <> "" ->
  strlen (bcrypt_hash pw 10 salt) <= 255 ->
  (forall x, In x (rows (users db)) ->
             collation (Users.username x) <> collation name
             /\ collation (Users.email x) <> collation mail) ->
  let id := next_id (users db) in
  let admin := isAdmin_of_email mail in
  Register now later salt req db
  = (json 201
       (Success
          (DAuth (jwt_sign (mkPayload id mail admin) JWT_SECRET later (24 * 60 * 60))
                 (mkUserView id name mail admin now))),
     set_users
       (mkTable (rows (users db)
                 ++ [Users.mk id name mail (bcrypt_hash pw 10 salt) admin now])
                (id + 1)) db).
Proof.
  intros Hpk Hn Hn0 Ln Hm Hm0 Lm Hp Hp0 Lh Hfree id admin.
  apply present_truthy in Hn0, Hm0, Hp0. apply Z.ltb_ge in Ln, Lm, Lh.
  destruct (free_name_and_email db name mail Hfree) as [E E2].
  unfold register, try_catch, bind, bind_param, bcrypt_arg.
  rewrite Hn, Hm, Hp, Hn0, Hm0, Hp0. simpl. rewrite length_pos_existsb, E. simpl.
  unfold insert_user. rewrite Ln, Lm, Lh, E2.
  simpl. rewrite filter_app, (next_id_unused Users.id (users db) Hpk).
  simpl. rewrite Z.eqb_refl. reflexivity.
Qed.

(** X8. Register, then log in.  After a registration that went through, a
    login with an email that the collation of the column equates with the
    registered one (the registered email itself, or for a case-insensitive
    collation the same email in other capitals) is decided by bcrypt's
    [compare] of the submitted password against the hash stored for the
    registered one: accepted, it is answered 200 with a token for the new
    user and the user record the registration answered with; rejected, 401
    'Invalid credentials'.  The login changes nothing. *)
Theorem register_then_login (now later at_login : Z) (salt : string)
    (req attempt : Request) (db : DB) (name mail pw typed guess : string) :
  body_username (http req) = Some name -> name <> "" -> strlen name <= 50 ->
  body_email (http req) = Some mail -> mail <> "" -> strlen mail <= 100 ->
  body_password (http req) = Some pw -> pw <> "" ->
  strlen (bcrypt_hash pw 10 salt) <= 255 ->
  (forall x, In x (rows (users db)) ->
             collation (Users.username x) <> collation name
             /\ collation (Users.email x) <> collation mail) ->
  body_email (http attempt) = Some typed -> collation typed = collation mail ->
  body_password (http attempt) = Some guess ->
  let db' := snd (Register now later salt req db) in
  let id := next_id (users db) in
  let admin := isAdmin_of_email mail in
  Login at_login attempt db'
  = (if bcrypt_compare guess (bcrypt_hash pw 10 salt)
     then json 200
            (Success
               (DAuth (jwt_sign (mkPayload id mail admin) JWT_SECRET at_login
                                (24 * 60 * 60))
                      (mkUserView id name mail admin now)))
     else json 401 (Failure "Invalid credentials"),
     db').
Proof.
  intros Hn Hn0 Ln Hm Hm0 Lm Hp Hp0 Lh Hfree Am Htyped Ap db' id admin.
  apply present_truthy in Hn0, Hm0, Hp0. apply Z.ltb_ge in Ln, Lm, Lh.
  destruct (free_name_and_email db name mail Hfree) as [E E2].
  assert (Hdb : db' = set_users
                        (append_row (users db)
                           (fun i => Users.mk i name mail (bcrypt_hash pw 10 salt)
                                              (isAdmin_of_email mail) now)) db).
  { unfold db', register, try_catch, bind, bind_param, bcrypt_arg.
    rewrite Hn, Hm, Hp, Hn0, Hm0, Hp0. simpl. rewrite length_pos_existsb, E. simpl.
    unfold insert_user. rewrite Ln, Lm, Lh, E2. simpl.
    rewrite filter_app. simpl. rewrite Z.eqb_refl.
    destruct (filter _ (rows (users db))); reflexivity. }
  rewrite Hdb. unfold login, try_catch, bind, bind_param, bcrypt_arg.
  rewrite Am, Ap. simpl. rewrite filter_app. simpl.
  assert (Esame : equal_under collation mail typed = true).
  { now apply equal_under_true. }
  rewrite Esame.
  assert (Enone : filter (fun u => equal_under collation (Users.email u) typed)
                         (rows (users db)) = []).
  { apply filter_nil_existsb.
    rewrite (existsb_pointwise
               (fun u => equal_under collation (Users.email u) typed)
               (fun u => equal_under collation (Users.email u) mail));
      [exact E|].
    intros u. unfold equal_under. now rewrite Htyped. }
  rewrite Enone. simpl.
  destruct (bcrypt_compare guess (bcrypt_hash pw 10 salt)); reflexivity.
Qed.

End Registration.

(** Nobody in the sample database is called dave, in any capitals. *)
Lemma sample_names_free (x : Users.row) :
  In x (rows (users Sample.db)) ->
  Sample.collation (Users.username x) <> Sample.collation "Dave"
  /\ Sample.collation (Users.email x) <> Sample.collation "dave_admin@gmail.com".
Proof. simpl. intros [<-|[<-|[<-|[]]]]; split; discriminate. Qed.

(** Dave registers on the sample database. *)
Lemma register_creates_witness :
  register Sample.collation Sample.bcrypt_hash Sample.jwt_sign Sample.secret
           400 401 "s4"
           (incoming (mkHttp None 0 (Some "Dave") (Some "dave_admin@gmail.com")
                             (Some "drums") None))
           Sample.db
  = (json 201
       (Success (DAuth "dave_admin@gmail.com"
                       (mkUserView 4 "Dave" "dave_admin@gmail.com" true 400))),
     set_users
       (mkTable [Sample.alice; Sample.bob; Sample.carol;
                 Users.mk 4 "Dave" "dave_admin@gmail.com" "s4$drums" true 400]
                5)
       Sample.db).
Proof.
  apply (register_creates Sample.collation Sample.bcrypt_hash Sample.jwt_sign
           Sample.secret 400 401 "s4"
           (incoming (mkHttp None 0 (Some "Dave") (Some "dave_admin@gmail.com")
                             (Some "drums") None))
           Sample.db "Dave" "dave_admin@gmail.com" "drums");
    try reflexivity; try discriminate.
  - exact (users_pk Sample.db sample_consistent).
  - exact sample_names_free.
Defined.

(** Dave registers, and logs in with the same password and his email typed
    in capitals. *)
Lemma register_then_login_witness :
  login Sample.collation Sample.bcrypt_compare Sample.jwt_sign Sample.secret 500
        (incoming (mkHttp None 0 None (Some "DAVE_ADMIN@GMAIL.COM")
                          (Some "drums") None))
        (snd (register Sample.collation Sample.bcrypt_hash Sample.jwt_sign
                       Sample.secret 400 401 "s4"
                       (incoming (mkHttp None 0 (Some "Dave")
                                         (Some "dave_admin@gmail.com")
                                         (Some "drums") None))
                       Sample.db))
  = (json 200
       (Success (DAuth "dave_admin@gmail.com"
                       (mkUserView 4 "Dave" "dave_admin@gmail.com" true 400))),
     snd (register Sample.collation Sample.bcrypt_hash Sample.jwt_sign
                   Sample.secret 400 401 "s4"
                   (incoming (mkHttp None 0 (Some "Dave")
                                     (Some "dave_admin@gmail.com")
                                     (Some "drums") None))
                   Sample.db)).
Proof.
  apply (register_then_login Sample.collation Sample.bcrypt_hash
           Sample.bcrypt_compare Sample.jwt_sign Sample.secret 400 401 500 "s4"
           (incoming (mkHttp None 0 (Some "Dave") (Some "dave_admin@gmail.com")
                             (Some "drums") None))
           (incoming (mkHttp None 0 None (Some "DAVE_ADMIN@GMAIL.COM")
                             (Some "drums") None))
           Sample.db "Dave" "dave_admin@gmail.com" "drums" "DAVE_ADMIN@GMAIL.COM"
           "drums");
    try reflexivity; try discriminate.
  exact sample_names_free.
Defined.

(** Under the case-insensitive collation of the sample server a registration
    with alice's email in capitals is answered 'User already exists', and one
    with a new email and her username with a capital is refused by the UNIQUE
    key on username. *)
Example register_email_in_capitals :
  register Sample.collation Sample.bcrypt_hash Sample.jwt_sign Sample.secret
           400 401 "s4"
           (incoming (mkHttp None 0 (Some "alice2") (Some "ALICE@example.com")
                             (Some "looking-glass") None))
           Sample.db
  = (json 400 (Failure "User already exists"), Sample.db).
Proof. reflexivity. Qed.

Example register_username_with_capital :
  register Sample.collation Sample.bcrypt_hash Sample.jwt_sign Sample.secret
           400 401 "s4"
           (incoming (mkHttp None 0 (Some "Alice") (Some "alice2@example.com")
                             (Some "looking-glass") None))
           Sample.db
  = (json 500 (Failure "Internal server error"),
     set_users (mkTable (rows (users Sample.db)) 5) Sample.db).
Proof. reflexivity. Qed.

(** ** Posts and comments *)

Lemma inner_join_snoc {A B : Type} (on : A -> B -> bool) (l : list A) (x : A)
    (r : list B) :
  inner_join on (l ++ [x]) r = inner_join on l r ++ map (pair x) (filter (on x) r).
Proof. unfold inner_join. rewrite flat_map_app. simpl. now rewrite app_nil_r. Qed.

Lemma inner_join_none {A B : Type} (on : A -> B -> bool) (keep : A -> bool)
    (l : list A) (r : list B) :
  (forall a, In a l -> keep a = false) ->
  filter (fun ab => keep (fst ab)) (inner_join on l r) = [].
Proof.
  intros H. apply filter_nil_existsb. apply no_row_existsb.
  intros [a b] Hin. apply in_inner_join in Hin as [Ha _]. simpl. auto.
Qed.

(** The row of the parent table a FOREIGN KEY points to. *)
Lemma select_parent {R : Type} (id : R -> Z) (l : list R) (r : R) (k : Z) :
  NoDup (map id l) -> In r l -> id r = k ->
  filter (fun x => k =? id x) l = [r].
Proof.
  intros Hnd Hin <-. rewrite <- (select_by_key id l r Hnd Hin).
  apply filter_ext. intros x. apply Z.eqb_sym.
Qed.

Lemma below_next_id {R : Type} (id : R -> Z) (t : Table R) (r : R) :
  primary_key id t -> In r (rows t) -> (id r =? next_id t) = false.
Proof.
  intros [_ Hlt] Hin. rewrite Forall_forall in Hlt. specialize (Hlt r Hin).
  apply Z.eqb_neq. lia.
Qed.

(** ORDER BY key ASC gives the rows by increasing key. *)
Lemma order_by_asc_sorted {A : Type} (key : A -> Z) (l : list A) :
  StronglySorted (fun a b => key a <= key b) (order_by (asc key) l).
Proof.
  apply (StronglySorted_weaken (fun a b => asc key a b = true));
    [|apply (order_by_sorted (asc key))]; unfold asc.
  - intros a b H. now apply Z.leb_le in H.
  - intros a b H. apply Z.leb_gt in H. apply Z.leb_le. lia.
  - intros a b c H1 H2. apply Z.leb_le in H1, H2. apply Z.leb_le. lia.
Qed.

(** X9. POST /api/posts with no content, or an empty one, is answered 400
    and stores nothing; with content that fits the TEXT column the post is
    stored as one new row, owned by the user of the token and dated by the
    INSERT, nothing else changes, and the answer is 201 with that row and
    its author's username. *)
Theorem create_post_effect (now : Z) (u : TokenPayload) (h : HttpRequest) (db : DB) :
  consistent db ->
  let me := tok_userId u in
  let result := create_post now (authenticated u h) db in
  (missing (body_content h) ->
   result = (json 400 (Failure "Content is required"), db))
  /\ (forall text author,
        body_content h = Some text -> text <> "" -> strlen text <= 65535 ->
        In author (rows (users db)) -> Users.id author = me ->
        let post := Posts.mk (next_id (posts db)) me text now in
        result
        = (json 201
             (Success (DPost (Some (mkPostView post (Users.username author))))),
           set_posts (mkTable (rows (posts db) ++ [post])
                              (next_id (posts db) + 1)) db)).
Proof.
  intros Hc me result. split.
  - intros H. apply missing_truthy in H.
    unfold result, create_post, try_catch, bind, req_userId, authenticated. simpl.
    now rewrite H.
  - intros text author Hbody Htext Hlen Hin Hid. apply present_truthy in Htext.
    unfold result, create_post, try_catch, bind, req_userId, authenticated. simpl.
    rewrite Hbody, Htext. simpl. unfold insert_post.
    apply Z.ltb_ge in Hlen. rewrite Hlen.
    assert (Hu : user_exists (tok_userId u) db = true).
    { apply is_user_exists. now exists author. }
    rewrite Hu. simpl. unfold posts_with_author. simpl.
    rewrite inner_join_snoc, filter_app.
    rewrite (inner_join_none _ (fun p => Posts.id p =? next_id (posts db))).
    2:{ intros p Hp. apply (below_next_id Posts.id (posts db) p); auto.
        apply (posts_pk db Hc). }
    simpl.
    rewrite (select_parent Users.id (rows (users db)) author (tok_userId u));
      auto.
    2:{ apply (users_pk db Hc). }
    simpl. rewrite Z.eqb_refl. reflexivity.
Qed.

(** Who wrote what, as the JOIN of posts and users pairs them. *)
Lemma in_posts_with_author (db : DB) (p : Posts.row) (a : Users.row) :
  In (p, a) (posts_with_author db)
  <-> In p (rows (posts db)) /\ In a (rows (users db))
      /\ Users.id a = Posts.user_id p.
Proof.
  unfold posts_with_author. rewrite in_inner_join. rewrite Z.eqb_eq.
  intuition congruence.
Qed.

Lemma in_comments_with_author (db : DB) (c : Comments.row) (a : Users.row) :
  In (c, a) (comments_with_author db)
  <-> In c (rows (comments db)) /\ In a (rows (users db))
      /\ Users.id a = Comments.user_id c.
Proof.
  unfold comments_with_author. rewrite in_inner_join. rewrite Z.eqb_eq.
  intuition congruence.
Qed.

(** X10. GET /api/posts needs no token, changes nothing and answers 200
    with every post, once, beside the username of its author, newest
    first. *)
Theorem get_posts_contents (req : Request) (db : DB) :
  consistent db ->
  exists items,
    get_posts req db = (json 200 (Success (DPosts items)), db)
    /\ (forall item,
          In item items <->
          exists post author,
            In post (rows (posts db)) /\ In author (rows (users db))
            /\ Users.id author = Posts.user_id post
            /\ item = mkPostView post (Users.username author))
    /\ Permutation (map pv_post items) (rows (posts db))
    /\ StronglySorted
         (fun a b => Posts.created_at (pv_post a) >= Posts.created_at (pv_post b))
         items.
Proof.
  intros Hc.
  set (sorted := order_by (desc (fun pu : Posts.row * Users.row =>
                                   Posts.created_at (fst pu)))
                          (posts_with_author db)).
  assert (Hperm : Permutation sorted (posts_with_author db))
    by apply order_by_perm.
  exists (map post_view sorted). split; [reflexivity|]. split; [|split].
  - intros item. rewrite in_map_iff. split.
    + intros [[post author] [<- H]]. apply (Permutation_in _ Hperm) in H.
      apply in_posts_with_author in H. exists post, author.
      unfold post_view. simpl. tauto.
    + intros [post [author [Hp [Ha [Hid ->]]]]]. exists (post, author).
      split; [reflexivity|].
      apply (Permutation_in _ (Permutation_sym Hperm)).
      apply in_posts_with_author. tauto.
  - rewrite map_map. simpl.
    rewrite (Permutation_map fst Hperm).
    unfold posts_with_author, inner_join.
    pose proof (posts_user_fk db Hc) as Hfk. unfold references in Hfk.
    pose proof (users_pk db Hc) as [Hnd _].
    induction (rows (posts db)) as [|p l IH]; simpl; [constructor|].
    inversion Hfk as [|? ? Hp Hl]; subst.
    apply is_user_exists in Hp as [author [Ha Hid]].
    rewrite (select_parent Users.id (rows (users db)) author (Posts.user_id p));
      auto.
    simpl. constructor. now apply IH.
  - apply StronglySorted_map.
    apply (order_by_desc_sorted
             (fun pu : Posts.row * Users.row => Posts.created_at (fst pu))).
Qed.

(** Alice posts on the sample database. *)
Lemma create_post_effect_witness :
  create_post 400 (authenticated Sample.alice_token
                     (mkHttp None 0 None None None (Some "third")))
              Sample.db
  = (json 201
       (Success (DPost (Some (mkPostView (Posts.mk 4 1 "third" 400) "alice")))),
     set_posts (mkTable (rows (posts Sample.db) ++ [Posts.mk 4 1 "third" 400]) 5)
               Sample.db).
Proof.
  destruct (create_post_effect 400 Sample.alice_token
              (mkHttp None 0 None None None (Some "third")) Sample.db
              sample_consistent) as [_ H].
  apply (H "third" Sample.alice);
    [reflexivity | discriminate | vm_compute; discriminate | simpl; auto
    | reflexivity].
Defined.

(** The three posts of the sample database, newest first. *)
Lemma get_posts_contents_witness :
  exists items,
    get_posts (incoming (on_param 0)) Sample.db
    = (json 200 (Success (DPosts items)), Sample.db)
    /\ map (fun item => (Posts.id (pv_post item), pv_username item)) items
       = [(3, "carol"); (2, "bob"); (1, "alice")].
Proof.
  destruct (get_posts_contents (incoming (on_param 0)) Sample.db
              sample_consistent) as [items [H _]].
  exists items. split; [exact H|].
  inversion H. reflexivity.
Defined.


(** Joining child rows to the parent their FOREIGN KEY names gives each
    child row once. *)
Lemma join_parent_once {C P : Type} (fk : C -> Z) (pid : P -> Z) (keep : C -> bool)
    (children : list C) (parents : list P) :
  NoDup (map pid parents) ->
  Forall (fun c => existsb (fun p => pid p =? fk c) parents = true) children ->
  map fst (filter (fun cp => keep (fst cp))
                  (inner_join (fun c p => fk c =? pid p) children parents))
  = filter keep children.
Proof.
  intros Hnd. unfold inner_join.
  induction children as [|c l IH]; simpl; [reflexivity|].
  intros Hfk. inversion Hfk as [|? ? Hc Hl]; subst.
  apply existsb_exists in Hc as [parent [Hin Hid]]. apply Z.eqb_eq in Hid.
  rewrite (select_parent pid parents parent (fk c)); auto.
  simpl. destruct (keep c); simpl; now rewrite IH.
Qed.

(** The post a handler reads back with SELECT user_id FROM posts WHERE id = ?. *)
Lemma select_post_owner (db : DB) (pid : Z) :
  consistent db -> is_post db pid ->
  exists post rest,
    filter (fun p => Posts.id p =? pid) (rows (posts db)) = post :: rest
    /\ In post (rows (posts db)) /\ Posts.id post = pid
    /\ user_exists (Posts.user_id post) db = true.
Proof.
  intros Hc Hp. apply is_post_exists in Hp.
  destruct (existsb_filter_cons _ _ Hp) as [post [rest [Hf [Hin Hid]]]].
  exists post, rest. repeat split; auto; [lia|].
  exact (references_In _ _ _ _ (posts_user_fk db Hc) Hin).
Qed.

(** X11. POST /api/posts/:postId/comments with no content, or an empty one,
    is answered 400 and stores nothing.  With content that fits the column,
    a comment on a post that does not exist is answered 500 and stores no
    comment and no notification, and a comment on an existing post is stored
    as one new row (author, post, content, time of the INSERT) and answered
    201 with that row and its author's username. *)
Theorem add_comment_effect (now later : Z) (u : TokenPayload) (h : HttpRequest)
    (db : DB) :
  consistent db ->
  let me := tok_userId u in
  let postId := param h in
  let result := add_comment now later (authenticated u h) db in
  (missing (body_content h) ->
   result = (json 400 (Failure "Content is required"), db))
  /\ (forall text,
        body_content h = Some text -> text <> "" -> strlen text <= 65535 ->
        (~ is_post db postId ->
         fst result = json 500 (Failure "Internal server error")
         /\ rows (comments (snd result)) = rows (comments db)
         /\ notifications (snd result) = notifications db)
        /\ (forall author,
              is_post db postId ->
              In author (rows (users db)) -> Users.id author = me ->
              let comment :=
                Comments.mk (next_id (comments db)) me postId text now in
              fst result
              = json 201
                  (Success (DComment (Some (mkCommentView comment
                                              (Users.username author)))))
              /\ rows (comments (snd result)) = rows (comments db) ++ [comment])).
Proof.
  intros Hc me postId result. split.
  - intros H. apply missing_truthy in H.
    unfold result, add_comment, try_catch, bind, req_userId, authenticated. simpl.
    now rewrite H.
  - intros text Hbody Htext Hlen.
    apply present_truthy in Htext. apply Z.ltb_ge in Hlen.
    unfold result, add_comment, try_catch, bind, req_userId, authenticated. simpl.
    rewrite Hbody, Htext. simpl. unfold insert_comment. rewrite Hlen. split.
    + intros Hno. rewrite is_post_exists in Hno. apply not_true_is_false in Hno.
      fold postId. rewrite Hno, andb_false_r. simpl. auto.
    + intros author Hp Hin Hid.
      assert (Hu : user_exists (tok_userId u) db = true).
      { apply is_user_exists. now exists author. }
      destruct (select_post_owner db postId Hc Hp)
        as [post [rest [Hf [Hpost [Hpid Ho]]]]].
      apply is_post_exists in Hp. fold postId. rewrite Hu, Hp. simpl.
      unfold comments_with_author. simpl.
      rewrite inner_join_snoc, filter_app.
      rewrite (inner_join_none _ (fun c => Comments.id c =? next_id (comments db))).
      2:{ intros c Hin'. apply (below_next_id Comments.id (comments db) c); auto.
          apply (comments_pk db Hc). }
      simpl.
      rewrite (select_parent Users.id (rows (users db)) author (tok_userId u));
        auto.
      2:{ apply (users_pk db Hc). }
      simpl. rewrite Z.eqb_refl. simpl. fold postId. rewrite Hf. simpl.
      destruct (Posts.user_id post =? tok_userId u); simpl; [auto|].
      unfold insert_notification, user_exists, post_exists in *. simpl.
      rewrite Ho, Hu, Hp. simpl. auto.
Qed.

(** X12. GET /api/posts/:postId/comments needs no token, changes nothing
    and answers 200 with the comments of that post, each once, beside the
    username of its author, oldest first; for an id that names no post the
    answer is still 200, with an empty list. *)
Theorem get_comments_contents (req : Request) (db : DB) :
  consistent db ->
  let postId := param (http req) in
  exists items,
    get_comments req db = (json 200 (Success (DComments items)), db)
    /\ (forall item,
          In item items <->
          exists comment author,
            In comment (rows (comments db)) /\ Comments.post_id comment = postId
            /\ In author (rows (users db))
            /\ Users.id author = Comments.user_id comment
            /\ item = mkCommentView comment (Users.username author))
    /\ Permutation (map cv_comment items)
                   (filter (fun c => Comments.post_id c =? postId)
                           (rows (comments db)))
    /\ StronglySorted
         (fun a b => Comments.created_at (cv_comment a)
                     <= Comments.created_at (cv_comment b))
         items
    /\ (~ is_post db postId -> items = []).
Proof.
  intros Hc postId.
  set (joined := filter (fun cu : Comments.row * Users.row =>
                           Comments.post_id (fst cu) =? postId)
                        (comments_with_author db)).
  set (sorted := order_by (asc (fun cu : Comments.row * Users.row =>
                                  Comments.created_at (fst cu))) joined).
  assert (Hperm : Permutation sorted joined) by apply order_by_perm.
  assert (Hcomments : Permutation (map cv_comment (map comment_view sorted))
                        (filter (fun c => Comments.post_id c =? postId)
                                (rows (comments db)))).
  { rewrite map_map. simpl. rewrite (Permutation_map fst Hperm).
    unfold joined, comments_with_author.
    rewrite (join_parent_once Comments.user_id Users.id
               (fun c => Comments.post_id c =? postId)); [reflexivity| |].
    - apply (users_pk db Hc).
    - apply (comments_user_fk db Hc). }
  exists (map comment_view sorted). split; [reflexivity|].
  split; [|split; [exact Hcomments|split]].
  - intros item. rewrite in_map_iff. split.
    + intros [[comment author] [<- H]]. apply (Permutation_in _ Hperm) in H.
      apply filter_In in H as [H Hp]. apply in_comments_with_author in H.
      simpl in Hp. exists comment, author. unfold comment_view. simpl.
      repeat split; try tauto. lia.
    + intros [comment [author [Hin [Hp [Ha [Hid ->]]]]]]. exists (comment, author).
      split; [reflexivity|].
      apply (Permutation_in _ (Permutation_sym Hperm)).
      apply filter_In. split; [apply in_comments_with_author; tauto|].
      simpl. lia.
  - apply StronglySorted_map.
    apply (order_by_asc_sorted
             (fun cu : Comments.row * Users.row => Comments.created_at (fst cu))).
  - intros Hno.
    assert (E : filter (fun c => Comments.post_id c =? postId) (rows (comments db))
                = []).
    { apply filter_nil_existsb. apply no_row_existsb. intros c Hin.
      apply Z.eqb_neq. intros Heq. apply Hno. apply is_post_exists.
      rewrite <- Heq.
      exact (references_In _ _ _ _ (comments_post_fk db Hc) Hin). }
    rewrite E in Hcomments. apply Permutation_sym, Permutation_nil in Hcomments.
    now apply map_eq_nil in Hcomments.
Qed.

(** The two comments and the notifications they wrote. *)
Lemma commented_rows :
  rows (comments commented)
  = [Comments.mk 1 2 1 "nice" 400; Comments.mk 2 3 1 "welcome" 410]
  /\ rows (notifications commented)
     = rows (notifications Sample.db)
       ++ [Notifications.mk 3 1 "comment" 2 (Some 1) false 400;
           Notifications.mk 4 1 "comment" 3 (Some 1) false 410].
Proof. split; reflexivity. Qed.

(** The sample database with its comments satisfies the schema. *)
Lemma commented_consistent : consistent commented.
Proof.
  constructor; unfold primary_key, references; simpl.
  1-6: split; [concrete_nodup | repeat constructor].
  1-2: concrete_nodup.
  - intros uid pid. simpl. destruct (likes_match uid pid _); simpl; lia.
  - intros a b. simpl. destruct (follows_match a b _); simpl; lia.
  - repeat constructor.
  - repeat constructor.
  - repeat constructor.
  - repeat constructor.
  - repeat constructor.
  - repeat constructor.
  - repeat constructor.
  - repeat constructor.
  - repeat constructor.
  - repeat constructor.
Qed.

(** Bob comments on alice's post. *)
Lemma add_comment_effect_witness :
  fst (add_comment 400 401
         (authenticated Sample.bob_token
            (mkHttp None 1 None None None (Some "nice")))
         Sample.db)
  = json 201
      (Success (DComment (Some (mkCommentView (Comments.mk 1 2 1 "nice" 400)
                                              "bob"))))
  /\ rows (comments
             (snd (add_comment 400 401
                     (authenticated Sample.bob_token
                        (mkHttp None 1 None None None (Some "nice")))
                     Sample.db)))
     = [Comments.mk 1 2 1 "nice" 400].
Proof.
  destruct (add_comment_effect 400 401 Sample.bob_token
              (mkHttp None 1 None None None (Some "nice")) Sample.db
              sample_consistent) as [_ H].
  destruct (H "nice" eq_refl) as [_ H'];
    [discriminate | vm_compute; discriminate |].
  apply (H' Sample.bob); [|simpl; auto | reflexivity].
  exists (Posts.mk 1 1 "hello" 200). simpl. auto.
Defined.

(** The comments on alice's post, oldest first. *)
Lemma get_comments_contents_witness :
  exists items,
    get_comments (incoming (on_param 1)) commented
    = (json 200 (Success (DComments items)), commented)
    /\ map (fun item => (Comments.id (cv_comment item), cv_username item)) items
       = [(1, "bob"); (2, "carol")].
Proof.
  destruct (get_comments_contents (incoming (on_param 1)) commented
              commented_consistent) as [items [H _]].
  exists items. split; [exact H|].
  inversion H. reflexivity.
Defined.


(** ** The notification list *)
















(** ** Requests one after the other *)

(** X14. Marking a notification as read twice is marking it once: after a
    request that was answered 200, the same request is answered 200 again
    and leaves the database as the first one left it. *)
Theorem mark_notification_read_twice (u : TokenPayload) (h : HttpRequest) (db : DB) :
  let first := mark_notification_read (authenticated u h) db in
  fst first = mkResponse 200 (SuccessMessage "Notification marked as read" None) ->
  mark_notification_read (authenticated u h) (snd first) = first.
Proof.
  unfold mark_notification_read, try_catch, bind, req_userId, authenticated.
  simpl. rewrite length_zero_existsb.
  destruct (existsb _ (rows (notifications db))) eqn:E; simpl; [|discriminate].
  intros _. rewrite length_zero_existsb.
  set (mark := fun n => if Notifications.id n =? param h
                        then Notifications.mark_read n else n).
  assert (E' : existsb (fun n => (Notifications.id n =? param h)
                                 && (Notifications.user_id n =? tok_userId u))
                       (map mark (rows (notifications db))) = true).
  { apply existsb_exists in E as [n [Hin Hn]]. apply existsb_exists.
    exists (mark n). split; [now apply in_map|].
    unfold mark. destruct (Notifications.id n =? param h) eqn:En; simpl;
      rewrite ?En; exact Hn. }
  rewrite E'. simpl. unfold set_notifications. simpl.
  rewrite map_map.
  rewrite (map_ext (fun x => mark (mark x)) mark); [reflexivity|].
  intros n. unfold mark. destruct (Notifications.id n =? param h) eqn:En; simpl.
  - rewrite En. reflexivity.
  - now rewrite En.
Qed.

(** X15. An unlike takes no notification back, and liking again notifies
    again: like, unlike, like by one user on another user's post leaves the
    owner with two 'like' notifications for it. *)
Theorem relike_notifies_again (t1 t2 t3 t4 t5 t6 : Z) (u : TokenPayload)
    (h : HttpRequest) (db : DB) (post : Posts.row) :
  consistent db -> is_user db (tok_userId u) ->
  In post (rows (posts db)) -> Posts.id post = param h ->
  Posts.user_id post <> tok_userId u ->
  ~ liked db (tok_userId u) (param h) ->
  let req := authenticated u h in
  let db1 := snd (like_post t1 t2 req db) in
  let db2 := snd (like_post t3 t4 req db1) in
  let db3 := snd (like_post t5 t6 req db2) in
  let notify i t :=
    Notifications.mk i (Posts.user_id post) "like" (tok_userId u)
                     (Some (param h)) false t in
  rows (notifications db1)
  = rows (notifications db) ++ [notify (next_id (notifications db)) t2]
  /\ rows (notifications db2) = rows (notifications db1)
  /\ rows (notifications db3)
     = rows (notifications db)
       ++ [notify (next_id (notifications db)) t2;
           notify (next_id (notifications db) + 1) t6].
Proof.
  intros Hc Hme Hin Hid Hother Hl req db1 db2 db3 notify.
  apply Z.eqb_neq in Hother.
  assert (H1 : db1 = set_notifications
                       (append_row (notifications db) (fun i => notify i t2))
                       (set_likes (append_row (likes db)
                                     (fun i => Likes.mk i (tok_userId u) (param h) t1))
                                  db)).
  { unfold db1, req.
    rewrite (like_post_absent t1 t2 u h db post (posts_pk db Hc)
               (posts_user_fk db Hc) Hme Hin Hid Hl).
    simpl. now rewrite Hother. }
  assert (Hl1 : liked db1 (tok_userId u) (param h)).
  { rewrite H1. exists (Likes.mk (next_id (likes db)) (tok_userId u) (param h) t1).
    simpl. split; [apply in_or_app; right; left; reflexivity | auto]. }
  assert (H2 : db2 = set_likes
                       (mkTable (filter (fun l => negb (likes_match (tok_userId u)
                                                          (param h) l))
                                        (rows (likes db1)))
                                (next_id (likes db1))) db1).
  { unfold db2, req. now rewrite (like_post_present t3 t4 u h db1 Hl1). }
  assert (H3 : rows (notifications db3)
               = rows (notifications db2)
                 ++ [notify (next_id (notifications db2)) t6]).
  { unfold db3, req. rewrite (like_post_absent t5 t6 u h db2 post).
    - simpl. now rewrite Hother.
    - rewrite H2, H1. exact (posts_pk db Hc).
    - rewrite H2, H1. exact (posts_user_fk db Hc).
    - rewrite H2, H1. exact Hme.
    - rewrite H2, H1. exact Hin.
    - exact Hid.
    - rewrite liked_exists, H2. simpl. rewrite not_liked_after_delete.
      discriminate. }
  split; [now rewrite H1|]. split; [now rewrite H2|].
  rewrite H3, H2, H1. simpl. now rewrite <- app_assoc.
Qed.

(** Alice marks her notification as read, twice. *)
Lemma mark_notification_read_twice_witness :
  fst (mark_notification_read (authenticated Sample.alice_token (on_param 1))
                              Sample.db)
  = mkResponse 200 (SuccessMessage "Notification marked as read" None)
  /\ mark_notification_read
       (authenticated Sample.alice_token (on_param 1))
       (snd (mark_notification_read
               (authenticated Sample.alice_token (on_param 1)) Sample.db))
     = mark_notification_read (authenticated Sample.alice_token (on_param 1))
                              Sample.db.
Proof.
  split; [reflexivity|].
  apply (mark_notification_read_twice Sample.alice_token (on_param 1) Sample.db).
  reflexivity.
Defined.

(** Carol likes, unlikes and likes alice's post. *)
Lemma relike_notifies_again_witness :
  rows (notifications
          (snd (like_post 420 421
                  (authenticated Sample.carol_token (on_param 1))
                  (snd (like_post 410 411
                          (authenticated Sample.carol_token (on_param 1))
                          (snd (like_post 400 401
                                  (authenticated Sample.carol_token (on_param 1))
                                  Sample.db)))))))
  = rows (notifications Sample.db)
    ++ [Notifications.mk 3 1 "like" 3 (Some 1) false 401;
        Notifications.mk 4 1 "like" 3 (Some 1) false 421].
Proof.
  apply (relike_notifies_again 400 401 410 411 420 421 Sample.carol_token
           (on_param 1) Sample.db (Posts.mk 1 1 "hello" 200)).
  - exact sample_consistent.
  - exists Sample.carol. simpl. auto.
  - simpl. auto.
  - reflexivity.
  - discriminate.
  - intros [l [Hin [Hu Hp]]]. simpl in Hin. destruct Hin as [<-|[]]. discriminate.
Defined.


(** ** Profiles and their counts *)

(** The profile of an existing user, as GET /api/users/:userId computes it. *)
Lemma get_user_found (req : Request) (db : DB) (found : Users.row) :
  primary_key Users.id (users db) ->
  user req = None ->
  In found (rows (users db)) -> Users.id found = param (http req) ->
  get_user req db
  = (json 200
       (Success
          (DProfile
             (mkProfile (user_info found)
                (Z.of_nat (List.length
                             (filter (fun p => Posts.user_id p =? Users.id found)
                                     (rows (posts db)))))
                (Z.of_nat (List.length
                             (filter (fun f => Follows.following_id f =? Users.id found)
                                     (rows (follows db)))))
                (Z.of_nat (List.length
                             (filter (fun f => Follows.follower_id f =? Users.id found)
                                     (rows (follows db)))))
                false))),
     db).
Proof.
  intros [Hnd _] Hnone Hin Hid.
  unfold get_user, try_catch, bind. simpl. rewrite Hnone, <- Hid.
  rewrite (select_by_key Users.id _ found Hnd Hin). reflexivity.
Qed.

Lemma count_after_delete {A : Type} (g m : A -> bool) (l : list A) :
  (forall x, m x = true -> g x = true) ->
  List.length (filter g l)
  = (List.length (filter m l)
     + List.length (filter g (filter (fun x => negb (m x)) l)))%nat.
Proof.
  intros Hmg. induction l as [|x l IH]; simpl; [reflexivity|].
  destruct (m x) eqn:Em; simpl.
  - rewrite (Hmg x Em). simpl. now rewrite IH.
  - destruct (g x); simpl; rewrite IH; lia.
Qed.

Lemma filter_after_delete {A : Type} (g m : A -> bool) (l : list A) :
  (forall x, m x = true -> g x = false) ->
  filter g (filter (fun x => negb (m x)) l) = filter g l.
Proof.
  intros Hg. induction l as [|x l IH]; simpl; [reflexivity|].
  destruct (m x) eqn:Em; simpl.
  - rewrite (Hg x Em). exact IH.
  - destruct (g x); now rewrite IH.
Qed.

Lemma follows_row_once (db : DB) (a b : Z) :
  follows_unique db -> following db a b ->
  List.length (filter (follows_match a b) (rows (follows db))) = 1%nat.
Proof.
  intros Hu Hf. specialize (Hu a b). apply following_exists in Hf.
  destruct (existsb_filter_cons _ _ Hf) as [x [t [E _]]].
  rewrite E in *. simpl in *. lia.
Qed.

(** X16. Follows show in the profiles.  After a follow request goes
    through, GET /api/users/:userId counts one more follower for the
    followed user and one more following for the follower when the request
    followed, one fewer of each when it unfollowed; the post counts and the
    rest of both profiles stay as they were. *)
Theorem follow_changes_counts (now later : Z) (u : TokenPayload) (h : HttpRequest)
    (db : DB) (follower followed : Users.row) :
  consistent db ->
  In follower (rows (users db)) -> Users.id follower = tok_userId u ->
  In followed (rows (users db)) -> Users.id followed = param h ->
  Users.id followed <> Users.id follower ->
  let db' := snd (follow_user now later (authenticated u h) db) in
  exists theirs theirs' mine mine',
    get_user (incoming (on_param (Users.id followed))) db
    = (json 200 (Success (DProfile theirs)), db)
    /\ get_user (incoming (on_param (Users.id followed))) db'
       = (json 200 (Success (DProfile theirs')), db')
    /\ get_user (incoming (on_param (Users.id follower))) db
       = (json 200 (Success (DProfile mine)), db)
    /\ get_user (incoming (on_param (Users.id follower))) db'
       = (json 200 (Success (DProfile mine')), db')
    /\ (~ following db (Users.id follower) (Users.id followed) ->
        stats_followers theirs' = stats_followers theirs + 1
        /\ stats_following mine' = stats_following mine + 1)
    /\ (following db (Users.id follower) (Users.id followed) ->
        stats_followers theirs' = stats_followers theirs - 1
        /\ stats_following mine' = stats_following mine - 1)
    /\ stats_following theirs' = stats_following theirs
    /\ stats_followers mine' = stats_followers mine
    /\ stats_posts theirs' = stats_posts theirs
    /\ stats_posts mine' = stats_posts mine
    /\ pr_user theirs' = pr_user theirs
    /\ pr_user mine' = pr_user mine.
Proof.
  intros Hc Hfin Hfid Htin Htid Hne db'.
  assert (Hme : user_exists (tok_userId u) db = true).
  { apply is_user_exists. now exists follower. }
  assert (Htarget : user_exists (param h) db = true).
  { apply is_user_exists. now exists followed. }
  assert (Hneb : (param h =? tok_userId u) = false).
  { apply Z.eqb_neq. congruence. }
  assert (Hrows : users db' = users db /\ posts db' = posts db
                  /\ rows (follows db')
                     = if existsb (follows_match (Users.id follower)
                                                 (Users.id followed))
                                  (rows (follows db))
                       then filter (fun f => negb (follows_match (Users.id follower)
                                                     (Users.id followed) f))
                                   (rows (follows db))
                       else rows (follows db)
                            ++ [Follows.mk (next_id (follows db)) (Users.id follower)
                                           (Users.id followed) now]).
  { unfold db', follow_user, try_catch, bind, req_userId, authenticated. simpl.
    rewrite Hneb. simpl. rewrite length_zero_existsb.
    change (existsb (fun u0 => Users.id u0 =? param h) (rows (users db)))
      with (user_exists (param h) db).
    rewrite Htarget. simpl. rewrite length_pos_existsb. rewrite Hfid, Htid.
    destruct (existsb (follows_match (tok_userId u) (param h)) (rows (follows db)))
      eqn:Ef; simpl; [auto|].
    unfold insert_follow. rewrite Ef, Hme, Htarget. simpl.
    unfold insert_notification, user_exists in *. simpl. rewrite Hme, Htarget.
    simpl. auto. }
  destruct Hrows as [Hu [Hp Hf]].
  assert (Hpk' : primary_key Users.id (users db')).
  { rewrite Hu. apply (users_pk db Hc). }
  assert (Hfin' : In follower (rows (users db'))) by now rewrite Hu.
  assert (Htin' : In followed (rows (users db'))) by now rewrite Hu.
  eexists _, _, _, _.
  split; [apply (get_user_found _ db followed (users_pk db Hc)); auto|].
  split; [apply (get_user_found _ db' followed Hpk'); auto|].
  split; [apply (get_user_found _ db follower (users_pk db Hc)); auto|].
  split; [apply (get_user_found _ db' follower Hpk'); auto|].
  simpl. rewrite Hp, Hf.
  destruct (existsb (follows_match (Users.id follower) (Users.id followed))
                    (rows (follows db))) eqn:Ef.
  - apply following_exists in Ef.
    pose proof (follows_row_once db _ _ (follows_key db Hc) Ef) as Hone.
    assert (C1 := count_after_delete
                    (fun f => Follows.following_id f =? Users.id followed)
                    (follows_match (Users.id follower) (Users.id followed))
                    (rows (follows db))).
    assert (C2 := count_after_delete
                    (fun f => Follows.follower_id f =? Users.id follower)
                    (follows_match (Users.id follower) (Users.id followed))
                    (rows (follows db))).
    assert (C3 := fun g => filter_after_delete g
                        (follows_match (Users.id follower) (Users.id followed))
                        (rows (follows db))).
    rewrite C1, C2, Hone.
    + rewrite (C3 (fun f => Follows.follower_id f =? Users.id followed)).
      * rewrite (C3 (fun f => Follows.following_id f =? Users.id follower)).
        -- repeat split; intros; try contradiction; lia.
        -- intros x Hx. apply follows_match_true in Hx as [_ Hx].
           apply Z.eqb_neq. congruence.
      * intros x Hx. apply follows_match_true in Hx as [Hx _].
        apply Z.eqb_neq. congruence.
    + intros x Hx. apply follows_match_true in Hx as [Hx _]. now apply Z.eqb_eq.
    + intros x Hx. apply follows_match_true in Hx as [_ Hx]. now apply Z.eqb_eq.
  - rewrite !filter_app, !length_app. simpl. rewrite !Z.eqb_refl. simpl.
    assert (E1 : (Users.id follower =? Users.id followed) = false).
    { apply Z.eqb_neq. congruence. }
    assert (E2 : (Users.id followed =? Users.id follower) = false).
    { now apply Z.eqb_neq. }
    rewrite E1, E2. simpl.
    repeat split; intros;
      try (match goal with
           | H : following _ _ _ |- _ =>
               apply following_exists in H; congruence
           end);
      lia.
Qed.

(** Carol follows alice: alice's profile counts one follower. *)
Lemma follow_changes_counts_witness :
  exists theirs theirs',
    get_user (incoming (on_param 1)) Sample.db
    = (json 200 (Success (DProfile theirs)), Sample.db)
    /\ fst (get_user (incoming (on_param 1))
              (snd (follow_user 400 401
                      (authenticated Sample.carol_token (on_param 1))
                      Sample.db)))
       = json 200 (Success (DProfile theirs'))
    /\ stats_followers theirs = 0
    /\ stats_followers theirs' = 1.
Proof.
  destruct (follow_changes_counts 400 401 Sample.carol_token (on_param 1)
              Sample.db Sample.carol Sample.alice sample_consistent)
    as [theirs [theirs' [mine [mine' [H1 [H2 _]]]]]];
    simpl; auto; try discriminate.
  exists theirs, theirs'. split; [exact H1|].
  split; [exact (f_equal fst H2)|].
  inversion H1. inversion H2. split; reflexivity.
Defined.


(** ** What no route deletes *)

Lemma extends_refl (db : DB) : extends db db.
Proof.
  unfold extends. repeat split; try lia; exists []; now rewrite app_nil_r.
Qed.

Lemma mark_read_update (nid : Z) (l : list Notifications.row) :
  map Notifications.mark_read
      (map (fun n => if Notifications.id n =? nid
                     then Notifications.mark_read n else n) l)
  = map Notifications.mark_read l.
Proof.
  rewrite map_map. apply map_ext. intros n.
  destruct (Notifications.id n =? nid); reflexivity.
Qed.

(** A statement keeps [extends db0] when it appends to a table, deletes from
    likes or follows, or sets is_read. *)
Ltac still_extends :=
  intros d (Hu & Hp & Hc & Hn & L1 & L2 & L3 & L4 & L5 & L6);
  destruct Hu as [mu Hu], Hp as [mp Hp], Hc as [mc Hc], Hn as [mn Hn];
  repeat match goal with |- context [if ?c then _ else _] => destruct c end;
  unfold extends; simpl;
  rewrite ?map_app, ?mark_read_update, ?Hu, ?Hp, ?Hc, ?Hn, <- ?app_assoc;
  repeat split; try lia; eexists; reflexivity.

Lemma extends_insert_user (collation : string -> string) (db0 : DB) (now : Z)
    (name mail hash : string) (admin : bool) :
  preserves (extends db0) (insert_user collation now name mail hash admin).
Proof. unfold insert_user. still_extends. Qed.

Lemma extends_insert_post (db0 : DB) (now uid : Z) (text : string) :
  preserves (extends db0) (insert_post now uid text).
Proof. unfold insert_post. still_extends. Qed.

Lemma extends_insert_comment (db0 : DB) (now uid pid : Z) (text : string) :
  preserves (extends db0) (insert_comment now uid pid text).
Proof. unfold insert_comment. still_extends. Qed.

Lemma extends_insert_like (db0 : DB) (now uid pid : Z) :
  preserves (extends db0) (insert_like now uid pid).
Proof. unfold insert_like. still_extends. Qed.

Lemma extends_delete_likes (db0 : DB) (uid pid : Z) :
  preserves (extends db0) (delete_likes uid pid).
Proof. unfold delete_likes. still_extends. Qed.

Lemma extends_insert_follow (db0 : DB) (now a b : Z) :
  preserves (extends db0) (insert_follow now a b).
Proof. unfold insert_follow. still_extends. Qed.

Lemma extends_delete_follows (db0 : DB) (a b : Z) :
  preserves (extends db0) (delete_follows a b).
Proof. unfold delete_follows. still_extends. Qed.

Lemma extends_insert_notification (db0 : DB) (now uid : Z) (ty : string)
    (source : Z) (pid : option Z) :
  preserves (extends db0) (insert_notification now uid ty source pid).
Proof. unfold insert_notification. still_extends. Qed.

Lemma extends_update_notification_read (db0 : DB) (nid : Z) :
  preserves (extends db0) (update_notification_read nid).
Proof. unfold update_notification_read. still_extends. Qed.

(** X17. No route deletes or rewrites a user, a post or a comment, and
    none deletes a notification or changes one but for is_read: after any
    request, and so after any sequence of requests, the rows these tables
    held are still there, in place, with the new rows after them; and no
    table's AUTO_INCREMENT counter has gone down. *)
Theorem routes_never_delete
    (collation : string -> string)
    (bcrypt_hash : string -> Z -> string -> string)
    (bcrypt_compare : string -> string -> bool)
    (jwt_sign : TokenPayload -> string -> Z -> Z -> string)
    (jwt_verify : string -> string -> Z -> option TokenPayload)
    (JWT_SECRET : string) :
  (forall e r h db,
      extends db (snd (app collation
          bcrypt_hash bcrypt_compare jwt_sign jwt_verify
                           JWT_SECRET e r h db)))
  /\ (forall calls db,
        extends db (replay collation
            bcrypt_hash bcrypt_compare jwt_sign jwt_verify
                           JWT_SECRET calls db)).
Proof.
  assert (Hstep : forall db0 e r h db,
             extends db0 db ->
             extends db0 (snd (app collation
                 bcrypt_hash bcrypt_compare jwt_sign jwt_verify
                                   JWT_SECRET e r h db))).
  { intros db0 e r h db. apply app_preserves.
    - apply extends_insert_user.
    - apply extends_insert_post.
    - apply extends_insert_comment.
    - apply extends_insert_like.
    - apply extends_delete_likes.
    - apply extends_insert_follow.
    - apply extends_delete_follows.
    - apply extends_insert_notification.
    - apply extends_update_notification_read. }
  split.
  - intros e r h db. apply Hstep. apply extends_refl.
  - assert (Hall : forall calls db0 d,
               extends db0 d ->
               extends db0 (replay collation
                   bcrypt_hash bcrypt_compare jwt_sign jwt_verify
                                   JWT_SECRET calls d)).
    { induction calls as [|[[e r] h] calls IH]; simpl; intros db0 d Hd;
        [exact Hd|].
      apply IH. now apply Hstep. }
    intros calls db. apply Hall. apply extends_refl.
Qed.

(** ** The admin listing *)

(** X18. For a token that verifies with a true isAdmin claim, GET
    /api/admin/users answers with every user exactly once, as id, username,
    email and created_at (no password hash and no is_admin), newest first,
    and changes nothing. *)
Theorem admin_users_contents
    (collation : string -> string)
    (bcrypt_hash : string -> Z -> string -> string)
    (bcrypt_compare : string -> string -> bool)
    (jwt_sign : TokenPayload -> string -> Z -> Z -> string)
    (jwt_verify : string -> string -> Z -> option TokenPayload)
    (JWT_SECRET : string)
    (e : Env) (h : HttpRequest) (db : DB) (tok : string) (admin : TokenPayload) :
  bearer h tok -> jwt_verify tok JWT_SECRET (t_auth e) = Some admin ->
  tok_isAdmin admin = true ->
  exists listed,
    app collation bcrypt_hash bcrypt_compare jwt_sign jwt_verify JWT_SECRET e
        GET_admin_users h db
    = (json 200 (Success (DUsers listed)), db)
    /\ Permutation listed
         (map (fun x => mkUserInfo (Users.id x) (Users.username x) (Users.email x)
                                   (Users.created_at x))
              (rows (users db)))
    /\ StronglySorted (fun a b => ui_created_at a >= ui_created_at b) listed.
Proof.
  intros Hb Hv Ha.
  exists (map user_info (order_by (desc Users.created_at) (rows (users db)))).
  split; [|split].
  - unfold app. simpl.
    rewrite (authenticate_bearer jwt_verify JWT_SECRET (t_auth e) (incoming h)
               tok Hb), Hv.
    unfold requireAdmin. simpl. rewrite Ha. reflexivity.
  - apply (Permutation_map user_info). apply order_by_perm.
  - apply StronglySorted_map. apply (order_by_desc_sorted Users.created_at).
Qed.

(** Bob, an admin, lists the users. *)
Lemma admin_users_contents_witness :
  exists listed,
    app Sample.collation
        Sample.bcrypt_hash Sample.bcrypt_compare Sample.jwt_sign
        Sample.jwt_verify Sample.secret (mkEnv 500 500 500 "") GET_admin_users
        (mkHttp (Some "Bearer bob_admin@gmail.com") 0 None None None None)
        Sample.db
    = (json 200 (Success (DUsers listed)), Sample.db)
    /\ map ui_username listed = ["carol"; "bob"; "alice"].
Proof.
  destruct (admin_users_contents Sample.collation
      Sample.bcrypt_hash Sample.bcrypt_compare
              Sample.jwt_sign Sample.jwt_verify Sample.secret
              (mkEnv 500 500 500 "")
              (mkHttp (Some "Bearer bob_admin@gmail.com") 0 None None None None)
              Sample.db "bob_admin@gmail.com" Sample.bob_token)
    as [listed [H _]]; try reflexivity.
  - exists "Bearer bob_admin@gmail.com". repeat split. discriminate.
  - exists listed. split; [exact H|].
    inversion H. reflexivity.
Defined.


(** ** Which tables a route writes *)

(** A statement that leaves a table alone keeps it equal to what it was. *)
Ltac leaves_alone :=
  let d := fresh "d" in
  let Hd := fresh "Hd" in
  intros d Hd; rewrite <- Hd;
  unfold insert_user, insert_post, insert_comment, insert_like, delete_likes,
    insert_follow, delete_follows, insert_notification, update_notification_read;
  repeat match goal with |- context [if ?c then _ else _] => destruct c end;
  reflexivity.

Ltac keeps :=
  repeat first
    [ apply preserves_ret | apply preserves_throw | apply preserves_query
    | apply preserves_first_row | apply preserves_req_userId
    | apply preserves_bind_param | apply preserves_bcrypt_arg
    | apply preserves_bind; [|intros ?]
    | match goal with
      | |- preserves _ (if ?c then _ else _) => destruct c
      | |- preserves _ (match ?x with _ => _ end) => destruct x
      end
    | solve [leaves_alone] ].

Ltac table_kept :=
  unfold register, login, create_post, get_posts, like_post, get_user,
    follow_user, get_feed, add_comment, get_comments, get_notifications,
    mark_notification_read, admin_users, api_status;
  unfold select_users_by_email, select_users_by_id, select_posts_by_id,
    select_likes, select_follows, select_notification, select_post_view,
    select_all_posts, select_feed, select_comment_view, select_post_comments,
    select_notifications, select_all_users, count_posts, count_followers,
    count_following;
  match goal with
  | |- ?proj (snd (try_catch ?m ?db)) = ?proj ?db =>
      apply (preserves_try_catch (fun d => proj d = proj db) m db);
      [keeps | reflexivity]
  | |- _ => reflexivity
  end.

(** X19. Each route writes its own tables and no other: users is written
    by registration only, posts by POST /api/posts only, comments by the
    comment route only, likes by the like route only, follows by the follow
    route only, and notifications by the like, follow, comment and
    mark-as-read routes only.  For every other route the table, rows and
    AUTO_INCREMENT counter, is the same after the request, whatever the
    request was and whatever the answer. *)
Theorem routes_write_own_tables
    (collation : string -> string)
    (bcrypt_hash : string -> Z -> string -> string)
    (bcrypt_compare : string -> string -> bool)
    (jwt_sign : TokenPayload -> string -> Z -> Z -> string)
    (jwt_verify : string -> string -> Z -> option TokenPayload)
    (JWT_SECRET : string) (e : Env) (r : Route) (h : HttpRequest) (db : DB) :
  let db' := snd (app collation
      bcrypt_hash bcrypt_compare jwt_sign jwt_verify JWT_SECRET
                      e r h db) in
  (r <> POST_auth_register -> users db' = users db)
  /\ (r <> POST_posts -> posts db' = posts db)
  /\ (r <> POST_posts_comments -> comments db' = comments db)
  /\ (r <> POST_posts_like -> likes db' = likes db)
  /\ (r <> POST_users_follow -> follows db' = follows db)
  /\ (r <> POST_posts_like -> r <> POST_users_follow ->
      r <> POST_posts_comments -> r <> PATCH_notifications_read ->
      notifications db' = notifications db).
Proof.
  assert (Hroute : forall (X : Type) (p : DB -> X),
             (forall req, p (snd (handler collation
                 bcrypt_hash bcrypt_compare jwt_sign
                                          JWT_SECRET e r req db)) = p db) ->
             p (snd (app collation
                 bcrypt_hash bcrypt_compare jwt_sign jwt_verify JWT_SECRET
                         e r h db)) = p db).
  { intros X p Hh. unfold app.
    generalize (incoming h) as req.
    induction (middlewares jwt_verify JWT_SECRET e r) as [|mw rest IH]; simpl;
      intros req; [apply Hh|].
    destruct (mw req); simpl; [reflexivity | apply IH]. }
  intros db'. unfold db'.
  repeat split; intros; apply Hroute; intros req;
    destruct r; try congruence; simpl; table_kept.
Qed.

(** The likes rows a like request leaves. *)
Lemma like_post_rows (now later : Z) (u : TokenPayload) (h : HttpRequest) (db : DB) :
  let rows' := rows (likes (snd (like_post now later (authenticated u h) db))) in
  rows' = rows (likes db)
  \/ rows' = filter (fun l => negb (likes_match (tok_userId u) (param h) l))
                    (rows (likes db))
  \/ rows' = rows (likes db)
             ++ [Likes.mk (next_id (likes db)) (tok_userId u) (param h) now].
Proof.
  unfold like_post, try_catch, bind, req_userId, authenticated. simpl.
  rewrite length_pos_existsb.
  destruct (existsb _ (rows (likes db))) eqn:E; simpl; [auto|].
  unfold insert_like. rewrite E.
  destruct (negb _); simpl; [auto|].
  destruct (filter _ (rows (posts db))) as [|post rest]; simpl; [auto|].
  destruct (negb _); simpl; [|auto].
  unfold insert_notification. destruct (negb _); simpl; auto.
Qed.

(** The follows rows a follow request leaves. *)
Lemma follow_user_rows (now later : Z) (u : TokenPayload) (h : HttpRequest)
    (db : DB) :
  let rows' := rows (follows (snd (follow_user now later (authenticated u h) db))) in
  rows' = rows (follows db)
  \/ rows' = filter (fun f => negb (follows_match (tok_userId u) (param h) f))
                    (rows (follows db))
  \/ rows' = rows (follows db)
             ++ [Follows.mk (next_id (follows db)) (tok_userId u) (param h) now].
Proof.
  unfold follow_user, try_catch, bind, req_userId, authenticated. simpl.
  destruct (param h =? tok_userId u); simpl; [auto|].
  destruct (_ =? 0); simpl; [auto|].
  rewrite length_pos_existsb.
  destruct (existsb _ (rows (follows db))) eqn:E; simpl; [auto|].
  unfold insert_follow. rewrite E.
  destruct (negb _); simpl; [auto|].
  unfold insert_notification. destruct (negb _); simpl; auto.
Qed.

(** X20. A like request touches the likes of no other pair: a row of likes
    for another user or another post is in the table after the request
    exactly if it was before; and likewise a follow request and the rows of
    follows for another follower or another followed user. *)
Theorem toggles_touch_one_pair (now later : Z) (u : TokenPayload) (h : HttpRequest)
    (db : DB) :
  (forall l,
      ~ (Likes.user_id l = tok_userId u /\ Likes.post_id l = param h) ->
      In l (rows (likes (snd (like_post now later (authenticated u h) db))))
      <-> In l (rows (likes db)))
  /\ (forall f,
        ~ (Follows.follower_id f = tok_userId u
           /\ Follows.following_id f = param h) ->
        In f (rows (follows (snd (follow_user now later (authenticated u h) db))))
        <-> In f (rows (follows db))).
Proof.
  split.
  - intros l Hl. rewrite <- likes_match_true in Hl. apply not_true_is_false in Hl.
    destruct (like_post_rows now later u h db) as [->|[->| ->]]; [tauto| |].
    + rewrite filter_In, Hl. simpl. tauto.
    + rewrite in_app_iff. simpl. split; [|auto].
      intros [H|[<-|[]]]; [assumption|].
      unfold likes_match in Hl. simpl in Hl. rewrite !Z.eqb_refl in Hl.
      discriminate.
  - intros f Hf. rewrite <- follows_match_true in Hf.
    apply not_true_is_false in Hf.
    destruct (follow_user_rows now later u h db) as [->|[->| ->]]; [tauto| |].
    + rewrite filter_In, Hf. simpl. tauto.
    + rewrite in_app_iff. simpl. split; [|auto].
      intros [H|[<-|[]]]; [assumption|].
      unfold follows_match in Hf. simpl in Hf. rewrite !Z.eqb_refl in Hf.
      discriminate.
Qed.

(** ** From login to the routes behind the token *)

Section Session.

Variable collation : string -> string.
Variable bcrypt_compare : string -> string -> bool.
Variable jwt_sign : TokenPayload -> string -> Z -> Z -> string.
Variable jwt_verify : string -> string -> Z -> option TokenPayload.
Variable JWT_SECRET : string.

Local Abbreviation Login :=
  (login collation bcrypt_compare jwt_sign JWT_SECRET).
Local Abbreviation AuthenticateToken := (authenticateToken jwt_verify JWT_SECRET).

(** What a login that was answered 200 found. *)
Lemma login_accepted (now : Z) (attempt : Request) (db : DB) (token : string)
    (view : UserView) :
  fst (Login now attempt db) = json 200 (Success (DAuth token view)) ->
  exists x typed pw,
    In x (rows (users db))
    /\ body_email (http attempt) = Some typed
    /\ collation (Users.email x) = collation typed
    /\ body_password (http attempt) = Some pw
    /\ bcrypt_compare pw (Users.password_hash x) = true
    /\ token = jwt_sign (mkPayload (Users.id x) (Users.email x) (Users.is_admin x))
                        JWT_SECRET now expires_24h
    /\ view = user_view x.
Proof.
  unfold login, try_catch, bind, bind_param, bcrypt_arg, select_users_by_email,
    query.
  destruct (body_email (http attempt)) as [mail|]; simpl; [|discriminate].
  destruct (filter _ (rows (users db))) as [|x rest] eqn:E; simpl; [discriminate|].
  assert (Hx : In x (filter (fun u => equal_under collation (Users.email u) mail)
                            (rows (users db)))).
  { rewrite E. now left. }
  apply filter_In in Hx as [Hin Hmail]. apply equal_under_true in Hmail.
  destruct (body_password (http attempt)) as [pw|]; simpl; [|discriminate].
  destruct (bcrypt_compare pw (Users.password_hash x)) eqn:Hc; simpl;
    [|discriminate].
  intros H. inversion H. subst. exists x, mail, pw. auto 10.
Qed.

(** X21. The token of a login opens the routes as the user who logged in.
    When a login is answered 200, the library verifies the tokens it signs
    for the users, and the token is one word, then the request the tester
    page builds with that token passes [authenticateToken] with [req.user]
    the id, the email and the is_admin column of the user whose record the
    login answered with, and [requireAdmin] lets it through exactly when that
    column is true. *)
Theorem login_token_opens_routes (now later : Z) (attempt req : Request) (db : DB)
    (token : string) (view : UserView) :
  fst (Login now attempt db) = json 200 (Success (DAuth token view)) ->
  (forall x,
      In x (rows (users db)) ->
      let p := mkPayload (Users.id x) (Users.email x) (Users.is_admin x) in
      jwt_verify (jwt_sign p JWT_SECRET now expires_24h) JWT_SECRET later = Some p) ->
  no_space token = true -> token <> "" ->
  authorization (http req) = makeRequest_authorization token ->
  exists x,
    In x (rows (users db)) /\ view = user_view x
    /\ let req' :=
         mkRequest (http req)
                   (Some (mkPayload (Users.id x) (Users.email x)
                                    (Users.is_admin x))) in
       AuthenticateToken later req = Next req'
       /\ requireAdmin req'
          = if Users.is_admin x then Next req'
            else Respond (json 403 (Failure "Admin access required")).
Proof.
  intros Hlogin Hjwt Hsp Hne Hh.
  destruct (login_accepted now attempt db token view Hlogin)
    as [x [typed [pw [Hin [_ [_ [_ [_ [Htok Hview]]]]]]]]].
  exists x. split; [assumption|]. split; [assumption|]. split.
  - unfold makeRequest_authorization in Hh.
    rewrite (present_truthy token Hne) in Hh.
    assert (Hs : split " " ("Bearer " ++ token) = ["Bearer"; token]).
    { change ("Bearer " ++ token)%string with ("Bearer" ++ String " " token)%string.
      rewrite split_first_word; [|reflexivity]. now rewrite split_no_space. }
    rewrite (authenticate_second_word jwt_verify JWT_SECRET later req
               ("Bearer " ++ token) "Bearer" token [] Hh Hs).
    apply String.eqb_neq in Hne. rewrite Hne, Htok, (Hjwt x Hin). reflexivity.
  - unfold requireAdmin. simpl. destruct (Users.is_admin x); reflexivity.
Qed.

End Session.

(** Bob logs in and reaches the admin route. *)
Lemma login_token_opens_routes_witness :
  authenticateToken Sample.jwt_verify Sample.secret 600
    (incoming (mkHttp (makeRequest_authorization "bob_admin@gmail.com") 0 None
                      None None None))
  = Next (authenticated Sample.bob_token
            (mkHttp (Some "Bearer bob_admin@gmail.com") 0 None None None None))
  /\ requireAdmin (authenticated Sample.bob_token
                     (mkHttp (Some "Bearer bob_admin@gmail.com") 0 None None None
                             None))
     = Next (authenticated Sample.bob_token
               (mkHttp (Some "Bearer bob_admin@gmail.com") 0 None None None None)).
Proof.
  destruct (login_token_opens_routes Sample.collation
      Sample.bcrypt_compare Sample.jwt_sign
              Sample.jwt_verify Sample.secret 500 600
              (incoming (mkHttp None 0 None (Some "bob_admin@gmail.com")
                                (Some "builder") None))
              (incoming (mkHttp (makeRequest_authorization "bob_admin@gmail.com")
                                0 None None None None))
              Sample.db "bob_admin@gmail.com" (user_view Sample.bob))
    as [x [Hin [Hview H]]]; try reflexivity; try discriminate.
  - simpl. intros x [<-|[<-|[<-|[]]]]; reflexivity.
  - simpl in Hin. destruct Hin as [<-|[<-|[<-|[]]]]; try discriminate.
    exact H.
Defined.
